(** * osFree SMP core: scheduler, NUMA page allocator, spinlocks, IPIs

    A shallow embedding of the C sources
      - include/os3/spinlock.h   (ticket spinlock)
      - include/os3/scheduler.h  (priority classes, os2_to_internal_priority)
      - kernel/smp/smp.c         (smp_send_ipi)
      - kernel/apic/apic.c       (lapic_send_ipi)
      - kernel/mm/numa.c         (fallback order, buddy allocator)
      - kernel/sched/scheduler.c (run queues, schedule, load balance)
      - os3/api/doscalls_thread.c (DosExitCritSec, apply_priority_change)

    Machine integers are [Z] with the wrap-around written out; C arrays are
    lists read with [!!] and written with [<[ _ := _ ]>]; pointers to
    threads and pages are integer handles into an explicit store; a NULL
    dereference or an out-of-bounds access makes the operation return
    [None]. *)

From Stdlib Require Import ZArith Lia List Sorted Permutation.
From stdpp Require Import base tactics option list gmap.

Local Open Scope Z_scope.

(** ** Fixed-width integers *)

Definition u8 (x : Z) : Z := x mod 2 ^ 8.
Definition u16 (x : Z) : Z := x mod 2 ^ 16.
Definition u32 (x : Z) : Z := x mod 2 ^ 32.
Definition u64 (x : Z) : Z := x mod 2 ^ 64.

(** [x & mask] used as a C truth value. *)
Definition tst (x mask : Z) : bool := negb (Z.land x mask =? 0).

(** [1 << n] on a 32-bit operand and [1ULL << n] on a 64-bit one. *)
Definition bit32 (n : Z) : Z := u32 (Z.shiftl 1 n).
Definition bit64 (n : Z) : Z := u64 (Z.shiftl 1 n).

(** [x &= ~mask] on an unsigned word. *)
Definition clear_bits (x mask : Z) : Z := Z.land x (Z.lnot mask).

(** Array access with a C integer index. *)
Definition at_ {A} (l : list A) (i : Z) : option A :=
  if i <? 0 then None else l !! Z.to_nat i.

Definition upd {A} (l : list A) (i : Z) (x : A) : list A :=
  <[Z.to_nat i := x]> l.

(** The indices [0, 1, ..., n - 1]. *)
Definition zrange (n : Z) : list Z := map Z.of_nat (seq 0 (Z.to_nat n)).

(** ** Atomic integers (include/os3/atomic.h) *)

Module Atomic.

(** [int32_t] as the [__atomic] builtins compute it: two's complement,
    wrapping at both ends. *)
Definition s32 (x : Z) : Z := (x + 2 ^ 31) mod 2 ^ 32 - 2 ^ 31.

Record atomic_t := { counter : Z }.

Definition atomic_read (v : atomic_t) : Z := counter v.

Definition atomic_set (v : atomic_t) (i : Z) : atomic_t := {| counter := i |}.

Definition atomic_inc (v : atomic_t) : atomic_t :=
  {| counter := s32 (counter v + 1) |}.

Definition atomic_dec (v : atomic_t) : atomic_t :=
  {| counter := s32 (counter v - 1) |}.

(** [__atomic_add_fetch] and [__atomic_sub_fetch]: the new value is
    returned. *)
Definition atomic_add_return (i : Z) (v : atomic_t) : Z * atomic_t :=
  let n := s32 (counter v + i) in (n, {| counter := n |}).

Definition atomic_sub_return (i : Z) (v : atomic_t) : Z * atomic_t :=
  let n := s32 (counter v - i) in (n, {| counter := n |}).

Definition atomic_inc_return (v : atomic_t) : Z * atomic_t := atomic_add_return 1 v.

Definition atomic_dec_return (v : atomic_t) : Z * atomic_t := atomic_sub_return 1 v.

Definition atomic_dec_and_test (v : atomic_t) : Z * atomic_t :=
  let '(n, v) := atomic_dec_return v in (if n =? 0 then 1 else 0, v).

(** [atomic_cmpxchg]: [prev] starts as [old]; the builtin stores [new] when
    the counter equals [prev] and otherwise loads the counter into [prev].
    Either way the value returned is the one the counter held. *)
Definition atomic_cmpxchg (v : atomic_t) (old new : Z) : Z * atomic_t :=
  if counter v =? old then (old, {| counter := new |}) else (counter v, v).

(** [while (c != 0) { old = atomic_cmpxchg(v, c, c + 1); if (old == c)
    return 1; c = old; } return 0;] with [fuel] rounds of the loop. *)
Fixpoint inc_not_zero_loop (fuel : nat) (c : Z) (v : atomic_t) : option (Z * atomic_t) :=
  match fuel with
  | O => None
  | S fuel' =>
      if negb (c =? 0) then
        let '(old, v') := atomic_cmpxchg v c (s32 (c + 1)) in
        if old =? c then Some (1, v') else inc_not_zero_loop fuel' old v'
      else Some (0, v)
  end.

Definition atomic_inc_not_zero (fuel : nat) (v : atomic_t) : option (Z * atomic_t) :=
  inc_not_zero_loop fuel (atomic_read v) v.

End Atomic.

(** ** Ticket spinlock (include/os3/spinlock.h) *)

Module Spinlock.

(** [union { uint32_t head_tail; struct { uint16_t head; uint16_t tail; }; }]
    on a little-endian machine: [head] is the low half, [tail] the high half. *)
Record spinlock := { head_tail : Z }.

Definition head (lock : spinlock) : Z := Z.land (head_tail lock) 0xFFFF.
Definition tail (lock : spinlock) : Z := Z.shiftr (head_tail lock) 16.

Definition spin_lock_init (lock : spinlock) : spinlock := {| head_tail := 0 |}.

Definition atomic_load_n (lock : spinlock) : Z := head_tail lock.

(** [__atomic_compare_exchange_n(&lock->head_tail, &old, new, ...)]: the
    word is replaced when it still holds the expected value. *)
Definition atomic_compare_exchange_n (lock : spinlock) (expected desired : Z)
  : bool * spinlock :=
  if head_tail lock =? expected
  then (true, {| head_tail := desired |})
  else (false, lock).

(** [spin_trylock] after its load: [old] is the word the load returned,
    [lock] the lock as the compare-and-exchange finds it. *)
Definition spin_trylock_from (old : Z) (lock : spinlock) : Z * spinlock :=
  if negb (Z.shiftr old 16 =? Z.land old 0xFFFF) then (0, lock)
  else
    let new := u32 (old + 0x10000) in
    let '(ok, lock') := atomic_compare_exchange_n lock old new in
    if ok then (1, lock') else (0, lock').

(** [spin_trylock], executed as one step of the calling CPU: the word read
    by the load is the word the compare-and-exchange finds. *)
Definition spin_trylock (lock : spinlock) : Z * spinlock :=
  spin_trylock_from (atomic_load_n lock) lock.

Definition spin_is_locked (lock : spinlock) : Z :=
  let val := atomic_load_n lock in
  if negb (Z.shiftr val 16 =? Z.land val 0xFFFF) then 1 else 0.

(** [spin_unlock]: [__atomic_fetch_add(&lock->head, 1, ...)] on the 16-bit
    half only. *)
Definition spin_unlock (lock : spinlock) : spinlock :=
  {| head_tail := Z.lor (Z.shiftl (tail lock) 16) (u16 (head lock + 1)) |}.

(** [spin_lock], first statement: [ticket = __atomic_fetch_add(&lock->tail,
    1, ...)] on the 16-bit half. *)
Definition take_ticket (lock : spinlock) : Z * spinlock :=
  (tail lock, {| head_tail := Z.lor (Z.shiftl (u16 (tail lock + 1)) 16) (head lock) |}).

(** [while (__atomic_load_n(&lock->head, ...) != ticket) cpu_relax();] The
    lock word is written by other CPUs only; the CPU that waits sees it
    unchanged for [fuel] rounds and the result is [None] when the ticket was
    not served within them. *)
Fixpoint spin_wait (fuel : nat) (ticket : Z) (lock : spinlock) : option spinlock :=
  match fuel with
  | O => None
  | S fuel' =>
      if negb (head lock =? ticket) then spin_wait fuel' ticket lock
      else Some lock
  end.

Definition spin_lock (fuel : nat) (lock : spinlock) : option spinlock :=
  let '(ticket, lock) := take_ticket lock in
  spin_wait fuel ticket lock.

(** *** Read-write lock *)

Record rwlock := {
  count : Atomic.atomic_t;
  wait : spinlock;
}.

Definition set_count (c : Atomic.atomic_t) (rw : rwlock) : rwlock :=
  {| count := c; wait := wait rw |}.

Definition set_wait (w : spinlock) (rw : rwlock) : rwlock :=
  {| count := count rw; wait := w |}.

Definition rwlock_init (rw : rwlock) : rwlock :=
  {| count := Atomic.atomic_set (count rw) 0; wait := spin_lock_init (wait rw) |}.

(** [while (1) { int count = atomic_read(&rw->count); if (count >= 0) { if
    (atomic_cmpxchg(&rw->count, count, count + 1) == count) break; }
    cpu_relax(); }] *)
Fixpoint read_lock (fuel : nat) (rw : rwlock) : option rwlock :=
  match fuel with
  | O => None
  | S fuel' =>
      let c := Atomic.atomic_read (count rw) in
      if c >=? 0 then
        let '(prev, cnt) := Atomic.atomic_cmpxchg (count rw) c (Atomic.s32 (c + 1)) in
        if prev =? c then Some (set_count cnt rw)
        else read_lock fuel' (set_count cnt rw)
      else read_lock fuel' rw
  end.

Definition read_unlock (rw : rwlock) : rwlock :=
  set_count (Atomic.atomic_dec (count rw)) rw.

(** [while (atomic_cmpxchg(&rw->count, 0, -1) != 0) cpu_relax();] *)
Fixpoint write_wait (fuel : nat) (rw : rwlock) : option rwlock :=
  match fuel with
  | O => None
  | S fuel' =>
      let '(prev, cnt) := Atomic.atomic_cmpxchg (count rw) 0 (-1) in
      if negb (prev =? 0) then write_wait fuel' (set_count cnt rw)
      else Some (set_count cnt rw)
  end.

Definition write_lock (fuel : nat) (rw : rwlock) : option rwlock :=
  w ← spin_lock fuel (wait rw);
  write_wait fuel (set_wait w rw).

Definition write_unlock (rw : rwlock) : rwlock :=
  let rw := set_count (Atomic.atomic_set (count rw) 0) rw in
  set_wait (spin_unlock (wait rw)) rw.

Definition read_trylock (rw : rwlock) : Z * rwlock :=
  let c := Atomic.atomic_read (count rw) in
  if c >=? 0 then
    let '(prev, cnt) := Atomic.atomic_cmpxchg (count rw) c (Atomic.s32 (c + 1)) in
    if prev =? c then (1, set_count cnt rw) else (0, set_count cnt rw)
  else (0, rw).

Definition write_trylock (rw : rwlock) : Z * rwlock :=
  let '(got, w) := spin_trylock (wait rw) in
  let rw := set_wait w rw in
  if negb (got =? 0) then
    let '(prev, cnt) := Atomic.atomic_cmpxchg (count rw) 0 (-1) in
    let rw := set_count cnt rw in
    if prev =? 0 then (1, rw)
    else (0, set_wait (spin_unlock (wait rw)) rw)
  else (0, rw).

(** *** Sequence lock *)

Record seqlock := {
  sequence : Z;
  lock : spinlock;
}.

Definition seqlock_init (sl : seqlock) : seqlock :=
  {| sequence := 0; lock := spin_lock_init (lock sl) |}.

(** [do { seq = __atomic_load_n(&sl->sequence, ...); } while (seq & 1);] *)
Fixpoint read_seqbegin (fuel : nat) (sl : seqlock) : option Z :=
  match fuel with
  | O => None
  | S fuel' =>
      let seq := sequence sl in
      if tst seq 1 then read_seqbegin fuel' sl else Some seq
  end.

Definition read_seqretry (sl : seqlock) (start : Z) : Z :=
  if negb (sequence sl =? start) then 1 else 0.

Definition write_seqlock (fuel : nat) (sl : seqlock) : option seqlock :=
  l ← spin_lock fuel (lock sl);
  Some {| sequence := u32 (sequence sl + 1); lock := l |}.

Definition write_sequnlock (sl : seqlock) : seqlock :=
  {| sequence := u32 (sequence sl + 1); lock := spin_unlock (lock sl) |}.

End Spinlock.

(** ** Inter-processor interrupts (kernel/smp/smp.c, kernel/apic/apic.c) *)

Module Smp.

Definition MAX_CPUS : Z := 256.

Definition IPI_RESCHEDULE : Z := 0x01.
Definition IPI_TLB_FLUSH : Z := 0x02.
Definition IPI_CALL_FUNC : Z := 0x03.
Definition IPI_STOP : Z := 0x04.
Definition IPI_NMI : Z := 0x05.

Definition VECTOR_IPI_RESCHED : Z := 0xFA.
Definition VECTOR_IPI_CALL : Z := 0xF9.
Definition VECTOR_IPI_TLB : Z := 0xF8.
Definition VECTOR_IPI_STOP : Z := 0xF7.

Definition LAPIC_ICR_LO : Z := 0x300.
Definition LAPIC_ICR_HI : Z := 0x310.
Definition MSR_X2APIC_ICR : Z := 0x830.
Definition APIC_DM_FIXED : Z := Z.shiftl 0 8.
Definition APIC_DEST_PHYSICAL : Z := Z.shiftl 0 11.
Definition APIC_LEVEL_ASSERT : Z := Z.shiftl 1 14.

(** What the interrupt controller sees: the writes of [lapic_send_ipi]. *)
Inductive hw_event :=
  | Wrmsr (msr val : Z)
  | LapicMmioWrite (reg val : Z)
  | LapicWaitIpi.

Record cpu_info := {
  cpu_id : Z;
  apic_id : Z;
  cpu_state : Z;
  numa_node : Z;
  current_thread : option Z;
}.

(** [smp_info] together with the controller mode and the trace of
    controller accesses. [cpus] holds [None] for a NULL pointer. *)
Record smp_state := {
  cpu_count : Z;
  cpu_possible : Z;
  cpus : list (option cpu_info);
  online_mask : list Z;
  x2apic_enabled : bool;
  hw_trace : list hw_event;
}.

Definition emit (e : hw_event) (st : smp_state) : smp_state :=
  {| cpu_count := cpu_count st; cpu_possible := cpu_possible st;
     cpus := cpus st; online_mask := online_mask st;
     x2apic_enabled := x2apic_enabled st;
     hw_trace := hw_trace st ++ [e] |}.

Definition set_cpus (cs : list (option cpu_info)) (st : smp_state) : smp_state :=
  {| cpu_count := cpu_count st; cpu_possible := cpu_possible st;
     cpus := cs; online_mask := online_mask st;
     x2apic_enabled := x2apic_enabled st;
     hw_trace := hw_trace st |}.

Definition set_current_thread (t : option Z) (ci : cpu_info) : cpu_info :=
  {| cpu_id := cpu_id ci; apic_id := apic_id ci; cpu_state := cpu_state ci;
     numa_node := numa_node ci; current_thread := t |}.

(** [cpu_isset(cpu, mask)] on the array of 32-bit mask words. *)
Definition cpu_isset (cpu : Z) (mask : list Z) : bool :=
  match at_ mask (cpu / 32) with
  | Some w => tst w (bit32 (cpu mod 32))
  | None => false
  end.

Definition lapic_send_ipi (dest_apic_id vector : Z) (st : smp_state) : smp_state :=
  if x2apic_enabled st then
    let icr := Z.lor (Z.lor (Z.lor (Z.lor (u64 (Z.shiftl dest_apic_id 32))
                 APIC_DM_FIXED) APIC_DEST_PHYSICAL) APIC_LEVEL_ASSERT) vector in
    emit (Wrmsr MSR_X2APIC_ICR icr) st
  else
    let st := emit (LapicMmioWrite LAPIC_ICR_HI (u32 (Z.shiftl dest_apic_id 24))) st in
    let st := emit (LapicMmioWrite LAPIC_ICR_LO
                (Z.lor (Z.lor (Z.lor APIC_DM_FIXED APIC_DEST_PHYSICAL)
                   APIC_LEVEL_ASSERT) vector)) st in
    emit LapicWaitIpi st.

Definition ipi_vector (ipi_type : Z) : option Z :=
  if ipi_type =? IPI_RESCHEDULE then Some VECTOR_IPI_RESCHED
  else if ipi_type =? IPI_TLB_FLUSH then Some VECTOR_IPI_TLB
  else if ipi_type =? IPI_CALL_FUNC then Some VECTOR_IPI_CALL
  else if ipi_type =? IPI_STOP then Some VECTOR_IPI_STOP
  else None.

(** [smp_send_ipi]: [None] is the NULL dereference of [smp_info.cpus[cpu_id]]. *)
Definition smp_send_ipi (cpu_id ipi_type : Z) (st : smp_state) : option smp_state :=
  if cpu_id >=? cpu_count st then Some st
  else
    match ipi_vector ipi_type with
    | None => Some st
    | Some vector =>
        match at_ (cpus st) cpu_id with
        | Some (Some ci) => Some (lapic_send_ipi (apic_id ci) vector st)
        | _ => None
        end
    end.

(** [cpu_set(cpu, mask)] and [cpu_clear(cpu, mask)]: a write outside the
    array of mask words is a fault. *)
Definition cpu_set (cpu : Z) (mask : list Z) : option (list Z) :=
  w ← at_ mask (cpu / 32);
  Some (upd mask (cpu / 32) (Z.lor w (bit32 (cpu mod 32)))).

Definition cpu_clear (cpu : Z) (mask : list Z) : option (list Z) :=
  w ← at_ mask (cpu / 32);
  Some (upd mask (cpu / 32) (clear_bits w (bit32 (cpu mod 32)))).

(** [for (i = 0; i < smp_info.cpu_count; i++) if (cpu_isset(i,
    smp_info.online_mask)) smp_send_ipi(i, ipi_type);] from index [i] on,
    with [fuel] indices left. *)
Fixpoint smp_send_ipi_all_from (i : Z) (fuel : nat) (ipi_type : Z) (st : smp_state)
  : option smp_state :=
  match fuel with
  | O => Some st
  | S fuel' =>
      st ← (if cpu_isset i (online_mask st) then smp_send_ipi i ipi_type st
            else Some st);
      smp_send_ipi_all_from (i + 1) fuel' ipi_type st
  end.

Definition smp_send_ipi_all (ipi_type : Z) (st : smp_state) : option smp_state :=
  smp_send_ipi_all_from 0 (Z.to_nat (cpu_count st)) ipi_type st.

(** The same loop with [i != self] in front of the test; [self] is the
    value of [smp_processor_id()]. *)
Fixpoint smp_send_ipi_others_from (self i : Z) (fuel : nat) (ipi_type : Z)
    (st : smp_state) : option smp_state :=
  match fuel with
  | O => Some st
  | S fuel' =>
      st ← (if negb (i =? self) && cpu_isset i (online_mask st)
            then smp_send_ipi i ipi_type st
            else Some st);
      smp_send_ipi_others_from self (i + 1) fuel' ipi_type st
  end.

Definition smp_send_ipi_others (self ipi_type : Z) (st : smp_state) : option smp_state :=
  smp_send_ipi_others_from self 0 (Z.to_nat (cpu_count st)) ipi_type st.

(** [smp_flush_tlb_all] after the reload of CR3 on the calling CPU. *)
Definition smp_flush_tlb_all (self : Z) (st : smp_state) : option smp_state :=
  smp_send_ipi_others self IPI_TLB_FLUSH st.

End Smp.

(** ** Priority classes (include/os3/scheduler.h) *)

Module Prio.

Definition SCHED_CLASS_IDLE : Z := 0.
Definition SCHED_CLASS_REGULAR : Z := 1.
Definition SCHED_CLASS_TIMECRIT : Z := 2.
Definition SCHED_CLASS_SERVER : Z := 3.
Definition SCHED_CLASS_REALTIME : Z := 4.
Definition NUM_SCHED_CLASSES : Z := 5.
Definition PRIO_LEVELS_PER_CLASS : Z := 32.
Definition MAX_PRIORITY : Z := NUM_SCHED_CLASSES * PRIO_LEVELS_PER_CLASS - 1.
Definition MIN_PRIORITY : Z := 0.

(** [os2_to_internal_priority(uint8_t prtyclass, uint8_t prtylevel)]: both
    parameters are bytes; the sum and the division are done in [int]. *)
Definition os2_to_internal_priority (prtyclass prtylevel : Z) : Z :=
  let sched_class :=
    if prtyclass =? 1 then SCHED_CLASS_IDLE
    else if prtyclass =? 2 then SCHED_CLASS_REGULAR
    else if prtyclass =? 3 then SCHED_CLASS_TIMECRIT
    else if prtyclass =? 4 then SCHED_CLASS_SERVER
    else SCHED_CLASS_REGULAR in
  let level := u8 (Z.quot (prtylevel + 31) 2) in
  let level := if level >? 31 then 31 else level in
  u8 (sched_class * PRIO_LEVELS_PER_CLASS + level).

(** A call site hands the class and the signed delta over as [uint8_t]
    arguments: the implicit conversion reduces them modulo 256. *)
Definition os2_to_internal_priority_call (prtyclass delta : Z) : Z :=
  os2_to_internal_priority (u8 prtyclass) (u8 delta).

(** The priority arithmetic of [apply_priority_change]: the new base
    priority and the new dynamic priority of a thread of class
    [sched_class] and base priority [base_priority]. *)
Definition apply_priority_change_prio (sched_class base_priority delta : Z) : Z * Z :=
  let new_prio := base_priority + delta in
  let new_prio := if new_prio <? 0 then 0 else new_prio in
  let new_prio := if new_prio >? 31 then 31 else new_prio in
  (u8 new_prio, os2_to_internal_priority_call (sched_class + 1) (new_prio - 16)).

(** The mapping as the specification words it: class [c] in 1..4 goes to
    internal class [c - 1], the level is [(delta + 31) / 2] clamped into
    [0, 31]. *)
Definition spec_level (delta : Z) : Z := Z.max 0 (Z.min 31 ((delta + 31) / 2)).
Definition spec_internal_priority (c delta : Z) : Z := (c - 1) * 32 + spec_level delta.

End Prio.

(** ** NUMA topology and page allocator (kernel/mm/numa.c) *)

Module Numa.

Definition MAX_NUMA_NODES : Z := 64.

(** The fields of [struct page] that numa.c reads and writes. A page is
    named by its page-frame number; [page_to_pfn], [pfn_to_page],
    [page_to_virt] and [virt_to_page] are the identity on these handles. *)
Record page := {
  flags : Z;
  order : Z;
  numa_node : Z;
}.

(** [numa_mem_info_t]: [free_list] holds, per order, the page-frame numbers
    linked on that list, first entry first. *)
Record numa_mem_info := {
  start_pfn : Z;
  end_pfn : Z;
  free_pages : Z;
  total_pages : Z;
  free_list : list (list Z);
  free_count : list Z;
}.

Record numa_topology := {
  num_nodes : Z;
  nodes : list numa_mem_info;
  distance : list (list Z);
  fallback : list (list Z);
}.

Definition set_fallback (fb : list (list Z)) (t : numa_topology) : numa_topology :=
  {| num_nodes := num_nodes t; nodes := nodes t; distance := distance t;
     fallback := fb |}.

Definition set_nodes (ns : list numa_mem_info) (t : numa_topology) : numa_topology :=
  {| num_nodes := num_nodes t; nodes := ns; distance := distance t;
     fallback := fallback t |}.

(** *** Fallback order *)

(** [numa_topo.distance[i][n]]; a read outside the matrix yields 0. *)
Definition dist (t : numa_topology) (i : nat) (n : Z) : Z :=
  match distance t !! i with
  | Some row => default 0 (at_ row n)
  | None => 0
  end.

(** [for (j = 0; j < num_nodes; j++) fallback[i][j] = j;] *)
Definition init_row (n : nat) (row : list Z) : list Z :=
  fold_left (fun r j => <[j := u8 (Z.of_nat j)]> r) (seq 0 n) row.

(** The body of the innermost loop: compare the entries at [k] and [k+1]
    and exchange them when the first is strictly farther. *)
Definition swap_step (d : Z -> Z) (row : list Z) (k : nat) : list Z :=
  match row !! k, row !! S k with
  | Some n1, Some n2 =>
      if d n1 >? d n2 then <[S k := n1]> (<[k := n2]> row) else row
  | _, _ => row
  end.

(** [for (k = 0; k < m; k++) ...] *)
Definition bubble_pass (d : Z -> Z) (row : list Z) (m : nat) : list Z :=
  fold_left (swap_step d) (seq 0 m) row.

(** [for (j = 0; j < num_nodes - 1; j++) for (k = 0; k < num_nodes - j - 1; k++)] *)
Definition sort_row (d : Z -> Z) (n : nat) (row : list Z) : list Z :=
  fold_left (fun r j => bubble_pass d r (n - j - 1)) (seq 0 (n - 1)) row.

Definition build_row (t : numa_topology) (i : nat) (row : list Z) : list Z :=
  let n := Z.to_nat (num_nodes t) in
  sort_row (dist t i) n (init_row n row).

Definition numa_build_fallback_order (t : numa_topology) : numa_topology :=
  let n := Z.to_nat (num_nodes t) in
  set_fallback
    (fold_left
       (fun fb i =>
          match fb !! i with
          | Some row => <[i := build_row t i row]> fb
          | None => fb
          end)
       (seq 0 n) (fallback t))
    t.

(** The first [n] entries of row [i] of the fallback matrix. *)
Definition fallback_row (t : numa_topology) (i : nat) : option (list Z) :=
  take (Z.to_nat (num_nodes t)) <$> fallback t !! i.

(** Order of preference from a node with distance function [d]: nearer
    first, equal distances by ascending node index. *)
Definition nearer (d : Z -> Z) (a b : Z) : Prop :=
  d a < d b \/ (d a = d b /\ a < b).

(** *** Buddy allocator *)

Record mm_state := {
  topo : numa_topology;
  numa_enabled : bool;
  mem_map : gmap Z page;
}.

Definition set_topo (t : numa_topology) (st : mm_state) : mm_state :=
  {| topo := t; numa_enabled := numa_enabled st; mem_map := mem_map st |}.

Definition set_page (pfn : Z) (p : page) (st : mm_state) : mm_state :=
  {| topo := topo st; numa_enabled := numa_enabled st;
     mem_map := <[pfn := p]> (mem_map st) |}.

Definition set_node (node : Z) (nmi : numa_mem_info) (st : mm_state) : mm_state :=
  set_topo (set_nodes (upd (nodes (topo st)) node nmi) (topo st)) st.

Definition get_node (node : Z) (st : mm_state) : option numa_mem_info :=
  at_ (nodes (topo st)) node.

Definition set_free_list (fl : list (list Z)) (nmi : numa_mem_info) : numa_mem_info :=
  {| start_pfn := start_pfn nmi; end_pfn := end_pfn nmi;
     free_pages := free_pages nmi; total_pages := total_pages nmi;
     free_list := fl; free_count := free_count nmi |}.

Definition set_free_count (fc : list Z) (nmi : numa_mem_info) : numa_mem_info :=
  {| start_pfn := start_pfn nmi; end_pfn := end_pfn nmi;
     free_pages := free_pages nmi; total_pages := total_pages nmi;
     free_list := free_list nmi; free_count := fc |}.

Definition set_free_pages (fp : Z) (nmi : numa_mem_info) : numa_mem_info :=
  {| start_pfn := start_pfn nmi; end_pfn := end_pfn nmi;
     free_pages := fp; total_pages := total_pages nmi;
     free_list := free_list nmi; free_count := free_count nmi |}.

(** [list_del(&page->list)]: the page leaves whichever list links it. *)
Definition unlink (pfn : Z) (nmi : numa_mem_info) : numa_mem_info :=
  set_free_list (map (filter (fun q => q <> pfn)) (free_list nmi)) nmi.

Definition list_del (pfn : Z) (st : mm_state) : mm_state :=
  set_topo (set_nodes (map (unlink pfn) (nodes (topo st))) (topo st)) st.

(** [list_add(&page->list, &nmi->free_list[k])]: insertion at the front. *)
Definition list_add (pfn k : Z) (nmi : numa_mem_info) : option numa_mem_info :=
  l ← at_ (free_list nmi) k;
  Some (set_free_list (upd (free_list nmi) k (pfn :: l)) nmi).

(** [nmi->free_count[k] += delta] on the 32-bit counter. *)
Definition add_free_count (k delta : Z) (nmi : numa_mem_info) : option numa_mem_info :=
  c ← at_ (free_count nmi) k;
  Some (set_free_count (upd (free_count nmi) k (u32 (c + delta))) nmi).

(** [nmi->free_pages += delta] on the 64-bit counter. *)
Definition add_free_pages (delta : Z) (nmi : numa_mem_info) : numa_mem_info :=
  set_free_pages (u64 (free_pages nmi + delta)) nmi.

(** The pages accounted for by the per-order counters
    [counts = free_count[k], free_count[k+1], ...]. *)
Fixpoint pages_in (k : Z) (counts : list Z) : Z :=
  match counts with
  | [] => 0
  | c :: rest => c * 2 ^ k + pages_in (k + 1) rest
  end.

(** The accounting invariant of a node. *)
Definition accounted (nmi : numa_mem_info) : Prop :=
  free_pages nmi = pages_in 0 (free_count nmi).

Definition accountedb (nmi : numa_mem_info) : bool :=
  free_pages nmi =? pages_in 0 (free_count nmi).

(** *** Allocation and release

    [MAX_ORDER] and [PAGE_FLAG_BUDDY] come from os3/memory.h and
    [alloc_pages] from the regular page allocator; they are parameters of
    the model. The result of an operation is [None] when it faults; an
    allocation otherwise yields the new state and the returned pointer
    ([None] for NULL). *)

Section Allocator.

Variable MAX_ORDER : Z.
Variable PAGE_FLAG_BUDDY : Z.
Variable alloc_pages : Z -> option Z.

(** The first alternative of both allocation routines: take the first
    entry of [free_list[order]] when [free_count[order] > 0]. The inner
    [None] says that the counter is zero. *)
Definition take_first (node order : Z) (st : mm_state)
  : option (option (mm_state * Z)) :=
  nmi ← get_node node st;
  c ← at_ (free_count nmi) order;
  if c >? 0 then
    l ← at_ (free_list nmi) order;
    pg ← head l;
    let st := list_del pg st in
    nmi ← get_node node st;
    nmi ← add_free_count order (-1) nmi;
    let nmi := add_free_pages (- Z.shiftl 1 order) nmi in
    Some (Some (set_node node nmi st, pg))
  else Some None.

Definition numa_alloc_pages_strict (node order : Z) (st : mm_state)
  : option (mm_state * option Z) :=
  if node >=? num_nodes (topo st) then Some (st, None)
  else
    r ← take_first node order st;
    match r with
    | Some (st', pg) => Some (st', Some pg)
    | None => Some (st, None)
    end.

(** [while (i > order) { i--; buddy = page + (1 << i); list_add(...);
    free_count[i]++; }] with [steps = i - order] rounds to go. *)
Fixpoint split_block (pg order : Z) (steps : nat) (nmi : numa_mem_info)
  : option numa_mem_info :=
  match steps with
  | O => Some nmi
  | S s =>
      let i := order + Z.of_nat s in
      let buddy := pg + Z.shiftl 1 i in
      nmi ← list_add buddy i nmi;
      nmi ← add_free_count i 1 nmi;
      split_block pg order s nmi
  end.

(** [for (i = order + 1; i < MAX_ORDER; i++)]: the first higher order with
    a free block is split. [fuel] counts the orders left to look at. *)
Fixpoint split_higher (node order i : Z) (fuel : nat) (st : mm_state)
  : option (option (mm_state * Z)) :=
  match fuel with
  | O => Some None
  | S fuel' =>
      nmi ← get_node node st;
      c ← at_ (free_count nmi) i;
      if c >? 0 then
        l ← at_ (free_list nmi) i;
        pg ← head l;
        let st := list_del pg st in
        nmi ← get_node node st;
        nmi ← add_free_count i (-1) nmi;
        nmi ← split_block pg order (Z.to_nat (i - order)) nmi;
        let nmi := add_free_pages (- Z.shiftl 1 order) nmi in
        Some (Some (set_node node nmi st, pg))
      else split_higher node order (i + 1) fuel' st
  end.

(** [for (i = 1; i < num_nodes; i++)] over [fallback[node][i]]. *)
Fixpoint try_fallback (node order : Z) (i : Z) (fuel : nat) (st : mm_state)
  : option (mm_state * option Z) :=
  match fuel with
  | O => Some (st, None)
  | S fuel' =>
      row ← at_ (fallback (topo st)) node;
      fallback_node ← at_ row i;
      r ← numa_alloc_pages_strict fallback_node order st;
      match r with
      | (st', Some ptr) => Some (st', Some ptr)
      | (st', None) => try_fallback node order (i + 1) fuel' st'
      end
  end.

Definition numa_alloc_pages (node order : Z) (st : mm_state)
  : option (mm_state * option Z) :=
  if negb (numa_enabled st) then Some (st, alloc_pages order)
  else
    r ← take_first node order st;
    match r with
    | Some (st', pg) => Some (st', Some pg)
    | None =>
        r ← split_higher node order (order + 1)
              (Z.to_nat (MAX_ORDER - (order + 1))) st;
        match r with
        | Some (st', pg) => Some (st', Some pg)
        | None =>
            try_fallback node order 1 (Z.to_nat (num_nodes (topo st) - 1)) st
        end
    end.

(** The merge loop of [numa_free_pages]: [pg] is the block being released
    (by page-frame number), [ord] its current order. Every round raises
    [ord], so [MAX_ORDER - 1 - ord] rounds of [fuel] can never run out
    before the loop condition fails. *)
Fixpoint merge_buddies (node : Z) (pg ord : Z) (fuel : nat) (st : mm_state)
  : option (mm_state * Z * Z) :=
  match fuel with
  | O => Some (st, pg, ord)
  | S fuel' =>
      if ord <? MAX_ORDER - 1 then
        let pfn := pg in
        let buddy_pfn := Z.lxor pfn (Z.shiftl 1 ord) in
        buddy ← mem_map st !! buddy_pfn;
        if tst (flags buddy) PAGE_FLAG_BUDDY && (order buddy =? ord) then
          let st := list_del buddy_pfn st in
          nmi ← get_node node st;
          nmi ← add_free_count ord (-1) nmi;
          let st := set_node node nmi st in
          let st := set_page buddy_pfn
                      {| flags := clear_bits (flags buddy) PAGE_FLAG_BUDDY;
                         order := order buddy;
                         numa_node := numa_node buddy |} st in
          let pg := if buddy_pfn <? pfn then buddy_pfn else pg in
          merge_buddies node pg (ord + 1) fuel' st
        else Some (st, pg, ord)
      else Some (st, pg, ord)
  end.

Definition numa_free_pages (ptr ord : Z) (st : mm_state) : option mm_state :=
  p ← mem_map st !! ptr;
  let node := numa_node p in
  _ ← get_node node st;
  '(st, pg, ord) ← merge_buddies node ptr ord (Z.to_nat (MAX_ORDER - 1 - ord)) st;
  p ← mem_map st !! pg;
  let st := set_page pg {| flags := Z.lor (flags p) PAGE_FLAG_BUDDY;
                           order := ord;
                           numa_node := numa_node p |} st in
  nmi ← get_node node st;
  nmi ← list_add pg ord nmi;
  nmi ← add_free_count ord 1 nmi;
  let nmi := add_free_pages (Z.shiftl 1 ord) nmi in
  Some (set_node node nmi st).

End Allocator.

(** *** Initialisation and queries

    [PAGE_SIZE] comes from os3/memory.h and the ACPI results from the ACPI
    parser; they are parameters of the model: [acpi_parse_numa] is the value
    [acpi_parse_numa()] returns, [acpi_numa_nodes] and [acpi_slit] are
    [acpi_info.numa_nodes] and whether [acpi_info.slit] is non-NULL after
    it, [acpi_cpu_node i] is [acpi_get_numa_node(acpi_info.cpus[i].apic_id)]
    and [cpu_possible] is [smp_info.cpu_possible]. *)

Definition MAX_CPUS : Z := 256.

Definition set_num_nodes (n : Z) (t : numa_topology) : numa_topology :=
  {| num_nodes := n; nodes := nodes t; distance := distance t;
     fallback := fallback t |}.

Definition set_distance (d : list (list Z)) (t : numa_topology) : numa_topology :=
  {| num_nodes := num_nodes t; nodes := nodes t; distance := d;
     fallback := fallback t |}.

(** [numa_topo.cpu_to_node] stands beside the state of the allocator. *)
Record numa_globals := {
  mm : mm_state;
  cpu_to_node_map : list Z;
}.

Section Setup.

Variable MAX_ORDER : Z.
Variable PAGE_SIZE : Z.
Variable alloc_pages : Z -> option Z.
Variable acpi_parse_numa : Z.
Variable acpi_numa_nodes : Z.
Variable acpi_slit : bool.
Variable acpi_get_numa_distance : Z -> Z -> Z.
Variable acpi_cpu_node : Z -> Z.
Variable cpu_possible : Z.

(** A node with its counters at zero and its lists empty, as
    [memset(&numa_topo, 0, ...)] and [INIT_LIST_HEAD] leave it. [memset]
    alone leaves zeroed list heads, which the code does not read while the
    counter of the order is 0; linking a page into the list of a node that
    [numa_init] did not initialise is not covered by this model. *)
Definition empty_node : numa_mem_info :=
  {| start_pfn := 0; end_pfn := 0; free_pages := 0; total_pages := 0;
     free_list := replicate (Z.to_nat MAX_ORDER) [];
     free_count := replicate (Z.to_nat MAX_ORDER) 0 |}.

Definition zero_topology : numa_topology :=
  {| num_nodes := 0;
     nodes := replicate (Z.to_nat MAX_NUMA_NODES) empty_node;
     distance := replicate (Z.to_nat MAX_NUMA_NODES)
                   (replicate (Z.to_nat MAX_NUMA_NODES) 0);
     fallback := replicate (Z.to_nat MAX_NUMA_NODES)
                   (replicate (Z.to_nat MAX_NUMA_NODES) 0) |}.

(** [for (j = 0; j < n; j++) row[j] = f(j);] on a row of bytes. *)
Definition fill_row (n : nat) (f : Z -> Z) (row : list Z) : list Z :=
  fold_left (fun r j => <[j := u8 (f (Z.of_nat j))]> r) (seq 0 n) row.

(** [for (i = 0; i < n; i++) for (j = 0; j < n; j++) m[i][j] = f(i, j);] *)
Definition fill_matrix (n : nat) (f : Z -> Z -> Z) (m : list (list Z)) : list (list Z) :=
  fold_left
    (fun m i =>
       match m !! i with
       | Some row => <[i := fill_row n (f (Z.of_nat i)) row]> m
       | None => m
       end)
    (seq 0 n) m.

(** [for (i = 0; i < num_nodes; i++) { spin_lock_init(...); for (j = 0; j <
    MAX_ORDER; j++) { INIT_LIST_HEAD(...); free_count[j] = 0; } }] *)
Definition init_nodes (n : nat) (ns : list numa_mem_info) : list numa_mem_info :=
  fold_left
    (fun ns i =>
       match ns !! i with
       | Some nmi =>
           <[i := set_free_count (replicate (Z.to_nat MAX_ORDER) 0)
                    (set_free_list (replicate (Z.to_nat MAX_ORDER) []) nmi)]> ns
       | None => ns
       end)
    (seq 0 n) ns.

(** [numa_init()]; [pages] is the page array, which it leaves alone. The
    loops index the arrays with the counts ACPI gives: a count above the
    array bound makes them write past the arrays, a fault. *)
Definition numa_init (pages : gmap Z page) : option numa_globals :=
  let cpu_map := replicate (Z.to_nat MAX_CPUS) 0 in
  let uma t :=
    Some {| mm := {| topo := t; numa_enabled := false; mem_map := pages |};
            cpu_to_node_map := cpu_map |} in
  if acpi_parse_numa <? 0 then uma (set_num_nodes 1 zero_topology)
  else
    let t := set_num_nodes acpi_numa_nodes zero_topology in
    if num_nodes t <=? 1 then uma t
    else if (num_nodes t >? MAX_NUMA_NODES) || (cpu_possible >? MAX_CPUS) then None
    else
      let n := Z.to_nat (num_nodes t) in
      let t := set_nodes (init_nodes n (nodes t)) t in
      let cpu_map := fill_row (Z.to_nat cpu_possible) acpi_cpu_node cpu_map in
      let d :=
        if acpi_slit then fill_matrix n acpi_get_numa_distance (distance t)
        else fill_matrix n (fun i j => if i =? j then 10 else 20) (distance t) in
      let t := numa_build_fallback_order (set_distance d t) in
      Some {| mm := {| topo := t; numa_enabled := true; mem_map := pages |};
              cpu_to_node_map := cpu_map |}.

(** [kmalloc_node]: [while (alloc_size < size) { alloc_size <<= 1; order++;
    }] on a 64-bit [size_t] and a 32-bit [order], with [fuel] rounds. *)
Fixpoint kmalloc_order (fuel : nat) (size alloc_size order : Z) : option Z :=
  match fuel with
  | O => None
  | S fuel' =>
      if alloc_size <? size
      then kmalloc_order fuel' size (u64 (Z.shiftl alloc_size 1)) (u32 (order + 1))
      else Some order
  end.

Definition kmalloc_node (fuel : nat) (size node : Z) (st : mm_state)
  : option (mm_state * option Z) :=
  order ← kmalloc_order fuel size PAGE_SIZE 0;
  numa_alloc_pages MAX_ORDER alloc_pages node order st.

Definition numa_node_id (this_cpu : Z) (g : numa_globals) : option Z :=
  if negb (numa_enabled (mm g)) then Some 0
  else at_ (cpu_to_node_map g) this_cpu.

Definition cpu_to_node (cpu : Z) (g : numa_globals) : option Z :=
  if negb (numa_enabled (mm g)) || (cpu >=? MAX_CPUS) then Some 0
  else at_ (cpu_to_node_map g) cpu.

Definition numa_distance (node1 node2 : Z) (st : mm_state) : option Z :=
  if negb (numa_enabled st) then Some 10
  else if (node1 >=? num_nodes (topo st)) || (node2 >=? num_nodes (topo st))
  then Some 255
  else row ← at_ (distance (topo st)) node1; at_ row node2.

Definition numa_num_nodes (st : mm_state) : Z :=
  if numa_enabled st then num_nodes (topo st) else 1.

Definition numa_is_enabled (st : mm_state) : Z :=
  if numa_enabled st then 1 else 0.

End Setup.

End Numa.

(** ** Scheduler (kernel/sched/scheduler.c, include/os3/scheduler.h) *)

Module Sched.

Import Prio.

Definition THREAD_STATE_READY : Z := 0.
Definition THREAD_STATE_RUNNING : Z := 1.
Definition THREAD_STATE_BLOCKED : Z := 2.
Definition THREAD_STATE_ZOMBIE : Z := 3.
Definition THREAD_STATE_SUSPENDED : Z := 4.

Definition THREAD_FLAG_KERNEL : Z := Z.shiftl 1 0.
Definition THREAD_FLAG_IDLE : Z := Z.shiftl 1 1.
Definition THREAD_FLAG_NEED_RESCHED : Z := Z.shiftl 1 2.
Definition THREAD_FLAG_MIGRATING : Z := Z.shiftl 1 3.
Definition THREAD_FLAG_BOUND : Z := Z.shiftl 1 4.

(** [thread_t], the fields the scheduler paths below read or write. A
    thread is named by an integer handle (its address); [run_list] linkage
    is the membership of the handle in a queue. *)
Record thread := {
  sched_class : Z;
  base_priority : Z;
  dynamic_priority : Z;
  state : Z;
  flags : Z;
  timeslice : Z;
  timeslice_max : Z;
  total_runtime : Z;
  last_run : Z;
  cpu_affinity : Z;
  last_cpu : Z;
  preferred_cpu : Z;
  context_switches : Z;
  voluntary_switches : Z;
  involuntary_switches : Z;
}.

Definition set_state (v : Z) (t : thread) : thread :=
  {| sched_class := sched_class t; base_priority := base_priority t;
     dynamic_priority := dynamic_priority t; state := v; flags := flags t;
     timeslice := timeslice t; timeslice_max := timeslice_max t;
     total_runtime := total_runtime t; last_run := last_run t;
     cpu_affinity := cpu_affinity t; last_cpu := last_cpu t;
     preferred_cpu := preferred_cpu t;
     context_switches := context_switches t;
     voluntary_switches := voluntary_switches t;
     involuntary_switches := involuntary_switches t |}.

Definition set_flags (v : Z) (t : thread) : thread :=
  {| sched_class := sched_class t; base_priority := base_priority t;
     dynamic_priority := dynamic_priority t; state := state t; flags := v;
     timeslice := timeslice t; timeslice_max := timeslice_max t;
     total_runtime := total_runtime t; last_run := last_run t;
     cpu_affinity := cpu_affinity t; last_cpu := last_cpu t;
     preferred_cpu := preferred_cpu t;
     context_switches := context_switches t;
     voluntary_switches := voluntary_switches t;
     involuntary_switches := involuntary_switches t |}.

Definition set_timeslice (v : Z) (t : thread) : thread :=
  {| sched_class := sched_class t; base_priority := base_priority t;
     dynamic_priority := dynamic_priority t; state := state t;
     flags := flags t; timeslice := v; timeslice_max := timeslice_max t;
     total_runtime := total_runtime t; last_run := last_run t;
     cpu_affinity := cpu_affinity t; last_cpu := last_cpu t;
     preferred_cpu := preferred_cpu t;
     context_switches := context_switches t;
     voluntary_switches := voluntary_switches t;
     involuntary_switches := involuntary_switches t |}.

Definition set_total_runtime (v : Z) (t : thread) : thread :=
  {| sched_class := sched_class t; base_priority := base_priority t;
     dynamic_priority := dynamic_priority t; state := state t;
     flags := flags t; timeslice := timeslice t;
     timeslice_max := timeslice_max t; total_runtime := v;
     last_run := last_run t; cpu_affinity := cpu_affinity t;
     last_cpu := last_cpu t; preferred_cpu := preferred_cpu t;
     context_switches := context_switches t;
     voluntary_switches := voluntary_switches t;
     involuntary_switches := involuntary_switches t |}.

Definition set_last_run (v : Z) (t : thread) : thread :=
  {| sched_class := sched_class t; base_priority := base_priority t;
     dynamic_priority := dynamic_priority t; state := state t;
     flags := flags t; timeslice := timeslice t;
     timeslice_max := timeslice_max t; total_runtime := total_runtime t;
     last_run := v; cpu_affinity := cpu_affinity t; last_cpu := last_cpu t;
     preferred_cpu := preferred_cpu t;
     context_switches := context_switches t;
     voluntary_switches := voluntary_switches t;
     involuntary_switches := involuntary_switches t |}.

Definition set_last_cpu (v : Z) (t : thread) : thread :=
  {| sched_class := sched_class t; base_priority := base_priority t;
     dynamic_priority := dynamic_priority t; state := state t;
     flags := flags t; timeslice := timeslice t;
     timeslice_max := timeslice_max t; total_runtime := total_runtime t;
     last_run := last_run t; cpu_affinity := cpu_affinity t; last_cpu := v;
     preferred_cpu := preferred_cpu t;
     context_switches := context_switches t;
     voluntary_switches := voluntary_switches t;
     involuntary_switches := involuntary_switches t |}.

Definition set_preferred_cpu (v : Z) (t : thread) : thread :=
  {| sched_class := sched_class t; base_priority := base_priority t;
     dynamic_priority := dynamic_priority t; state := state t;
     flags := flags t; timeslice := timeslice t;
     timeslice_max := timeslice_max t; total_runtime := total_runtime t;
     last_run := last_run t; cpu_affinity := cpu_affinity t;
     last_cpu := last_cpu t; preferred_cpu := v;
     context_switches := context_switches t;
     voluntary_switches := voluntary_switches t;
     involuntary_switches := involuntary_switches t |}.

Definition set_context_switches (v : Z) (t : thread) : thread :=
  {| sched_class := sched_class t; base_priority := base_priority t;
     dynamic_priority := dynamic_priority t; state := state t;
     flags := flags t; timeslice := timeslice t;
     timeslice_max := timeslice_max t; total_runtime := total_runtime t;
     last_run := last_run t; cpu_affinity := cpu_affinity t;
     last_cpu := last_cpu t; preferred_cpu := preferred_cpu t;
     context_switches := v; voluntary_switches := voluntary_switches t;
     involuntary_switches := involuntary_switches t |}.

Definition set_voluntary_switches (v : Z) (t : thread) : thread :=
  {| sched_class := sched_class t; base_priority := base_priority t;
     dynamic_priority := dynamic_priority t; state := state t;
     flags := flags t; timeslice := timeslice t;
     timeslice_max := timeslice_max t; total_runtime := total_runtime t;
     last_run := last_run t; cpu_affinity := cpu_affinity t;
     last_cpu := last_cpu t; preferred_cpu := preferred_cpu t;
     context_switches := context_switches t; voluntary_switches := v;
     involuntary_switches := involuntary_switches t |}.

Definition set_involuntary_switches (v : Z) (t : thread) : thread :=
  {| sched_class := sched_class t; base_priority := base_priority t;
     dynamic_priority := dynamic_priority t; state := state t;
     flags := flags t; timeslice := timeslice t;
     timeslice_max := timeslice_max t; total_runtime := total_runtime t;
     last_run := last_run t; cpu_affinity := cpu_affinity t;
     last_cpu := last_cpu t; preferred_cpu := preferred_cpu t;
     context_switches := context_switches t;
     voluntary_switches := voluntary_switches t;
     involuntary_switches := v |}.

(** [prio_queue_t]: the FIFO of thread handles, first entry first, and the
    separately kept counter. *)
Record prio_queue := {
  queue : list Z;
  count : Z;
}.

(** [run_queue_t]; [current] and [idle] are [None] for NULL. *)
Record run_queue := {
  cpu_id : Z;
  queues : list (list prio_queue);
  active_bitmap : list Z;
  class_bitmap : Z;
  nr_running : Z;
  nr_switches : Z;
  current : option Z;
  idle : option Z;
  clock : Z;
}.

Definition set_queues (v : list (list prio_queue)) (rq : run_queue) : run_queue :=
  {| cpu_id := cpu_id rq; queues := v; active_bitmap := active_bitmap rq;
     class_bitmap := class_bitmap rq; nr_running := nr_running rq;
     nr_switches := nr_switches rq; current := current rq; idle := idle rq;
     clock := clock rq |}.

Definition set_active_bitmap (v : list Z) (rq : run_queue) : run_queue :=
  {| cpu_id := cpu_id rq; queues := queues rq; active_bitmap := v;
     class_bitmap := class_bitmap rq; nr_running := nr_running rq;
     nr_switches := nr_switches rq; current := current rq; idle := idle rq;
     clock := clock rq |}.

Definition set_class_bitmap (v : Z) (rq : run_queue) : run_queue :=
  {| cpu_id := cpu_id rq; queues := queues rq;
     active_bitmap := active_bitmap rq; class_bitmap := v;
     nr_running := nr_running rq; nr_switches := nr_switches rq;
     current := current rq; idle := idle rq; clock := clock rq |}.

Definition set_nr_running (v : Z) (rq : run_queue) : run_queue :=
  {| cpu_id := cpu_id rq; queues := queues rq;
     active_bitmap := active_bitmap rq; class_bitmap := class_bitmap rq;
     nr_running := v; nr_switches := nr_switches rq; current := current rq;
     idle := idle rq; clock := clock rq |}.

Definition set_nr_switches (v : Z) (rq : run_queue) : run_queue :=
  {| cpu_id := cpu_id rq; queues := queues rq;
     active_bitmap := active_bitmap rq; class_bitmap := class_bitmap rq;
     nr_running := nr_running rq; nr_switches := v; current := current rq;
     idle := idle rq; clock := clock rq |}.

Definition set_current (v : option Z) (rq : run_queue) : run_queue :=
  {| cpu_id := cpu_id rq; queues := queues rq;
     active_bitmap := active_bitmap rq; class_bitmap := class_bitmap rq;
     nr_running := nr_running rq; nr_switches := nr_switches rq;
     current := v; idle := idle rq; clock := clock rq |}.

Definition set_clock (v : Z) (rq : run_queue) : run_queue :=
  {| cpu_id := cpu_id rq; queues := queues rq;
     active_bitmap := active_bitmap rq; class_bitmap := class_bitmap rq;
     nr_running := nr_running rq; nr_switches := nr_switches rq;
     current := current rq; idle := idle rq; clock := v |}.

(** The scheduler's world: [smp_info], [scheduler.runqueues] ([None] for a
    NULL entry), the thread objects, the executing CPU
    ([smp_processor_id()]), the per-CPU [preempt_counter], the clock read
    by [get_time_ns()], and the critical-section bookkeeping of the current
    process. *)
Record kernel := {
  smp : Smp.smp_state;
  runqueues : list (option run_queue);
  threads : gmap Z thread;
  this_cpu : Z;
  preempt_counter : list Z;
  time_ns : Z;
  critsec_count : Z;
  critsec_lock : Spinlock.spinlock;
}.

Definition set_smp (v : Smp.smp_state) (k : kernel) : kernel :=
  {| smp := v; runqueues := runqueues k; threads := threads k;
     this_cpu := this_cpu k; preempt_counter := preempt_counter k;
     time_ns := time_ns k; critsec_count := critsec_count k;
     critsec_lock := critsec_lock k |}.

Definition set_runqueues (v : list (option run_queue)) (k : kernel) : kernel :=
  {| smp := smp k; runqueues := v; threads := threads k;
     this_cpu := this_cpu k; preempt_counter := preempt_counter k;
     time_ns := time_ns k; critsec_count := critsec_count k;
     critsec_lock := critsec_lock k |}.

Definition set_threads (v : gmap Z thread) (k : kernel) : kernel :=
  {| smp := smp k; runqueues := runqueues k; threads := v;
     this_cpu := this_cpu k; preempt_counter := preempt_counter k;
     time_ns := time_ns k; critsec_count := critsec_count k;
     critsec_lock := critsec_lock k |}.

Definition set_preempt_counter (v : list Z) (k : kernel) : kernel :=
  {| smp := smp k; runqueues := runqueues k; threads := threads k;
     this_cpu := this_cpu k; preempt_counter := v; time_ns := time_ns k;
     critsec_count := critsec_count k; critsec_lock := critsec_lock k |}.

Definition set_critsec_count (v : Z) (k : kernel) : kernel :=
  {| smp := smp k; runqueues := runqueues k; threads := threads k;
     this_cpu := this_cpu k; preempt_counter := preempt_counter k;
     time_ns := time_ns k; critsec_count := v;
     critsec_lock := critsec_lock k |}.

Definition set_critsec_lock (v : Spinlock.spinlock) (k : kernel) : kernel :=
  {| smp := smp k; runqueues := runqueues k; threads := threads k;
     this_cpu := this_cpu k; preempt_counter := preempt_counter k;
     time_ns := time_ns k; critsec_count := critsec_count k;
     critsec_lock := v |}.

(** [init_run_queue]: every queue empty, every counter and bitmap zero, no
    current and no idle thread yet. *)
Definition init_run_queue (cpu : Z) : run_queue :=
  {| cpu_id := cpu;
     queues := replicate (Z.to_nat NUM_SCHED_CLASSES)
                 (replicate (Z.to_nat PRIO_LEVELS_PER_CLASS)
                    {| queue := []; count := 0 |});
     active_bitmap := replicate (Z.to_nat NUM_SCHED_CLASSES) 0;
     class_bitmap := 0;
     nr_running := 0;
     nr_switches := 0;
     current := None;
     idle := None;
     clock := 0 |}.

Definition set_idle (v : option Z) (rq : run_queue) : run_queue :=
  {| cpu_id := cpu_id rq; queues := queues rq;
     active_bitmap := active_bitmap rq; class_bitmap := class_bitmap rq;
     nr_running := nr_running rq; nr_switches := nr_switches rq;
     current := current rq; idle := v; clock := clock rq |}.

(** *** Bitmap lookup *)

(** [__builtin_ffs(word) - 1] for a non-zero word: the index of the least
    significant set bit, searched upwards from [i]. *)
Fixpoint lowest_bit_from (word i : Z) (fuel : nat) : Z :=
  match fuel with
  | O => -1
  | S fuel' => if Z.testbit word i then i else lowest_bit_from word (i + 1) fuel'
  end.

Definition find_first_bit (word : Z) : Z :=
  if word =? 0 then -1 else lowest_bit_from word 0 32.

(** *** Run-queue access *)

Definition empty_queue : prio_queue := {| queue := []; count := 0 |}.

(** [&rq->queues[c][p]] for reading, with indices inside the array. *)
Definition get_queue (rq : run_queue) (c p : Z) : prio_queue :=
  match at_ (queues rq) c with
  | Some row => default empty_queue (at_ row p)
  | None => empty_queue
  end.

Definition get_bitmap (rq : run_queue) (c : Z) : Z :=
  default 0 (at_ (active_bitmap rq) c).

(** Writing [rq->queues[c][p]]: outside the array this is a fault. *)
Definition put_queue (c p : Z) (pq : prio_queue) (rq : run_queue) : option run_queue :=
  row ← at_ (queues rq) c;
  _ ← at_ row p;
  Some (set_queues (upd (queues rq) c (upd row p pq)) rq).

Definition put_bitmap (c : Z) (bm : Z) (rq : run_queue) : option run_queue :=
  _ ← at_ (active_bitmap rq) c;
  Some (set_active_bitmap (upd (active_bitmap rq) c bm) rq).

(** *** pick_next_thread *)

(** [for (; p < PRIO_LEVELS_PER_CLASS; p++)]: as written, the bit tested is
    [1 << (31 - p)] and the queue read is [queues[c][31 - p]]. *)
Fixpoint scan_levels (rq : run_queue) (c p : Z) (fuel : nat) : option Z :=
  match fuel with
  | O => None
  | S fuel' =>
      if negb (tst (get_bitmap rq c) (bit32 (31 - p)))
      then scan_levels rq c (p + 1) fuel'
      else
        match queue (get_queue rq c (31 - p)) with
        | next :: _ => Some next
        | [] => scan_levels rq c (p + 1) fuel'
        end
  end.

(** [for (c = NUM_SCHED_CLASSES - 1; c >= 0; c--)] with [n = c + 1]. *)
Fixpoint scan_classes (rq : run_queue) (n : nat) : option Z :=
  match n with
  | O => None
  | S n' =>
      let c := Z.of_nat n' in
      if negb (tst (class_bitmap rq) (bit32 c)) then scan_classes rq n'
      else
        let p := find_first_bit (get_bitmap rq c) in
        if p <? 0 then scan_classes rq n'
        else
          match scan_levels rq c p (Z.to_nat (PRIO_LEVELS_PER_CLASS - p)) with
          | Some next => Some next
          | None => scan_classes rq n'
          end
  end.

(** The returned pointer: [None] only when the idle pointer is NULL. *)
Definition pick_next_thread (rq : run_queue) : option Z :=
  if nr_running rq =? 0 then idle rq
  else
    match scan_classes rq (Z.to_nat NUM_SCHED_CLASSES) with
    | Some next => Some next
    | None => idle rq
    end.

(** *** Queue updates

    The same few statements recur in [enqueue_thread], [dequeue_thread],
    [schedule] and [trigger_load_balance]. *)

(** [list_add_tail(&thread->run_list, &pq->queue); pq->count++;
    rq->nr_running++; rq->active_bitmap[c] |= (1 << (31 - p));
    rq->class_bitmap |= (1 << c);] *)
Definition rq_add_tail (c p tid : Z) (rq : run_queue) : option run_queue :=
  let pq := get_queue rq c p in
  rq ← put_queue c p {| queue := queue pq ++ [tid]; count := u32 (count pq + 1) |} rq;
  let rq := set_nr_running (u32 (nr_running rq + 1)) rq in
  rq ← put_bitmap c (Z.lor (get_bitmap rq c) (bit32 (31 - p))) rq;
  Some (set_class_bitmap (Z.lor (class_bitmap rq) (bit32 c)) rq).

(** [list_del_init(&thread->run_list)]: the thread leaves whichever queue
    links it, on whichever CPU. *)
Definition unlink_queue (tid : Z) (pq : prio_queue) : prio_queue :=
  {| queue := filter (fun x => x <> tid) (queue pq); count := count pq |}.

Definition unlink_rq (tid : Z) (rq : run_queue) : run_queue :=
  set_queues (map (map (unlink_queue tid)) (queues rq)) rq.

Definition list_del_init (tid : Z) (k : kernel) : kernel :=
  set_runqueues (map (fmap (unlink_rq tid)) (runqueues k)) k.

(** [pq->count--; rq->nr_running--; if (pq->count == 0) {
    rq->active_bitmap[c] &= ~(1 << (31 - p)); if (rq->active_bitmap[c] == 0)
    rq->class_bitmap &= ~(1 << c); }] as in [dequeue_thread] and
    [schedule]. *)
Definition rq_account_del (c p : Z) (rq : run_queue) : option run_queue :=
  let pq := get_queue rq c p in
  let cnt := u32 (count pq - 1) in
  rq ← put_queue c p {| queue := queue pq; count := cnt |} rq;
  let rq := set_nr_running (u32 (nr_running rq - 1)) rq in
  if cnt =? 0 then
    let bm := clear_bits (get_bitmap rq c) (bit32 (31 - p)) in
    rq ← put_bitmap c bm rq;
    if bm =? 0
    then Some (set_class_bitmap (clear_bits (class_bitmap rq) (bit32 c)) rq)
    else Some rq
  else Some rq.

(** The same bookkeeping as written in [trigger_load_balance]:
    [pq->count--; busiest_rq->nr_running--; if (pq->count == 0) {
    busiest_rq->active_bitmap[c] &= ~(1 << (31 - p)); }] *)
Definition rq_account_del_migrate (c p : Z) (rq : run_queue) : option run_queue :=
  let pq := get_queue rq c p in
  let cnt := u32 (count pq - 1) in
  rq ← put_queue c p {| queue := queue pq; count := cnt |} rq;
  let rq := set_nr_running (u32 (nr_running rq - 1)) rq in
  if cnt =? 0 then
    put_bitmap c (clear_bits (get_bitmap rq c) (bit32 (31 - p))) rq
  else Some rq.

(** *** Kernel-state access *)

Definition get_rq (cpu : Z) (k : kernel) : option run_queue :=
  r ← at_ (runqueues k) cpu; r.

Definition put_rq (cpu : Z) (rq : run_queue) (k : kernel) : kernel :=
  set_runqueues (upd (runqueues k) cpu (Some rq)) k.

Definition put_thread (tid : Z) (t : thread) (k : kernel) : kernel :=
  set_threads (<[tid := t]> (threads k)) k.

(** [get_cpu_info()]: [smp_info.cpus[smp_processor_id()]]. *)
Definition get_cpu_info (k : kernel) : option Smp.cpu_info :=
  r ← at_ (Smp.cpus (smp k)) (this_cpu k); r.

(** [current_thread()]: the outer [None] is a fault, the inner one NULL. *)
Definition current_thread (k : kernel) : option (option Z) :=
  ci ← get_cpu_info k; Some (Smp.current_thread ci).

Definition set_cpu_current (tid : option Z) (k : kernel) : option kernel :=
  ci ← get_cpu_info k;
  Some (set_smp (Smp.set_cpus (upd (Smp.cpus (smp k)) (this_cpu k)
                                 (Some (Smp.set_current_thread tid ci)))
                   (smp k)) k).

Definition set_need_resched (k : kernel) : option kernel :=
  cur ← current_thread k;
  tid ← cur;
  t ← threads k !! tid;
  Some (put_thread tid (set_flags (Z.lor (flags t) THREAD_FLAG_NEED_RESCHED) t) k).

Definition need_resched (k : kernel) : option bool :=
  cur ← current_thread k;
  tid ← cur;
  t ← threads k !! tid;
  Some (tst (flags t) THREAD_FLAG_NEED_RESCHED).

Definition preempt_count (k : kernel) : option Z :=
  at_ (preempt_counter k) (this_cpu k).

(** *** enqueue_thread *)

(** [for (cpu = 0; cpu < smp_info.cpu_count; cpu++)
      if (thread->cpu_affinity & (1ULL << cpu)) break;]
    [fuel] is the number of indices left below [cpu_count]. *)
Fixpoint first_allowed_cpu (affinity cpu : Z) (fuel : nat) : Z :=
  match fuel with
  | O => cpu
  | S fuel' =>
      if tst affinity (bit64 cpu) then cpu
      else first_allowed_cpu affinity (cpu + 1) fuel'
  end.

(** The CPU whose run queue [enqueue_thread] takes. *)
Definition select_cpu (t : thread) (cpu_count : Z) : Z :=
  let cpu := preferred_cpu t in
  if negb (tst (cpu_affinity t) (bit64 cpu))
  then first_allowed_cpu (cpu_affinity t) 0 (Z.to_nat cpu_count)
  else cpu.

Definition enqueue_thread (tid : Z) (k : kernel) : option kernel :=
  t ← threads k !! tid;
  let cpu := select_cpu t (Smp.cpu_count (smp k)) in
  rq ← get_rq cpu k;
  let c := sched_class t in
  let p := dynamic_priority t mod PRIO_LEVELS_PER_CLASS in
  rq ← rq_add_tail c p tid rq;
  let k := put_thread tid (set_state THREAD_STATE_READY t) k in
  let k := put_rq cpu rq k in
  match current rq with
  | Some cur =>
      ct ← threads k !! cur;
      if dynamic_priority t >? dynamic_priority ct then
        k ← set_need_resched k;
        if negb (cpu =? this_cpu k) then
          s ← Smp.smp_send_ipi cpu Smp.IPI_RESCHEDULE (smp k);
          Some (set_smp s k)
        else Some k
      else Some k
  | None => Some k
  end.

(** *** dequeue_thread *)

Definition dequeue_thread (tid : Z) (k : kernel) : option kernel :=
  t ← threads k !! tid;
  let cpu := last_cpu t in
  _ ← get_rq cpu k;
  let c := sched_class t in
  let p := dynamic_priority t mod PRIO_LEVELS_PER_CLASS in
  let k := list_del_init tid k in
  rq ← get_rq cpu k;
  rq ← rq_account_del c p rq;
  Some (put_rq cpu rq k).

(** *** schedule *)

(** The outgoing thread: clear [NEED_RESCHED], account the time, and put a
    still-running thread back at the tail of its queue. *)
Definition schedule_prev (now : Z) (rq : run_queue) (k : kernel)
  : option (kernel * run_queue) :=
  match current rq with
  | Some prev =>
      pt ← threads k !! prev;
      let pt := set_flags (clear_bits (flags pt) THREAD_FLAG_NEED_RESCHED) pt in
      let pt := if negb (last_run pt =? 0)
                then set_total_runtime (u64 (total_runtime pt + (now - last_run pt))) pt
                else pt in
      if state pt =? THREAD_STATE_RUNNING then
        let pt := set_state THREAD_STATE_READY pt in
        let c := sched_class pt in
        let p := dynamic_priority pt mod PRIO_LEVELS_PER_CLASS in
        rq ← rq_add_tail c p prev rq;
        Some (put_thread prev pt k, rq)
      else Some (put_thread prev pt k, rq)
  | None => Some (k, rq)
  end.

(** The switch counters after the choice of [next]. *)
Definition schedule_account (prev : option Z) (next : Z) (cpu : Z) (k : kernel)
  : option kernel :=
  if bool_decide (prev = Some next) then Some k
  else
    rq ← get_rq cpu k;
    let k := put_rq cpu (set_nr_switches (u64 (nr_switches rq + 1)) rq) k in
    nt ← threads k !! next;
    let k := put_thread next (set_context_switches (u64 (context_switches nt + 1)) nt) k in
    match prev with
    | Some ptid =>
        pt ← threads k !! ptid;
        if state pt =? THREAD_STATE_RUNNING
        then Some (put_thread ptid
                     (set_involuntary_switches (u64 (involuntary_switches pt + 1)) pt) k)
        else Some (put_thread ptid
                     (set_voluntary_switches (u64 (voluntary_switches pt + 1)) pt) k)
    | None => Some k
    end.

(** [schedule()]; [context_switch(prev, next)] changes no scheduler data. *)
Definition schedule (k : kernel) : option kernel :=
  pc ← preempt_count k;
  held ← (if pc >? 0 then
            cur ← current_thread k;
            tid ← cur;
            t ← threads k !! tid;
            Some (state t =? THREAD_STATE_RUNNING)
          else Some false);
  if held : bool then Some k
  else
    let cpu := this_cpu k in
    rq ← get_rq cpu k;
    let now := time_ns k in
    let rq := set_clock now rq in
    let prev := current rq in
    '(k, rq) ← schedule_prev now rq k;
    let k := put_rq cpu rq k in
    next ← pick_next_thread rq;
    nt ← threads k !! next;
    k ← (if negb (bool_decide (Some next = idle rq))
            && (state nt =? THREAD_STATE_READY) then
           let c := sched_class nt in
           let p := dynamic_priority nt mod PRIO_LEVELS_PER_CLASS in
           let k := list_del_init next k in
           rq ← get_rq cpu k;
           rq ← rq_account_del c p rq;
           Some (put_rq cpu rq k)
         else Some k);
    nt ← threads k !! next;
    let nt := set_state THREAD_STATE_RUNNING nt in
    let nt := set_last_run now nt in
    let nt := set_last_cpu cpu nt in
    let nt := set_timeslice (timeslice_max nt) nt in
    let k := put_thread next nt k in
    rq ← get_rq cpu k;
    let k := put_rq cpu (set_current (Some next) rq) k in
    k ← set_cpu_current (Some next) k;
    schedule_account prev next cpu k.

(** *** Preemption control *)

Definition set_preempt_count (v : Z) (k : kernel) : kernel :=
  set_preempt_counter (upd (preempt_counter k) (this_cpu k) v) k.

Definition preempt_disable (k : kernel) : option kernel :=
  c ← preempt_count k;
  Some (set_preempt_count (c + 1) k).

Definition preempt_enable (k : kernel) : option kernel :=
  c ← preempt_count k;
  let k := set_preempt_count (c - 1) k in
  if c - 1 =? 0 then
    nr ← need_resched k;
    if nr : bool then schedule k else Some k
  else Some k.

(** *** Load balancing *)

(** [for (cpu = 0; cpu < smp_info.cpu_count; cpu++)]: the pair carried is
    [(max_load, busiest_cpu)]. *)
Fixpoint find_busiest (k : kernel) (cpu : Z) (fuel : nat) (max_load busiest_cpu : Z)
  : option (Z * Z) :=
  match fuel with
  | O => Some (max_load, busiest_cpu)
  | S fuel' =>
      if cpu =? this_cpu k then find_busiest k (cpu + 1) fuel' max_load busiest_cpu
      else if negb (Smp.cpu_isset cpu (Smp.online_mask (smp k)))
      then find_busiest k (cpu + 1) fuel' max_load busiest_cpu
      else
        rq ← get_rq cpu k;
        let load := nr_running rq in
        if load >? max_load + 1
        then find_busiest k (cpu + 1) fuel' load cpu
        else find_busiest k (cpu + 1) fuel' max_load busiest_cpu
  end.

(** The three tests a thread must pass to be pulled. *)
Definition migratable (k : kernel) (tid : Z) : option bool :=
  t ← threads k !! tid;
  Some (tst (cpu_affinity t) (bit64 (this_cpu k))
        && negb (tst (flags t) THREAD_FLAG_BOUND)
        && negb (u64 (time_ns k - last_run t) <? 1000000)).

(** [list_for_each_entry(thread, &pq->queue, run_list)] up to the first
    thread that passes. *)
Fixpoint first_migratable (k : kernel) (l : list Z) : option (option Z) :=
  match l with
  | [] => Some None
  | tid :: rest =>
      ok ← migratable k tid;
      if ok : bool then Some (Some tid) else first_migratable k rest
  end.

Fixpoint scan_queues_p (k : kernel) (rq : run_queue) (c p : Z) (fuel : nat)
  : option (option (Z * Z * Z)) :=
  match fuel with
  | O => Some None
  | S fuel' =>
      r ← first_migratable k (queue (get_queue rq c p));
      match r with
      | Some tid => Some (Some (c, p, tid))
      | None => scan_queues_p k rq c (p + 1) fuel'
      end
  end.

Fixpoint scan_queues_c (k : kernel) (rq : run_queue) (c : Z) (fuel : nat)
  : option (option (Z * Z * Z)) :=
  match fuel with
  | O => Some None
  | S fuel' =>
      r ← scan_queues_p k rq c 0 (Z.to_nat PRIO_LEVELS_PER_CLASS);
      match r with
      | Some found => Some (Some found)
      | None => scan_queues_c k rq (c + 1) fuel'
      end
  end.

(** The migration step: the thread found at [queues[c][p]] of the busiest
    run queue is detached there and enqueued on this CPU. *)
Definition migrate_thread_step (busiest_cpu c p tid : Z) (k : kernel) : option kernel :=
  let k := list_del_init tid k in
  rq ← get_rq busiest_cpu k;
  rq ← rq_account_del_migrate c p rq;
  let k := put_rq busiest_cpu rq k in
  t ← threads k !! tid;
  let t := set_preferred_cpu (this_cpu k) t in
  let t := set_flags (Z.lor (flags t) THREAD_FLAG_MIGRATING) t in
  let k := put_thread tid t k in
  k ← enqueue_thread tid k;
  t ← threads k !! tid;
  Some (put_thread tid (set_flags (clear_bits (flags t) THREAD_FLAG_MIGRATING) t) k).

Definition trigger_load_balance (k : kernel) : option kernel :=
  let this := this_cpu k in
  this_rq ← get_rq this k;
  let this_load := nr_running this_rq in
  '(_, busiest_cpu) ← find_busiest k 0 (Z.to_nat (Smp.cpu_count (smp k))) this_load this;
  if busiest_cpu =? this then Some k
  else
    busiest_rq ← get_rq busiest_cpu k;
    r ← scan_queues_c k busiest_rq 0 (Z.to_nat NUM_SCHED_CLASSES);
    match r with
    | Some (c, p, tid) => migrate_thread_step busiest_cpu c p tid k
    | None => Some k
    end.

(** *** Critical sections (os3/api/doscalls_thread.c)

    [NO_ERROR] and [ERROR_CRITSEC_UNDERFLOW] come from os3/doscalls.h and
    are parameters of the model. *)

Section CritSec.

Variable NO_ERROR : Z.
Variable ERROR_CRITSEC_UNDERFLOW : Z.

Definition DosExitCritSec (k : kernel) : option (Z * kernel) :=
  if critsec_count k =? 0 then Some (ERROR_CRITSEC_UNDERFLOW, k)
  else
    let k := set_critsec_count (critsec_count k - 1) k in
    k ← preempt_enable k;
    let k := set_critsec_lock (Spinlock.spin_unlock (critsec_lock k)) k in
    Some (NO_ERROR, k).

End CritSec.

(** *** Run-queue invariants *)

Fixpoint sum_counts (row : list prio_queue) : Z :=
  match row with
  | [] => 0
  | pq :: rest => count pq + sum_counts rest
  end.

Fixpoint sum_all_counts (qs : list (list prio_queue)) : Z :=
  match qs with
  | [] => 0
  | row :: rest => sum_counts row + sum_all_counts rest
  end.

(** The array shapes of [run_queue_t]. *)
Definition rq_shape (rq : run_queue) : Prop :=
  length (queues rq) = Z.to_nat NUM_SCHED_CLASSES /\
  Forall (fun row => length row = Z.to_nat PRIO_LEVELS_PER_CLASS) (queues rq) /\
  length (active_bitmap rq) = Z.to_nat NUM_SCHED_CLASSES.

(** The counting and bitmap invariant: [nr_running] is the sum of the
    queue counters; the bit of level [l], which is bit [31 - l], is set in
    [active_bitmap[c]] exactly when [queues[c][l].count > 0]; bit [c] is
    set in [class_bitmap] exactly when [active_bitmap[c]] is non-zero. *)
Definition rq_inv (rq : run_queue) : Prop :=
  nr_running rq = sum_all_counts (queues rq) /\
  (forall c l, 0 <= c < NUM_SCHED_CLASSES -> 0 <= l < PRIO_LEVELS_PER_CLASS ->
     (Z.testbit (get_bitmap rq c) (31 - l) = true <-> count (get_queue rq c l) > 0)) /\
  (forall c, 0 <= c < NUM_SCHED_CLASSES ->
     (Z.testbit (class_bitmap rq) c = true <-> get_bitmap rq c <> 0)).

(** The same invariant as a check that can be run. *)

Definition rq_invb (rq : run_queue) : bool :=
  (nr_running rq =? sum_all_counts (queues rq))
  && forallb (fun c =>
       forallb (fun l =>
         Bool.eqb (Z.testbit (get_bitmap rq c) (31 - l))
                  (count (get_queue rq c l) >? 0))
         (zrange PRIO_LEVELS_PER_CLASS))
       (zrange NUM_SCHED_CLASSES)
  && forallb (fun c =>
       Bool.eqb (Z.testbit (class_bitmap rq) c) (negb (get_bitmap rq c =? 0)))
       (zrange NUM_SCHED_CLASSES).


(** *** find_first_bit without the compiler builtin

    The [#else] branch of [find_first_bit]: five halvings of the word. *)

(** [if (!(word & mask)) { pos += k; word >>= k; }] *)
Definition skip_zeros (mask k : Z) (pw : Z * Z) : Z * Z :=
  let '(pos, word) := pw in
  if Z.land word mask =? 0 then (pos + k, Z.shiftr word k) else (pos, word).

Definition find_first_bit_portable (word : Z) : Z :=
  if word =? 0 then -1
  else
    let pw := (0, word) in
    let pw := skip_zeros 0xFFFF 16 pw in
    let pw := skip_zeros 0xFF 8 pw in
    let pw := skip_zeros 0xF 4 pw in
    let pw := skip_zeros 0x3 2 pw in
    let '(pos, word) := pw in
    if Z.land word 0x1 =? 0 then pos + 1 else pos.

(** *** Further thread fields *)

Definition set_sched_class (v : Z) (t : thread) : thread :=
  {| sched_class := v; base_priority := base_priority t;
     dynamic_priority := dynamic_priority t; state := state t;
     flags := flags t; timeslice := timeslice t;
     timeslice_max := timeslice_max t; total_runtime := total_runtime t;
     last_run := last_run t; cpu_affinity := cpu_affinity t;
     last_cpu := last_cpu t; preferred_cpu := preferred_cpu t;
     context_switches := context_switches t;
     voluntary_switches := voluntary_switches t;
     involuntary_switches := involuntary_switches t |}.

Definition set_base_priority (v : Z) (t : thread) : thread :=
  {| sched_class := sched_class t; base_priority := v;
     dynamic_priority := dynamic_priority t; state := state t;
     flags := flags t; timeslice := timeslice t;
     timeslice_max := timeslice_max t; total_runtime := total_runtime t;
     last_run := last_run t; cpu_affinity := cpu_affinity t;
     last_cpu := last_cpu t; preferred_cpu := preferred_cpu t;
     context_switches := context_switches t;
     voluntary_switches := voluntary_switches t;
     involuntary_switches := involuntary_switches t |}.

Definition set_dynamic_priority (v : Z) (t : thread) : thread :=
  {| sched_class := sched_class t; base_priority := base_priority t;
     dynamic_priority := v; state := state t;
     flags := flags t; timeslice := timeslice t;
     timeslice_max := timeslice_max t; total_runtime := total_runtime t;
     last_run := last_run t; cpu_affinity := cpu_affinity t;
     last_cpu := last_cpu t; preferred_cpu := preferred_cpu t;
     context_switches := context_switches t;
     voluntary_switches := voluntary_switches t;
     involuntary_switches := involuntary_switches t |}.

Definition set_cpu_affinity (v : Z) (t : thread) : thread :=
  {| sched_class := sched_class t; base_priority := base_priority t;
     dynamic_priority := dynamic_priority t; state := state t;
     flags := flags t; timeslice := timeslice t;
     timeslice_max := timeslice_max t; total_runtime := total_runtime t;
     last_run := last_run t; cpu_affinity := v;
     last_cpu := last_cpu t; preferred_cpu := preferred_cpu t;
     context_switches := context_switches t;
     voluntary_switches := voluntary_switches t;
     involuntary_switches := involuntary_switches t |}.

(** *** Priority boosts and the timer tick

    [thread_t.priority_boost] and [thread_t.boost_ticks],
    [run_queue_t.tick_count], [scheduler.balance_interval] and
    [scheduler.need_balance] are read and written by [sched_tick] and
    [boost_thread_priority] only. They are kept beside the kernel state:
    per thread handle, per CPU, and once for the scheduler. *)

Record boost := {
  priority_boost : Z;
  boost_ticks : Z;
}.

Record tick_state := {
  boosts : gmap Z boost;
  tick_count : list Z;
  balance_interval : Z;
  need_balance : Atomic.atomic_t;
}.

Definition set_boosts (v : gmap Z boost) (ts : tick_state) : tick_state :=
  {| boosts := v; tick_count := tick_count ts;
     balance_interval := balance_interval ts; need_balance := need_balance ts |}.

Definition set_tick_count (v : list Z) (ts : tick_state) : tick_state :=
  {| boosts := boosts ts; tick_count := v;
     balance_interval := balance_interval ts; need_balance := need_balance ts |}.

Definition set_need_balance (v : Atomic.atomic_t) (ts : tick_state) : tick_state :=
  {| boosts := boosts ts; tick_count := tick_count ts;
     balance_interval := balance_interval ts; need_balance := v |}.

(** The arithmetic of [boost_thread_priority]: the sum is stored in the
    [uint8_t] field before it is compared with the two bounds. *)
Definition boosted_priority (base boost : Z) : Z :=
  let dp := u8 (base + boost) in
  let dp := if dp >? MAX_PRIORITY then MAX_PRIORITY else dp in
  if dp <? MIN_PRIORITY then MIN_PRIORITY else dp.

(** [int8_t] as a conversion yields it: two's complement. *)
Definition s8 (x : Z) : Z := (x + 2 ^ 7) mod 2 ^ 8 - 2 ^ 7.

(** [boost_thread_priority(thread, boost, duration)]: the parameters are
    an [int8_t] and a [uint8_t], so the arguments of a call are converted
    to these types before the body runs. *)
Definition boost_thread_priority (tid boost duration : Z) (k : kernel) (ts : tick_state)
  : option (kernel * tick_state) :=
  t ← threads k !! tid;
  let boost := s8 boost in
  let duration := u8 duration in
  let b := {| priority_boost := boost; boost_ticks := duration |} in
  let t := set_dynamic_priority (boosted_priority (base_priority t) boost) t in
  Some (put_thread tid t k, set_boosts (<[tid := b]> (boosts ts)) ts).

(** What one tick does to the running thread: the time slice counts down
    to zero, the boost counts down and is taken back when it reaches zero. *)
Definition tick_thread (t : thread) (b : boost) : thread * boost :=
  let t := if timeslice t >? 0 then set_timeslice (timeslice t - 1) t else t in
  if boost_ticks b >? 0 then
    let ticks := boost_ticks b - 1 in
    if ticks =? 0
    then (set_dynamic_priority (base_priority t) t,
          {| priority_boost := 0; boost_ticks := ticks |})
    else (t, {| priority_boost := priority_boost b; boost_ticks := ticks |})
  else (t, b).

(** [sched_tick()]; a zero [balance_interval] makes the remainder a fault. *)
Definition sched_tick (k : kernel) (ts : tick_state) : option (kernel * tick_state) :=
  let cpu := this_cpu k in
  rq ← get_rq cpu k;
  match current rq with
  | None => Some (k, ts)
  | Some curr =>
      if bool_decide (Some curr = idle rq) then Some (k, ts)
      else
        tc ← at_ (tick_count ts) cpu;
        let tc := u64 (tc + 1) in
        let ts := set_tick_count (upd (tick_count ts) cpu tc) ts in
        let k := put_rq cpu (set_clock (time_ns k) rq) k in
        t ← threads k !! curr;
        b ← boosts ts !! curr;
        let '(t, b) := tick_thread t b in
        let k := put_thread curr t k in
        let ts := set_boosts (<[curr := b]> (boosts ts)) ts in
        k ← (if timeslice t =? 0 then set_need_resched k else Some k);
        if balance_interval ts =? 0 then None
        else if tc mod balance_interval ts =? 0
        then Some (k, set_need_balance (Atomic.atomic_set (need_balance ts) 1) ts)
        else Some (k, ts)
  end.

(** *** Yielding *)

Definition sched_yield (k : kernel) : option kernel :=
  cur ← current_thread k;
  tid ← cur;
  t ← threads k !! tid;
  let t := set_timeslice 0 t in
  let t := set_voluntary_switches (u64 (voluntary_switches t + 1)) t in
  schedule (put_thread tid t k).

(** [idle_balance(cpu_id)] calls [trigger_load_balance()] and does not look
    at its argument. *)
Definition idle_balance (cpu_id : Z) (k : kernel) : option kernel :=
  trigger_load_balance k.

(** *** CPU affinity *)

(** [for (i = 0; i < smp_info.cpu_count; i++) if ((mask & (1ULL << i)) &&
    cpu_isset(i, smp_info.online_mask)) { valid = 1; break; }] *)
Fixpoint affinity_valid (mask : Z) (online : list Z) (i : Z) (fuel : nat) : bool :=
  match fuel with
  | O => false
  | S fuel' =>
      if tst mask (bit64 i) && Smp.cpu_isset i online then true
      else affinity_valid mask online (i + 1) fuel'
  end.

(** [set_thread_affinity]: the result of [find_first_bit] is an [int] and
    is stored in the [uint32_t] field [preferred_cpu]. *)
Definition set_thread_affinity (tid mask : Z) (k : kernel) : option (Z * kernel) :=
  if negb (affinity_valid mask (Smp.online_mask (smp k)) 0
             (Z.to_nat (Smp.cpu_count (smp k))))
  then Some (-1, k)
  else
    t ← threads k !! tid;
    let t := set_cpu_affinity mask t in
    let k := put_thread tid t k in
    if negb (tst mask (bit64 (last_cpu t))) then
      if state t =? THREAD_STATE_READY then
        k ← dequeue_thread tid k;
        t ← threads k !! tid;
        let cpu := u32 (find_first_bit (Z.land mask 0xFFFFFFFF)) in
        let k := put_thread tid (set_preferred_cpu cpu t) k in
        k ← enqueue_thread tid k;
        Some (0, k)
      else Some (0, k)
    else Some (0, k).

(** *** Further OS/2 calls (os3/api/doscalls_thread.c)

    The error codes come from os3/doscalls.h and [find_thread_by_tid] from
    os3/process.h; they are parameters of the model.
    [find_thread_by_tid tid] stands for [find_thread_by_tid(current_process(),
    tid)] and yields the handle of the thread, [None] for NULL. *)

Section DosCalls.

Variable NO_ERROR : Z.
Variable ERROR_INVALID_THREADID : Z.
Variable ERROR_INVALID_PARAMETER : Z.
Variable find_thread_by_tid : Z -> option Z.

(** [DosEnterCritSec]: the spinlock of the process is taken and stays
    taken until [DosExitCritSec]. The nesting count is kept as an integer,
    as in [DosExitCritSec]: its declaration (os3/process.h) is not among
    the sources. *)
Definition DosEnterCritSec (fuel : nat) (k : kernel) : option (Z * kernel) :=
  l ← Spinlock.spin_lock fuel (critsec_lock k);
  let k := set_critsec_lock l k in
  let k := set_critsec_count (critsec_count k + 1) k in
  k ← preempt_disable k;
  Some (NO_ERROR, k).





End DosCalls.

End Sched.

(** * Properties *)

(** ** Bit tests *)

Lemma land_pow2_testbit (a n : Z) :
  0 <= n -> (Z.land a (2 ^ n) =? 0) = negb (Z.testbit a n).
Proof.
  intros Hn. destruct (Z.testbit a n) eqn:Hb; simpl.
  - apply Z.eqb_neq. intros H0.
    assert (Hc : Z.testbit (Z.land a (2 ^ n)) n = true).
    { rewrite Z.land_spec, Hb, Z.pow2_bits_true; auto. }
    rewrite H0, Z.bits_0 in Hc. discriminate.
  - apply Z.eqb_eq. apply Z.bits_inj'. intros m Hm.
    rewrite Z.land_spec, Z.bits_0, Z.pow2_bits_eqb by lia.
    destruct (Z.eqb_spec n m) as [->|]; [rewrite Hb|]; auto using andb_false_r.
Qed.

Lemma testbit_above (a n m : Z) :
  0 <= a < 2 ^ n -> 0 <= n <= m -> Z.testbit a m = false.
Proof.
  intros Ha Hn. destruct (Z.eq_dec a 0) as [->|Hne]; [apply Z.bits_0|].
  apply Z.bits_above_log2; [lia|].
  assert (Z.log2 a < n) by (apply Z.log2_lt_pow2; lia). lia.
Qed.

Lemma bit64_small (n : Z) : 0 <= n < 64 -> bit64 n = 2 ^ n.
Proof.
  intros Hn. unfold bit64, u64. rewrite Z.shiftl_1_l.
  apply Z.mod_small. split; [apply Z.pow_nonneg; lia|].
  apply Z.pow_lt_mono_r; lia.
Qed.

Lemma bit64_large (n : Z) : 64 <= n -> bit64 n = 0.
Proof.
  intros Hn. unfold bit64, u64. rewrite Z.shiftl_1_l.
  replace n with (n - 64 + 64) by lia.
  rewrite Z.pow_add_r by lia. apply Z.mod_mul. lia.
Qed.

Lemma bit32_small (n : Z) : 0 <= n < 32 -> bit32 n = 2 ^ n.
Proof.
  intros Hn. unfold bit32, u32. rewrite Z.shiftl_1_l.
  apply Z.mod_small. split; [apply Z.pow_nonneg; lia|].
  apply Z.pow_lt_mono_r; lia.
Qed.

(** On a 64-bit mask the C test [mask & (1ULL << n)] reads bit [n]. *)
Lemma tst_bit64 (a n : Z) :
  0 <= a < 2 ^ 64 -> 0 <= n -> tst a (bit64 n) = Z.testbit a n.
Proof.
  intros Ha Hn. unfold tst. destruct (Z_lt_ge_dec n 64).
  - rewrite bit64_small, land_pow2_testbit by lia. apply negb_involutive.
  - rewrite bit64_large, Z.land_0_r by lia. simpl.
    symmetry. apply testbit_above with 64; lia.
Qed.

Lemma tst_bit32 (a n : Z) : 0 <= n < 32 -> tst a (bit32 n) = Z.testbit a n.
Proof.
  intros Hn. unfold tst.
  rewrite bit32_small, land_pow2_testbit by lia. apply negb_involutive.
Qed.

(** ** Array access *)

Lemma at_Some {A} (l : list A) (i : Z) (x : A) :
  at_ l i = Some x -> 0 <= i /\ l !! Z.to_nat i = Some x.
Proof.
  unfold at_. destruct (Z.ltb_spec i 0); [discriminate|]. auto.
Qed.

Lemma at_upd_eq {A} (l : list A) (i : Z) (x y : A) :
  at_ l i = Some x -> at_ (upd l i y) i = Some y.
Proof.
  intros H. apply at_Some in H. destruct H as [Hi Hl].
  unfold at_, upd. destruct (Z.ltb_spec i 0); [lia|].
  apply list_lookup_insert_eq. apply lookup_lt_is_Some_1. eauto.
Qed.

Lemma at_upd_ne {A} (l : list A) (i j : Z) (y : A) :
  0 <= i -> 0 <= j -> i <> j -> at_ (upd l i y) j = at_ l j.
Proof.
  intros Hi Hj Hne. unfold at_, upd. destruct (Z.ltb_spec j 0); [reflexivity|].
  apply list_lookup_insert_ne. lia.
Qed.

Lemma at_map {A B} (f : A -> B) (l : list A) (i : Z) :
  at_ (map f l) i = f <$> at_ l i.
Proof.
  unfold at_. destruct (i <? 0); [reflexivity|]. apply list_lookup_fmap.
Qed.

Lemma upd_upd_id {A} (l : list A) (i : Z) (x y : A) :
  at_ l i = Some x -> upd (upd l i y) i x = l.
Proof.
  intros H. apply at_Some in H. destruct H as [_ H]. unfold upd.
  rewrite list_insert_insert_eq. apply list_insert_id. exact H.
Qed.

(** ** Ticket spinlock *)

Module SpinlockProofs.

Import Spinlock.

Lemma head_mod (lock : spinlock) : head lock = head_tail lock mod 2 ^ 16.
Proof. unfold head. change 0xFFFF with (Z.ones 16). apply Z.land_ones. lia. Qed.

Lemma tail_div (lock : spinlock) : tail lock = head_tail lock / 2 ^ 16.
Proof. unfold tail. apply Z.shiftr_div_pow2. lia. Qed.

Lemma trylock_free (lock : spinlock) :
  head lock = tail lock ->
  spin_trylock lock = (1, {| head_tail := u32 (head_tail lock + 0x10000) |}).
Proof.
  unfold head, tail, spin_trylock, spin_trylock_from, atomic_load_n,
    atomic_compare_exchange_n.
  intros ->. rewrite !Z.eqb_refl. reflexivity.
Qed.

Lemma trylock_held (lock : spinlock) :
  head lock <> tail lock -> spin_trylock lock = (0, lock).
Proof.
  unfold head, tail, spin_trylock, spin_trylock_from, atomic_load_n. intros Hne.
  destruct (Z.eqb_spec (Z.shiftr (head_tail lock) 16) (Z.land (head_tail lock) 0xFFFF));
    [congruence | reflexivity].
Qed.

(** Whatever another CPU did to the word between the load and the
    compare-and-exchange: the call returns 0 or 1, returns 1 only when the
    word was unchanged and free, and otherwise writes nothing. *)
Lemma spin_trylock_from_cases (old : Z) (lock : spinlock) :
  (spin_trylock_from old lock = (1, {| head_tail := u32 (old + 0x10000) |}) /\
   head_tail lock = old /\ head lock = tail lock) \/
  spin_trylock_from old lock = (0, lock).
Proof.
  unfold spin_trylock_from, atomic_compare_exchange_n, head, tail.
  destruct (Z.eqb_spec (Z.shiftr old 16) (Z.land old 0xFFFF)) as [E|]; simpl;
    [|right; reflexivity].
  destruct (Z.eqb_spec (head_tail lock) old) as [->|]; [left | right; reflexivity].
  repeat split. symmetry. exact E.
Qed.

(** C9. For every value of the 32-bit lock word, [spin_trylock] returns 1
    exactly when the lock is free ([head = tail]); it then leaves [head]
    alone and advances [tail] by one (modulo 2^16), so that the lock is
    held; when it returns 0 the lock word is unchanged. The function is
    total and has no loop: it never waits. *)
Theorem spin_trylock_spec (lock : spinlock) :
  0 <= head_tail lock < 2 ^ 32 ->
  (fst (spin_trylock lock) = 1 \/ fst (spin_trylock lock) = 0) /\
  (fst (spin_trylock lock) = 1 <-> head lock = tail lock) /\
  (fst (spin_trylock lock) = 1 ->
     head (snd (spin_trylock lock)) = head lock /\
     tail (snd (spin_trylock lock)) = (tail lock + 1) mod 2 ^ 16 /\
     spin_is_locked (snd (spin_trylock lock)) = 1) /\
  (fst (spin_trylock lock) = 0 -> snd (spin_trylock lock) = lock).
Proof.
  intros Hw. destruct (Z.eq_dec (head lock) (tail lock)) as [Heq|Hne].
  - rewrite (trylock_free _ Heq). simpl.
    split; [auto|]. split; [tauto|]. split; [intros _ | discriminate].
    set (l' := {| head_tail := u32 (head_tail lock + 65536) |}).
    assert (Hh : head l' = head lock /\ tail l' = (tail lock + 1) mod 2 ^ 16).
    { rewrite !head_mod, !tail_div. unfold l', u32. simpl head_tail.
      rewrite head_mod, tail_div in Heq.
      change (2 ^ 32) with (2 ^ 16 * 2 ^ 16) in *.
      change 65536 with (2 ^ 16) in *.
      assert (Hb : 0 < 2 ^ 16) by lia.
      revert Hw Heq Hb. generalize (2 ^ 16). intros b Hw Heq Hb.
      rewrite Z.rem_mul_r by lia.
      replace (head_tail lock + b) with (head_tail lock + 1 * b) by lia.
      rewrite Z.mod_add, Z.div_add by lia.
      split.
      - rewrite Z.mul_comm, Z.mod_add by lia. apply Z.mod_mod. lia.
      - rewrite Z.mul_comm, Z.div_add by lia.
        rewrite Z.div_small by (apply Z.mod_pos_bound; lia). lia. }
    destruct Hh as [Hh Ht]. repeat split; auto.
    unfold spin_is_locked, atomic_load_n.
    fold (tail l'). fold (head l'). rewrite Hh, Ht, <- Heq.
    destruct (Z.eqb_spec ((head lock + 1) mod 2 ^ 16) (head lock)) as [E|]; [|reflexivity].
    exfalso. rewrite head_mod in E.
    pose proof (Z.mod_pos_bound (head_tail lock) (2 ^ 16) ltac:(lia)) as Hb.
    destruct (Z.eq_dec (head_tail lock mod 2 ^ 16) (2 ^ 16 - 1)) as [E1|E1].
    + rewrite E1 in E. vm_compute in E. discriminate.
    + rewrite Z.mod_small in E by lia. lia.
  - rewrite (trylock_held _ Hne). simpl.
    split; [auto|]. split; [split; [discriminate | tauto]|].
    split; [discriminate | reflexivity].
Qed.

Lemma spin_trylock_spec_witness :
  0 <= 0x00050005 < 2 ^ 32 /\
  fst (spin_trylock {| head_tail := 0x00050005 |}) = 1 /\
  tail (snd (spin_trylock {| head_tail := 0x00050005 |})) = 6.
Proof.
  split; [lia|].
  pose proof (spin_trylock_spec {| head_tail := 0x00050005 |}) as H.
  destruct H as (_ & H1 & H2 & _); [simpl; lia|].
  assert (E : fst (spin_trylock {| head_tail := 0x00050005 |}) = 1)
    by (apply H1; reflexivity).
  split; [exact E|]. destruct (H2 E) as (_ & Ht & _). rewrite Ht. reflexivity.
Defined.

End SpinlockProofs.

(** ** Inter-processor interrupts *)

Module SmpProofs.

Import Smp.

Lemma ipi_vector_known (ipi_type : Z) :
  is_Some (ipi_vector ipi_type) <->
  ipi_type = IPI_RESCHEDULE \/ ipi_type = IPI_TLB_FLUSH \/
  ipi_type = IPI_CALL_FUNC \/ ipi_type = IPI_STOP.
Proof.
  unfold ipi_vector, IPI_RESCHEDULE, IPI_TLB_FLUSH, IPI_CALL_FUNC, IPI_STOP.
  repeat match goal with |- context [?a =? ?b] => destruct (Z.eqb_spec a b) end;
    split; intros H; eauto; try lia; destruct H as [x Hx]; discriminate.
Qed.

(** C10. When [cpu_id] is not below the online CPU count, or [ipi_type] is
    none of reschedule, TLB-flush, call-function and stop, [smp_send_ipi]
    returns with the state as it was: nothing is written to the interrupt
    controller and nothing else changes. *)
Theorem smp_send_ipi_silent (cpu_id ipi_type : Z) (st : smp_state) :
  cpu_id >= cpu_count st \/
  (ipi_type <> IPI_RESCHEDULE /\ ipi_type <> IPI_TLB_FLUSH /\
   ipi_type <> IPI_CALL_FUNC /\ ipi_type <> IPI_STOP) ->
  smp_send_ipi cpu_id ipi_type st = Some st /\
  (forall st', smp_send_ipi cpu_id ipi_type st = Some st' ->
     hw_trace st' = hw_trace st).
Proof.
  intros H.
  assert (E : smp_send_ipi cpu_id ipi_type st = Some st).
  { unfold smp_send_ipi. destruct (Z.geb_spec cpu_id (cpu_count st)); [reflexivity|].
    destruct H as [H | H]; [lia|].
    destruct (ipi_vector ipi_type) eqn:Ev; [|reflexivity].
    assert (Hs : is_Some (ipi_vector ipi_type)) by (rewrite Ev; eauto).
    apply ipi_vector_known in Hs. tauto. }
  split; [exact E|]. intros st' E'. congruence.
Qed.

Definition two_cpus : smp_state :=
  {| cpu_count := 2; cpu_possible := 2;
     cpus := [Some {| cpu_id := 0; apic_id := 0; cpu_state := 2; numa_node := 0;
                      current_thread := None |};
              Some {| cpu_id := 1; apic_id := 1; cpu_state := 2; numa_node := 0;
                      current_thread := None |}];
     online_mask := [3; 0; 0; 0; 0; 0; 0; 0];
     x2apic_enabled := false;
     hw_trace := [] |}.

Lemma smp_send_ipi_silent_witness :
  smp_send_ipi 2 IPI_RESCHEDULE two_cpus = Some two_cpus /\
  smp_send_ipi 1 IPI_NMI two_cpus = Some two_cpus.
Proof.
  split.
  - apply (smp_send_ipi_silent 2 IPI_RESCHEDULE two_cpus). left. simpl. lia.
  - apply (smp_send_ipi_silent 1 IPI_NMI two_cpus). right.
    unfold IPI_NMI, IPI_RESCHEDULE, IPI_TLB_FLUSH, IPI_CALL_FUNC, IPI_STOP. lia.
Defined.

(** In range and with a known kind the interrupt is sent. *)
Example smp_send_ipi_sends :
  hw_trace <$> smp_send_ipi 1 IPI_RESCHEDULE two_cpus =
  Some [LapicMmioWrite LAPIC_ICR_HI 0x01000000;
        LapicMmioWrite LAPIC_ICR_LO 0x40FA;
        LapicWaitIpi].
Proof. reflexivity. Qed.

End SmpProofs.

(** ** Priority-class mapping *)

Module PrioProofs.

Import Prio.

(** For a non-negative delta the level is [(delta + 31) / 2], as the
    header comment and the specification say. *)
Lemma os2_priority_nonneg_delta (c delta : Z) :
  1 <= c <= 4 -> 0 <= delta <= 31 ->
  os2_to_internal_priority_call c delta = spec_internal_priority c delta.
Proof.
  intros Hc Hd.
  assert (Hcs : c = 1 \/ c = 2 \/ c = 3 \/ c = 4) by lia.
  assert (Hds : forallb (fun d => os2_to_internal_priority_call c d =?
                                  spec_internal_priority c d)
                   (map Z.of_nat (seq 0 32)) = true).
  { destruct Hcs as [->|[->|[->| ->]]]; vm_compute; reflexivity. }
  rewrite forallb_forall in Hds. apply Z.eqb_eq, Hds.
  apply in_map_iff. exists (Z.to_nat delta).
  split; [lia|]. apply in_seq. lia.
Qed.

Lemma os2_priority_nonneg_delta_witness :
  os2_to_internal_priority_call 3 31 = spec_internal_priority 3 31.
Proof. apply (os2_priority_nonneg_delta 3 31); lia. Defined.

(** A negative delta arrives in the [uint8_t] parameter as [256 + delta];
    the level computed from it exceeds 31 and is cut to 31. *)
Lemma os2_priority_negative_delta (c delta : Z) :
  1 <= c <= 4 -> -31 <= delta <= -1 ->
  os2_to_internal_priority_call c delta = (c - 1) * 32 + 31.
Proof.
  intros Hc Hd.
  assert (Hcs : c = 1 \/ c = 2 \/ c = 3 \/ c = 4) by lia.
  assert (Hds : forallb (fun d => os2_to_internal_priority_call c (- d) =?
                                  (c - 1) * 32 + 31)
                   (map Z.of_nat (seq 1 31)) = true).
  { destruct Hcs as [->|[->|[->| ->]]]; vm_compute; reflexivity. }
  rewrite forallb_forall in Hds.
  replace delta with (- (- delta)) by lia. apply Z.eqb_eq, Hds.
  apply in_map_iff. exists (Z.to_nat (- delta)).
  split; [lia|]. apply in_seq. lia.
Qed.

(** C6. At class 2 (Regular) and delta -31 the mapping function returns
    63, that is class Regular with level 31, where the claimed formula
    [class * 32 + clamp ((delta + 31) / 2, 0, 31)] gives 32 (level 0). The
    class is mapped as claimed; the level is not. *)
Theorem os2_to_internal_priority_at_minus_31 :
  os2_to_internal_priority_call 2 (-31) = SCHED_CLASS_REGULAR * 32 + 31 /\
  spec_internal_priority 2 (-31) = SCHED_CLASS_REGULAR * 32 + 0 /\
  os2_to_internal_priority 2 225 = 63.
Proof. repeat split. Qed.

(** The same conversion inside [apply_priority_change]: a thread of class
    Regular whose base priority drops to 0 gets dynamic priority 63. *)
Example apply_priority_change_low :
  apply_priority_change_prio SCHED_CLASS_REGULAR 16 (-16) = (0, 63).
Proof. reflexivity. Qed.

End PrioProofs.

(** ** Scheduler *)

Module SchedProofs.

Import Prio Sched.

(** *** The invariant as a check *)

Lemma forallb_zrange (f : Z -> bool) (n : Z) :
  forallb f (zrange n) = true <-> (forall c, 0 <= c < n -> f c = true).
Proof.
  unfold zrange. rewrite forallb_forall. split.
  - intros H c Hc. apply H. apply in_map_iff. exists (Z.to_nat c).
    split; [lia|]. apply in_seq. lia.
  - intros H c Hc. apply in_map_iff in Hc. destruct Hc as (m & <- & Hm).
    apply in_seq in Hm. apply H. lia.
Qed.

Lemma eqb_iff (a b : bool) : Bool.eqb a b = true <-> (a = true <-> b = true).
Proof. destruct a, b; simpl; intuition congruence. Qed.

Lemma rq_invb_spec (rq : run_queue) : rq_invb rq = true <-> rq_inv rq.
Proof.
  unfold rq_invb, rq_inv. rewrite !andb_true_iff, Z.eqb_eq, !forallb_zrange.
  split.
  - intros [[H1 H2] H3]. split; [exact H1|]. split.
    + intros c l Hc Hl. specialize (H2 c Hc). rewrite forallb_zrange in H2.
      specialize (H2 l Hl). rewrite eqb_iff in H2. rewrite H2. apply Z.gtb_gt.
    + intros c Hc. specialize (H3 c Hc). rewrite eqb_iff in H3. rewrite H3.
      rewrite negb_true_iff. apply Z.eqb_neq.
  - intros (H1 & H2 & H3). split; [split; [exact H1|]|].
    + intros c Hc. rewrite forallb_zrange. intros l Hl.
      rewrite eqb_iff, (H2 c l Hc Hl). symmetry. apply Z.gtb_gt.
    + intros c Hc. rewrite eqb_iff, (H3 c Hc), negb_true_iff. symmetry.
      apply Z.eqb_neq.
Qed.

Lemma rq_invb_false (rq : run_queue) : rq_invb rq = false <-> ~ rq_inv rq.
Proof. rewrite <- rq_invb_spec. destruct (rq_invb rq); intuition congruence. Qed.

(** *** Bits of the words the queue updates write *)

Lemma testbit_lor_bit32 (a k j : Z) :
  0 <= k < 32 -> 0 <= j ->
  Z.testbit (Z.lor a (bit32 k)) j = Z.testbit a j || (k =? j).
Proof.
  intros Hk Hj. rewrite bit32_small by lia.
  rewrite Z.lor_spec, Z.pow2_bits_eqb by lia. reflexivity.
Qed.

Lemma testbit_clear_bit32 (a k j : Z) :
  0 <= k < 32 -> 0 <= j ->
  Z.testbit (clear_bits a (bit32 k)) j = Z.testbit a j && negb (k =? j).
Proof.
  intros Hk Hj. unfold clear_bits. rewrite bit32_small by lia.
  rewrite Z.land_spec, Z.lnot_spec, Z.pow2_bits_eqb by lia. reflexivity.
Qed.

Lemma nonzero_testbit (a j : Z) : Z.testbit a j = true -> a <> 0.
Proof. intros H ->. rewrite Z.bits_0 in H. discriminate. Qed.

Lemma clear_bits_0 (m : Z) : clear_bits 0 m = 0.
Proof. apply Z.land_0_l. Qed.

(** *** Reading a run queue after a write *)

Definition counts_in_range (rq : run_queue) : Prop :=
  Forall (Forall (fun pq => 0 <= count pq < 2 ^ 32)) (queues rq).

Lemma get_queue_range (rq : run_queue) (c l : Z) :
  counts_in_range rq -> 0 <= count (get_queue rq c l) < 2 ^ 32.
Proof.
  intros H. unfold get_queue.
  destruct (at_ (queues rq) c) as [row|] eqn:Hr; [|simpl; lia].
  destruct (at_ row l) as [pq|] eqn:Hq; [simpl | simpl; lia].
  apply at_Some in Hr. apply at_Some in Hq. destruct Hr as [_ Hr], Hq as [_ Hq].
  unfold counts_in_range in H. rewrite Forall_forall in H.
  specialize (H row ltac:(apply list_elem_of_lookup; eauto)).
  rewrite Forall_forall in H. apply (H pq). apply list_elem_of_lookup. eauto.
Qed.

Lemma sum_counts_insert (row : list prio_queue) (n : nat) (old pq : prio_queue) :
  row !! n = Some old ->
  sum_counts (<[n := pq]> row) = sum_counts row + count pq - count old.
Proof.
  revert n. induction row as [|q row IH]; intros n Hn; [discriminate|].
  destruct n as [|n]; simpl in *.
  - injection Hn as ->. lia.
  - rewrite (IH n Hn). lia.
Qed.

Lemma sum_all_counts_insert (qs : list (list prio_queue)) (n : nat)
      (row row' : list prio_queue) :
  qs !! n = Some row ->
  sum_all_counts (<[n := row']> qs) =
    sum_all_counts qs + sum_counts row' - sum_counts row.
Proof.
  revert n. induction qs as [|r qs IH]; intros n Hn; [discriminate|].
  destruct n as [|n]; simpl in *.
  - injection Hn as ->. lia.
  - rewrite (IH n Hn). lia.
Qed.

Lemma put_queue_spec (c p : Z) (pq : prio_queue) (rq rq' : run_queue) :
  put_queue c p pq rq = Some rq' ->
  0 <= c /\ 0 <= p /\
  get_queue rq' c p = pq /\
  (forall c' l, 0 <= c' -> 0 <= l -> (c', l) <> (c, p) ->
     get_queue rq' c' l = get_queue rq c' l) /\
  active_bitmap rq' = active_bitmap rq /\
  class_bitmap rq' = class_bitmap rq /\
  nr_running rq' = nr_running rq /\
  sum_all_counts (queues rq') =
    sum_all_counts (queues rq) + count pq - count (get_queue rq c p).
Proof.
  unfold put_queue.
  destruct (at_ (queues rq) c) as [row|] eqn:Hr; [simpl | discriminate].
  destruct (at_ row p) as [old|] eqn:Hq; [simpl | discriminate].
  intros E. injection E as <-.
  pose proof (at_Some _ _ _ Hr) as [Hc Hrl].
  pose proof (at_Some _ _ _ Hq) as [Hp Hql].
  split; [exact Hc|]. split; [exact Hp|]. split.
  { unfold get_queue. simpl. rewrite (at_upd_eq _ _ _ _ Hr).
    rewrite (at_upd_eq _ _ _ _ Hq). reflexivity. }
  split.
  { intros c' l Hc' Hl Hne. unfold get_queue. simpl.
    destruct (Z.eq_dec c' c) as [->|Hcc].
    - rewrite (at_upd_eq _ _ _ _ Hr), Hr.
      rewrite at_upd_ne; [reflexivity | lia | lia |]. congruence.
    - rewrite at_upd_ne by lia. reflexivity. }
  repeat split. simpl. unfold upd.
  rewrite (sum_all_counts_insert _ _ row) by exact Hrl.
  rewrite (sum_counts_insert _ _ old) by exact Hql.
  unfold get_queue. rewrite Hr, Hq. simpl. lia.
Qed.

Lemma put_bitmap_spec (c bm : Z) (rq rq' : run_queue) :
  put_bitmap c bm rq = Some rq' ->
  0 <= c /\
  get_bitmap rq' c = bm /\
  (forall c', 0 <= c' -> c' <> c -> get_bitmap rq' c' = get_bitmap rq c') /\
  queues rq' = queues rq /\
  class_bitmap rq' = class_bitmap rq /\
  nr_running rq' = nr_running rq.
Proof.
  unfold put_bitmap.
  destruct (at_ (active_bitmap rq) c) as [old|] eqn:Hb; [simpl | discriminate].
  intros E. injection E as <-.
  pose proof (at_Some _ _ _ Hb) as [Hc _].
  split; [exact Hc|]. split.
  { unfold get_bitmap. simpl. rewrite (at_upd_eq _ _ _ _ Hb). reflexivity. }
  split; [|repeat split].
  intros c' Hc' Hne. unfold get_bitmap. simpl. rewrite at_upd_ne by lia. reflexivity.
Qed.

Lemma get_queue_eq (rq rq' : run_queue) (c l : Z) :
  queues rq' = queues rq -> get_queue rq' c l = get_queue rq c l.
Proof. unfold get_queue. intros ->. reflexivity. Qed.

Lemma sum_counts_nonneg (row : list prio_queue) :
  Forall (fun pq => 0 <= count pq < 2 ^ 32) row -> 0 <= sum_counts row.
Proof.
  induction row as [|q row IH]; intros H; simpl; [lia|].
  apply Forall_cons in H. destruct H as [Hq Hrow]. cbn beta in Hq.
  specialize (IH Hrow). lia.
Qed.

Lemma sum_all_counts_nonneg (rq : run_queue) :
  counts_in_range rq -> 0 <= sum_all_counts (queues rq).
Proof.
  unfold counts_in_range. induction (queues rq) as [|row qs IH]; intros H; simpl; [lia|].
  apply Forall_cons in H. destruct H as [Hrow Hqs]. specialize (IH Hqs).
  pose proof (sum_counts_nonneg row Hrow). lia.
Qed.

Lemma count_le_sum_counts (row : list prio_queue) (n : nat) (pq : prio_queue) :
  Forall (fun pq => 0 <= count pq < 2 ^ 32) row -> row !! n = Some pq ->
  count pq <= sum_counts row.
Proof.
  revert n. induction row as [|q row IH]; intros n Hfr Hq; [discriminate|].
  apply Forall_cons in Hfr. destruct Hfr as [Hq0 Hfr]. cbn beta in Hq0.
  pose proof (sum_counts_nonneg row Hfr).
  destruct n as [|n]; simpl in *.
  - injection Hq as ->. lia.
  - specialize (IH n Hfr Hq). lia.
Qed.

(** A queue counter is part of the sum. *)
Lemma count_le_sum (rq : run_queue) (c l : Z) :
  counts_in_range rq -> count (get_queue rq c l) <= sum_all_counts (queues rq).
Proof.
  intros Hr. unfold get_queue.
  pose proof (sum_all_counts_nonneg rq Hr) as Hnn.
  destruct (at_ (queues rq) c) as [row|] eqn:Hrow; [|simpl; lia].
  destruct (at_ row l) as [pq|] eqn:Hq; [simpl | simpl; lia].
  apply at_Some in Hrow. apply at_Some in Hq. destruct Hrow as [_ Hrow], Hq as [_ Hq].
  unfold counts_in_range in Hr. clear Hnn.
  revert Hrow Hr. generalize (Z.to_nat c) as n.
  induction (queues rq) as [|r qs IH]; intros n Hrow Hr; [discriminate|].
  apply Forall_cons in Hr. destruct Hr as [Hr0 Hr].
  assert (Hqs : 0 <= sum_all_counts qs).
  { clear -Hr. induction qs as [|r' qs IH]; simpl; [lia|].
    apply Forall_cons in Hr. destruct Hr as [Hr0 Hr]. specialize (IH Hr).
    pose proof (sum_counts_nonneg r' Hr0). lia. }
  pose proof (sum_counts_nonneg r Hr0).
  destruct n as [|n]; simpl in *.
  - injection Hrow as ->. pose proof (count_le_sum_counts _ _ _ Hr0 Hq). lia.
  - specialize (IH n Hrow Hr). lia.
Qed.

Lemma counts_in_range_put (c p : Z) (pq : prio_queue) (rq rq' : run_queue) :
  counts_in_range rq -> 0 <= count pq < 2 ^ 32 ->
  put_queue c p pq rq = Some rq' -> counts_in_range rq'.
Proof.
  unfold put_queue, counts_in_range. intros Hr Hpq.
  destruct (at_ (queues rq) c) as [row|] eqn:Hrow; [simpl | discriminate].
  destruct (at_ row p) as [old|] eqn:Hq; [simpl | discriminate].
  intros E. injection E as <-. simpl. unfold upd.
  apply Forall_insert; [exact Hr|]. apply Forall_insert; [|exact Hpq].
  rewrite Forall_forall in Hr. apply Hr. apply at_Some in Hrow.
  apply list_elem_of_lookup. exists (Z.to_nat c). tauto.
Qed.

(** The statements shared by [enqueue_thread] and [schedule] keep the
    invariant, as long as the 32-bit counters do not overflow. *)
Lemma rq_add_tail_inv (c p tid : Z) (rq rq' : run_queue) :
  rq_inv rq -> counts_in_range rq ->
  0 <= c < NUM_SCHED_CLASSES -> 0 <= p < PRIO_LEVELS_PER_CLASS ->
  nr_running rq + 1 < 2 ^ 32 ->
  rq_add_tail c p tid rq = Some rq' ->
  rq_inv rq' /\ counts_in_range rq'.
Proof.
  intros (Hsum & Hbits & Hcls) Hr Hc Hp Hroom. unfold rq_add_tail.
  unfold NUM_SCHED_CLASSES, PRIO_LEVELS_PER_CLASS in *.
  set (pq := get_queue rq c p).
  pose proof (get_queue_range rq c p Hr) as Hpq0. fold pq in Hpq0.
  pose proof (count_le_sum rq c p Hr) as Hle. fold pq in Hle.
  pose proof (sum_all_counts_nonneg rq Hr) as Hnn.
  assert (Hu1 : u32 (count pq + 1) = count pq + 1)
    by (unfold u32; rewrite Z.mod_small; lia).
  assert (Hu2 : u32 (nr_running rq + 1) = nr_running rq + 1)
    by (unfold u32; rewrite Z.mod_small; lia).
  destruct (put_queue c p _ rq) as [rq1|] eqn:E1; [simpl | discriminate].
  destruct (put_queue_spec _ _ _ _ _ E1) as (_ & _ & Q1 & Q2 & Q3 & Q4 & Q5 & Q6).
  assert (Hr1 : counts_in_range rq1).
  { eapply counts_in_range_put; [exact Hr | | exact E1]. simpl. lia. }
  destruct (put_bitmap c _ (set_nr_running _ rq1)) as [rq2|] eqn:E2; [simpl | discriminate].
  destruct (put_bitmap_spec _ _ _ _ E2) as (_ & B1 & B2 & B3 & B4 & B5).
  simpl in B3, B4, B5. intros E. injection E as <-.
  assert (Hbm : get_bitmap (set_nr_running (u32 (nr_running rq1 + 1)) rq1) c
                = get_bitmap rq c).
  { unfold get_bitmap. simpl. rewrite Q3. reflexivity. }
  rewrite Hbm in B1.
  split; [|unfold counts_in_range in *; simpl; rewrite B3; exact Hr1].
  unfold rq_inv. simpl. unfold NUM_SCHED_CLASSES, PRIO_LEVELS_PER_CLASS.
  assert (Gq : forall c' l, get_queue (set_class_bitmap
                 (Z.lor (class_bitmap rq2) (bit32 c)) rq2) c' l = get_queue rq1 c' l).
  { intros. apply get_queue_eq. simpl. exact B3. }
  assert (Gb : forall c', get_bitmap (set_class_bitmap
                 (Z.lor (class_bitmap rq2) (bit32 c)) rq2) c' = get_bitmap rq2 c').
  { reflexivity. }
  split; [|split].
  - rewrite B5, B3, Q6, Q5, Hu2, Hsum. simpl. fold pq. lia.
  - intros c' l Hc' Hl. rewrite Gq, Gb.
    destruct (Z.eq_dec c' c) as [->|Hcc].
    + rewrite B1, testbit_lor_bit32 by lia.
      destruct (Z.eq_dec l p) as [->|Hlp].
      * rewrite Q1. simpl. rewrite Z.eqb_refl, orb_true_r. split; [lia | reflexivity].
      * rewrite Q2 by (try lia; congruence).
        destruct (Z.eqb_spec (31 - p) (31 - l)); [lia|]. rewrite orb_false_r.
        apply Hbits; lia.
    + rewrite B2 by lia. rewrite Q2 by (try lia; congruence).
      replace (get_bitmap (set_nr_running (u32 (nr_running rq1 + 1)) rq1) c')
        with (get_bitmap rq c') by (unfold get_bitmap; simpl; rewrite Q3; reflexivity).
      apply Hbits; lia.
  - intros c' Hc'. rewrite Gb, B4. simpl. rewrite Q4.
    rewrite testbit_lor_bit32 by lia.
    destruct (Z.eq_dec c' c) as [->|Hcc].
    + rewrite Z.eqb_refl, orb_true_r, B1. split; [intros _ | reflexivity].
      apply (nonzero_testbit _ (31 - p)). rewrite testbit_lor_bit32 by lia.
      rewrite Z.eqb_refl. apply orb_true_r.
    + destruct (Z.eqb_spec c c'); [lia|]. rewrite orb_false_r, B2 by lia.
      replace (get_bitmap (set_nr_running (u32 (nr_running rq1 + 1)) rq1) c')
        with (get_bitmap rq c') by (unfold get_bitmap; simpl; rewrite Q3; reflexivity).
      apply Hcls. lia.
Qed.

(** The statements shared by [dequeue_thread] and [schedule] keep the
    invariant when the queue they account against is not empty. *)
Lemma rq_account_del_inv (c p : Z) (rq rq' : run_queue) :
  rq_inv rq -> counts_in_range rq ->
  0 <= c < NUM_SCHED_CLASSES -> 0 <= p < PRIO_LEVELS_PER_CLASS ->
  nr_running rq < 2 ^ 32 ->
  count (get_queue rq c p) > 0 ->
  rq_account_del c p rq = Some rq' ->
  rq_inv rq' /\ counts_in_range rq'.
Proof.
  intros (Hsum & Hbits & Hcls) Hr Hc Hp Hnr Hpos. unfold rq_account_del.
  unfold NUM_SCHED_CLASSES, PRIO_LEVELS_PER_CLASS in *.
  set (pq := get_queue rq c p) in *.
  pose proof (get_queue_range rq c p Hr) as Hpq0. fold pq in Hpq0.
  pose proof (count_le_sum rq c p Hr) as Hle. fold pq in Hle.
  assert (Hu1 : u32 (count pq - 1) = count pq - 1)
    by (unfold u32; rewrite Z.mod_small; lia).
  assert (Hu2 : u32 (nr_running rq - 1) = nr_running rq - 1)
    by (unfold u32; rewrite Z.mod_small; lia).
  rewrite Hu1.
  destruct (put_queue c p _ rq) as [rq1|] eqn:E1; [simpl | discriminate].
  destruct (put_queue_spec _ _ _ _ _ E1) as (_ & _ & Q1 & Q2 & Q3 & Q4 & Q5 & Q6).
  assert (Hr1 : counts_in_range rq1).
  { eapply counts_in_range_put; [exact Hr | | exact E1]. simpl. lia. }
  simpl in Q6. fold pq in Q6.
  set (rq1' := set_nr_running (u32 (nr_running rq1 - 1)) rq1).
  assert (Gb1 : forall c', get_bitmap rq1' c' = get_bitmap rq c').
  { intros. unfold get_bitmap. simpl. rewrite Q3. reflexivity. }
  assert (Gq1 : forall c' l, get_queue rq1' c' l = get_queue rq1 c' l).
  { intros. apply get_queue_eq. reflexivity. }
  assert (Hsum1 : nr_running rq1' = sum_all_counts (queues rq1')).
  { simpl. rewrite Q5, Hu2, Q6, Hsum. lia. }
  destruct (Z.eqb_spec (count pq - 1) 0) as [Hz|Hnz].
  - rewrite Gb1.
    destruct (put_bitmap c _ rq1') as [rq2|] eqn:E2; [simpl | discriminate].
    destruct (put_bitmap_spec _ _ _ _ E2) as (_ & B1 & B2 & B3 & B4 & B5).
    assert (Gq2 : forall c' l, get_queue rq2 c' l = get_queue rq1 c' l).
    { intros. rewrite (get_queue_eq rq1' rq2) by exact B3. apply Gq1. }
    assert (Hbits2 : forall c' l, 0 <= c' < 5 -> 0 <= l < 32 ->
              (Z.testbit (get_bitmap rq2 c') (31 - l) = true <->
               count (get_queue rq2 c' l) > 0)).
    { intros c' l Hc' Hl. rewrite Gq2.
      destruct (Z.eq_dec c' c) as [->|Hcc].
      - rewrite B1, testbit_clear_bit32 by lia.
        destruct (Z.eq_dec l p) as [->|Hlp].
        + rewrite Q1. simpl. rewrite Z.eqb_refl, andb_false_r. split; [discriminate | lia].
        + rewrite Q2 by (try lia; congruence).
          destruct (Z.eqb_spec (31 - p) (31 - l)); [lia|]. rewrite andb_true_r.
          apply Hbits; lia.
      - rewrite B2, Gb1 by lia. rewrite Q2 by (try lia; congruence).
        apply Hbits; lia. }
    destruct (Z.eqb_spec (clear_bits (get_bitmap rq c) (bit32 (31 - p))) 0) as [Hbz|Hbnz];
      intros E; injection E as <-.
    + split; [|unfold counts_in_range in *; simpl; rewrite B3; exact Hr1].
      unfold rq_inv. unfold NUM_SCHED_CLASSES, PRIO_LEVELS_PER_CLASS.
      split; [simpl; rewrite B5, B3; exact Hsum1|]. split; [exact Hbits2|].
      intros c' Hc'. simpl. rewrite B4. simpl. rewrite Q4.
      change (get_bitmap (set_class_bitmap _ rq2) c') with (get_bitmap rq2 c').
      rewrite testbit_clear_bit32 by lia.
      destruct (Z.eq_dec c' c) as [->|Hcc].
      * rewrite Z.eqb_refl, andb_false_r, B1. split; [discriminate | congruence].
      * destruct (Z.eqb_spec c c'); [lia|]. rewrite andb_true_r, B2, Gb1 by lia.
        apply Hcls. lia.
    + split; [|unfold counts_in_range in *; rewrite B3; exact Hr1].
      unfold rq_inv. unfold NUM_SCHED_CLASSES, PRIO_LEVELS_PER_CLASS.
      split; [rewrite B5, B3; exact Hsum1|]. split; [exact Hbits2|].
      intros c' Hc'. rewrite B4. simpl. rewrite Q4.
      destruct (Z.eq_dec c' c) as [->|Hcc].
      * rewrite B1. split; [intros _; exact Hbnz | intros _].
        apply Hcls; [lia|]. intros H0. apply Hbnz. rewrite H0. apply clear_bits_0.
      * rewrite B2, Gb1 by lia. apply Hcls. lia.
  - intros E. injection E as <-.
    split; [|exact Hr1].
    unfold rq_inv. unfold NUM_SCHED_CLASSES, PRIO_LEVELS_PER_CLASS.
    split; [exact Hsum1|]. split.
    + intros c' l Hc' Hl. rewrite Gb1, Gq1.
      destruct (Z.eq_dec c' c) as [->|Hcc]; [destruct (Z.eq_dec l p) as [->|Hlp]|].
      * rewrite Q1. simpl. split; [lia | intros _]. apply Hbits; [lia | lia |].
        fold pq. lia.
      * rewrite Q2 by (try lia; congruence). apply Hbits; lia.
      * rewrite Q2 by (try lia; congruence). apply Hbits; lia.
    + intros c' Hc'. rewrite Gb1. simpl. rewrite Q4. apply Hcls. lia.
Qed.

(** *** The operations on the kernel state *)

(** A run queue in good order: the invariant, the array shapes, and
    counters within their 32-bit fields. *)
Definition rq_good (rq : run_queue) : Prop :=
  rq_inv rq /\ rq_shape rq /\ counts_in_range rq /\ nr_running rq < 2 ^ 32.

Definition kernel_inv (k : kernel) : Prop :=
  Forall (fun o => forall rq, o = Some rq -> rq_good rq) (runqueues k).

Lemma kernel_inv_get (k : kernel) (cpu : Z) (rq : run_queue) :
  kernel_inv k -> get_rq cpu k = Some rq -> rq_good rq.
Proof.
  unfold kernel_inv, get_rq. intros Hk Hg.
  destruct (at_ (runqueues k) cpu) as [o|] eqn:Ho; [simpl in Hg | discriminate].
  rewrite Forall_forall in Hk. apply (Hk o); [|exact Hg].
  apply at_Some in Ho. apply list_elem_of_lookup. exists (Z.to_nat cpu). tauto.
Qed.

Lemma kernel_inv_put_rq (k : kernel) (cpu : Z) (rq : run_queue) :
  kernel_inv k -> rq_good rq -> kernel_inv (put_rq cpu rq k).
Proof.
  unfold kernel_inv, put_rq, upd. simpl. intros Hk Hrq.
  apply Forall_insert; [exact Hk|]. intros rq' E. injection E as <-. exact Hrq.
Qed.

Lemma put_queue_shape (c p : Z) (pq : prio_queue) (rq rq' : run_queue) :
  rq_shape rq -> put_queue c p pq rq = Some rq' ->
  rq_shape rq' /\ 0 <= c < NUM_SCHED_CLASSES.
Proof.
  unfold put_queue, rq_shape. intros (H1 & H2 & H3).
  destruct (at_ (queues rq) c) as [row|] eqn:Hrow; [simpl | discriminate].
  destruct (at_ row p) as [old|] eqn:Hq; [simpl | discriminate].
  intros E. injection E as <-. simpl. unfold upd.
  apply at_Some in Hrow. destruct Hrow as [Hc Hrow].
  pose proof (lookup_lt_Some _ _ _ Hrow) as Hlt.
  split; [|unfold NUM_SCHED_CLASSES in *; lia].
  rewrite length_insert. split; [exact H1|]. split; [|exact H3].
  apply Forall_insert; [exact H2|]. rewrite length_insert.
  rewrite Forall_forall in H2. apply H2. apply list_elem_of_lookup. eauto.
Qed.

Lemma put_bitmap_shape (c bm : Z) (rq rq' : run_queue) :
  rq_shape rq -> put_bitmap c bm rq = Some rq' -> rq_shape rq'.
Proof.
  unfold put_bitmap, rq_shape. intros (H1 & H2 & H3).
  destruct (at_ (active_bitmap rq) c) as [old|]; [simpl | discriminate].
  intros E. injection E as <-. simpl. unfold upd. rewrite length_insert. auto.
Qed.

Lemma rq_add_tail_good (c p tid : Z) (rq rq' : run_queue) :
  rq_good rq -> 0 <= p < PRIO_LEVELS_PER_CLASS -> nr_running rq + 1 < 2 ^ 32 ->
  rq_add_tail c p tid rq = Some rq' -> rq_good rq'.
Proof.
  intros (Hinv & Hsh & Hr & Hnr) Hp Hroom Hadd.
  assert (Hs : rq_shape rq' /\ 0 <= c < NUM_SCHED_CLASSES /\ nr_running rq' = u32 (nr_running rq + 1)).
  { revert Hadd. unfold rq_add_tail.
    destruct (put_queue c p _ rq) as [rq1|] eqn:E1; [simpl | discriminate].
    destruct (put_queue_shape _ _ _ _ _ Hsh E1) as [Hsh1 Hc].
    destruct (put_queue_spec _ _ _ _ _ E1) as (_ & _ & _ & _ & _ & _ & Q5 & _).
    destruct (put_bitmap c _ _) as [rq2|] eqn:E2; [simpl | discriminate].
    intros E. injection E as <-.
    pose proof (put_bitmap_shape _ _ (set_nr_running _ rq1) _ Hsh1 E2) as Hsh2.
    destruct (put_bitmap_spec _ _ _ _ E2) as (_ & _ & _ & _ & _ & B5).
    split; [exact Hsh2|]. split; [exact Hc|]. simpl. rewrite B5. simpl.
    rewrite Q5. reflexivity. }
  destruct Hs as (Hsh' & Hc & Hnr').
  destruct (rq_add_tail_inv c p tid rq rq' Hinv Hr Hc Hp Hroom Hadd) as [Hinv' Hr'].
  pose proof (sum_all_counts_nonneg rq Hr) as Hnn. destruct Hinv as (Hsum & _).
  split; [exact Hinv'|]. split; [exact Hsh'|]. split; [exact Hr'|].
  rewrite Hnr'. unfold u32. rewrite Z.mod_small; lia.
Qed.

Lemma rq_account_del_good (c p : Z) (rq rq' : run_queue) :
  rq_good rq -> 0 <= p < PRIO_LEVELS_PER_CLASS ->
  count (get_queue rq c p) > 0 ->
  rq_account_del c p rq = Some rq' -> rq_good rq'.
Proof.
  intros (Hinv & Hsh & Hr & Hnr) Hp Hpos Hdel.
  assert (Hs : rq_shape rq' /\ 0 <= c < NUM_SCHED_CLASSES /\ nr_running rq' = u32 (nr_running rq - 1)).
  { revert Hdel. unfold rq_account_del.
    destruct (put_queue c p _ rq) as [rq1|] eqn:E1; [simpl | discriminate].
    destruct (put_queue_shape _ _ _ _ _ Hsh E1) as [Hsh1 Hc].
    destruct (put_queue_spec _ _ _ _ _ E1) as (_ & _ & _ & _ & _ & _ & Q5 & _).
    destruct (_ =? 0).
    - destruct (put_bitmap c _ _) as [rq2|] eqn:E2; [simpl | discriminate].
      pose proof (put_bitmap_shape _ _ (set_nr_running _ rq1) _ Hsh1 E2) as Hsh2.
      destruct (put_bitmap_spec _ _ _ _ E2) as (_ & _ & _ & _ & _ & B5).
      destruct (_ =? 0); intros E; injection E as <-;
        (split; [exact Hsh2|]; split; [exact Hc|]; simpl; rewrite B5; simpl;
         rewrite Q5; reflexivity).
    - intros E. injection E as <-.
      split; [exact Hsh1|]. split; [exact Hc|]. simpl. rewrite Q5. reflexivity. }
  destruct Hs as (Hsh' & Hc & Hnr').
  destruct (rq_account_del_inv c p rq rq' Hinv Hr Hc Hp Hnr Hpos Hdel) as [Hinv' Hr'].
  pose proof (count_le_sum rq c p Hr) as Hle. destruct Hinv as (Hsum & _).
  split; [exact Hinv'|]. split; [exact Hsh'|]. split; [exact Hr'|].
  rewrite Hnr'. unfold u32. rewrite Z.mod_small; lia.
Qed.

Lemma kernel_inv_ext (k k' : kernel) :
  runqueues k' = runqueues k -> kernel_inv k -> kernel_inv k'.
Proof. unfold kernel_inv. intros ->. auto. Qed.

Lemma get_queue_unlink (tid : Z) (rq : run_queue) (c l : Z) :
  get_queue (unlink_rq tid rq) c l = unlink_queue tid (get_queue rq c l).
Proof.
  unfold get_queue, unlink_rq. simpl. rewrite at_map.
  destruct (at_ (queues rq) c) as [row|]; simpl; [|reflexivity].
  rewrite at_map. destruct (at_ row l); reflexivity.
Qed.

Lemma sum_all_counts_unlink (tid : Z) (qs : list (list prio_queue)) :
  sum_all_counts (map (map (unlink_queue tid)) qs) = sum_all_counts qs.
Proof.
  induction qs as [|row qs IH]; simpl; [reflexivity|]. rewrite IH. f_equal.
  induction row as [|q row IHr]; simpl; [reflexivity|]. rewrite IHr. reflexivity.
Qed.

(** Unlinking a thread touches no counter and no bitmap. *)
Lemma unlink_rq_good (tid : Z) (rq : run_queue) :
  rq_good rq -> rq_good (unlink_rq tid rq).
Proof.
  intros ((Hsum & Hbits & Hcls) & (S1 & S2 & S3) & Hr & Hnr).
  split; [|split; [|split]].
  - split; [|split].
    + simpl. rewrite sum_all_counts_unlink. exact Hsum.
    + intros c l Hc Hl. rewrite get_queue_unlink. simpl. apply Hbits; assumption.
    + exact Hcls.
  - unfold rq_shape. simpl. rewrite length_map. split; [exact S1|]. split; [|exact S3].
    apply Forall_fmap. eapply Forall_impl; [exact S2|]. intros row Hrow. simpl.
    rewrite length_map. exact Hrow.
  - unfold counts_in_range in *. simpl. apply Forall_fmap.
    eapply Forall_impl; [exact Hr|]. intros row Hrow. simpl. apply Forall_fmap.
    eapply Forall_impl; [exact Hrow|]. intros pq Hpq. exact Hpq.
  - exact Hnr.
Qed.

Lemma kernel_inv_list_del_init (tid : Z) (k : kernel) :
  kernel_inv k -> kernel_inv (list_del_init tid k).
Proof.
  unfold kernel_inv, list_del_init. simpl. intros Hk. apply Forall_fmap.
  eapply Forall_impl; [exact Hk|]. intros o Ho rq. simpl.
  destruct o as [rq0|]; simpl; [|discriminate].
  intros E. injection E as <-. apply unlink_rq_good, Ho. reflexivity.
Qed.

Lemma get_rq_list_del_init (tid cpu : Z) (k : kernel) :
  get_rq cpu (list_del_init tid k) = unlink_rq tid <$> get_rq cpu k.
Proof.
  unfold get_rq, list_del_init. simpl. rewrite at_map.
  destruct (at_ (runqueues k) cpu) as [[rq|]|]; reflexivity.
Qed.

Lemma level_range (prio : Z) : 0 <= prio mod PRIO_LEVELS_PER_CLASS < PRIO_LEVELS_PER_CLASS.
Proof. apply Z.mod_pos_bound. reflexivity. Qed.

(** [enqueue_thread] re-establishes the invariant on every run queue,
    short of 2^32 - 1 runnable threads on the target. *)
Lemma enqueue_thread_inv (tid : Z) (k k' : kernel) :
  kernel_inv k ->
  (forall cpu rq, get_rq cpu k = Some rq -> nr_running rq + 1 < 2 ^ 32) ->
  enqueue_thread tid k = Some k' ->
  kernel_inv k'.
Proof.
  intros Hk Hroom. unfold enqueue_thread.
  destruct (threads k !! tid) as [t|]; [simpl | discriminate].
  set (cpu := select_cpu t (Smp.cpu_count (smp k))).
  destruct (get_rq cpu k) as [rq|] eqn:Hrq; [simpl | discriminate].
  destruct (rq_add_tail _ _ tid rq) as [rq1|] eqn:Hadd; [simpl | discriminate].
  assert (Hgood : rq_good rq1).
  { eapply rq_add_tail_good; [eapply kernel_inv_get; eauto | apply level_range
                             | eapply Hroom; eauto | exact Hadd]. }
  set (k1 := put_rq cpu rq1 (put_thread tid (set_state THREAD_STATE_READY t) k)).
  assert (Hk1 : kernel_inv k1).
  { apply kernel_inv_put_rq; [|exact Hgood]. eapply kernel_inv_ext; [|exact Hk]. reflexivity. }
  destruct (current rq1) as [cur|]; [|intros E; replace k' with k1 by congruence; exact Hk1].
  destruct (_ !! cur) as [ct|]; [simpl | discriminate].
  destruct (_ >? _); [|intros E; replace k' with k1 by congruence; exact Hk1].
  destruct (set_need_resched k1) as [k2|] eqn:Hn; [simpl | discriminate].
  assert (Hk2 : kernel_inv k2).
  { eapply kernel_inv_ext; [|exact Hk1]. revert Hn. unfold set_need_resched.
    destruct (current_thread k1) as [[c|]|]; simpl; try discriminate.
    destruct (_ !! c); simpl; [|discriminate].
    intros E. injection E as <-. reflexivity. }
  destruct (negb _); [|intros E; replace k' with k2 by congruence; exact Hk2].
  destruct (Smp.smp_send_ipi _ _ _) as [s|]; [simpl | discriminate].
  intros E. injection E as <-. eapply kernel_inv_ext; [|exact Hk2]. reflexivity.
Qed.

(** [dequeue_thread] re-establishes the invariant on every run queue when
    the thread is accounted for in the queue of its class and level on
    [last_cpu]. *)
Lemma dequeue_thread_inv (tid : Z) (k k' : kernel) (t : thread) :
  kernel_inv k ->
  threads k !! tid = Some t ->
  (forall rq, get_rq (last_cpu t) k = Some rq ->
     count (get_queue rq (sched_class t)
              (dynamic_priority t mod PRIO_LEVELS_PER_CLASS)) > 0) ->
  dequeue_thread tid k = Some k' ->
  kernel_inv k'.
Proof.
  intros Hk Ht Hq. unfold dequeue_thread. rewrite Ht. simpl.
  destruct (get_rq (last_cpu t) k) as [rq|] eqn:Hrq; [simpl | discriminate].
  rewrite get_rq_list_del_init, Hrq. simpl.
  destruct (rq_account_del _ _ (unlink_rq tid rq)) as [rq1|] eqn:Hdel;
    [simpl | discriminate].
  intros E. injection E as <-.
  apply kernel_inv_put_rq; [apply kernel_inv_list_del_init, Hk|].
  eapply rq_account_del_good; [| apply level_range | | exact Hdel].
  - apply unlink_rq_good. eapply kernel_inv_get; eauto.
  - rewrite get_queue_unlink. simpl. apply Hq. reflexivity.
Qed.

(** *** schedule *)









Lemma rq_good_same (rq rq' : run_queue) :
  queues rq' = queues rq -> active_bitmap rq' = active_bitmap rq ->
  class_bitmap rq' = class_bitmap rq -> nr_running rq' = nr_running rq ->
  rq_good rq -> rq_good rq'.
Proof.
  unfold rq_good, rq_inv, rq_shape, counts_in_range, get_queue, get_bitmap.
  intros -> -> -> ->. auto.
Qed.

Lemma get_rq_put_rq (cpu : Z) (rq rq0 : run_queue) (k : kernel) :
  get_rq cpu k = Some rq0 -> get_rq cpu (put_rq cpu rq k) = Some rq.
Proof.
  unfold get_rq, put_rq. simpl.
  destruct (at_ (runqueues k) cpu) as [o|] eqn:Ho; [simpl | discriminate].
  intros _. rewrite (at_upd_eq _ _ _ _ Ho). reflexivity.
Qed.





(** *** pick_next_thread *)

(** With nothing runnable the idle thread is returned. *)
Lemma pick_next_thread_idle (rq : run_queue) :
  nr_running rq = 0 -> pick_next_thread rq = idle rq.
Proof. intros H. unfold pick_next_thread. rewrite H. reflexivity. Qed.

(** The run queue of CPU 0 with idle thread 1, after thread 100 of class
    Regular, level 16, has been added as [enqueue_thread] adds it. *)
Definition rq_one_thread : option run_queue :=
  rq_add_tail SCHED_CLASS_REGULAR 16 100 (set_idle (Some 1) (init_run_queue 0)).

(** C1. A run queue that satisfies the counting and bitmap invariant and
    holds exactly one runnable thread, at class Regular and level 16:
    [nr_running] is 1, yet [pick_next_thread] returns the idle thread and
    not thread 100, the head of the only non-empty FIFO. *)
Theorem pick_next_thread_single_regular_thread :
  exists rq,
    rq_one_thread = Some rq /\
    rq_inv rq /\
    nr_running rq = 1 /\
    get_queue rq SCHED_CLASS_REGULAR 16 = {| queue := [100]; count := 1 |} /\
    idle rq = Some 1 /\
    pick_next_thread rq = Some 1.
Proof.
  eexists. split; [reflexivity|].
  split; [apply rq_invb_spec; vm_compute; reflexivity|].
  repeat split.
Qed.

(** The bit tested at step [p] is the bit of level [p], the queue read is
    that of level [31 - p]: with levels 10, 21 and 25 occupied the thread
    at level 21 is returned, not the one at level 25. *)
Example pick_next_thread_three_levels :
  (rq ← rq_add_tail 1 10 100 (set_idle (Some 1) (init_run_queue 0));
   rq ← rq_add_tail 1 21 101 rq;
   rq ← rq_add_tail 1 25 102 rq;
   pick_next_thread rq) = Some 101.
Proof. reflexivity. Qed.

(** *** CPU selection in enqueue_thread *)

Lemma first_allowed_cpu_spec (aff : Z) (fuel : nat) (cpu : Z) :
  0 <= aff < 2 ^ 64 -> 0 <= cpu ->
  cpu <= first_allowed_cpu aff cpu fuel <= cpu + Z.of_nat fuel /\
  (forall c, cpu <= c < first_allowed_cpu aff cpu fuel -> Z.testbit aff c = false) /\
  (first_allowed_cpu aff cpu fuel < cpu + Z.of_nat fuel ->
   Z.testbit aff (first_allowed_cpu aff cpu fuel) = true).
Proof.
  intros Ha. revert cpu. induction fuel as [|fuel IH]; intros cpu Hc; simpl.
  - repeat split; intros; lia.
  - rewrite tst_bit64 by lia. destruct (Z.testbit aff cpu) eqn:Hb.
    + repeat split; intros; try lia. exact Hb.
    + destruct (IH (cpu + 1) ltac:(lia)) as (H1 & H2 & H3).
      split; [lia|]. split.
      * intros c Hcr. destruct (Z.eq_dec c cpu) as [->|]; [exact Hb|].
        apply H2. lia.
      * intros Hlt. apply H3. lia.
Qed.

(** What the selection computes for CPU numbers below 64: [preferred_cpu]
    when its bit is set in the affinity mask, and otherwise the
    lowest-numbered CPU below [smp_info.cpu_count] whose bit is set in the
    affinity mask, if there is one. The online mask is not read. *)
Lemma select_cpu_by_affinity (t : thread) (cpu_count : Z) :
  0 <= cpu_affinity t < 2 ^ 64 ->
  0 <= preferred_cpu t < 64 ->
  0 <= cpu_count <= 64 ->
  (Z.testbit (cpu_affinity t) (preferred_cpu t) = true ->
   select_cpu t cpu_count = preferred_cpu t) /\
  (Z.testbit (cpu_affinity t) (preferred_cpu t) = false ->
   forall c, 0 <= c < cpu_count ->
     Z.testbit (cpu_affinity t) c = true ->
     (forall c', 0 <= c' < c -> Z.testbit (cpu_affinity t) c' = false) ->
     select_cpu t cpu_count = c).
Proof.
  intros Ha Hp Hn. unfold select_cpu. rewrite tst_bit64 by lia. split.
  - intros ->. reflexivity.
  - intros -> c Hc Hbit Hmin. simpl.
    destruct (first_allowed_cpu_spec (cpu_affinity t) (Z.to_nat cpu_count) 0 Ha
                ltac:(lia)) as (H1 & H2 & H3).
    set (r := first_allowed_cpu (cpu_affinity t) 0 (Z.to_nat cpu_count)) in *.
    destruct (Z.lt_trichotomy r c) as [Hlt | [Heq | Hgt]]; [|exact Heq|].
    + rewrite Hmin in H3 by lia. assert (r < 0 + Z.of_nat (Z.to_nat cpu_count)) by lia.
      specialize (H3 ltac:(assumption)). discriminate.
    + rewrite H2 in Hbit by lia. discriminate.
Qed.

Definition mk_thread (c prio pref aff fl : Z) : thread :=
  {| sched_class := c; base_priority := prio; dynamic_priority := prio;
     state := THREAD_STATE_SUSPENDED; flags := fl;
     timeslice := 31; timeslice_max := 31;
     total_runtime := 0; last_run := 0;
     cpu_affinity := aff; last_cpu := pref; preferred_cpu := pref;
     context_switches := 0; voluntary_switches := 0;
     involuntary_switches := 0 |}.

(** The choice as the claim words it: [preferred_cpu] when allowed,
    otherwise the lowest-numbered CPU whose bit is set both in the affinity
    mask and in the online mask. *)
Fixpoint lowest_allowed_online (affinity : Z) (online : list Z) (cpu : Z) (fuel : nat) : Z :=
  match fuel with
  | O => cpu
  | S fuel' =>
      if Z.testbit affinity cpu && Smp.cpu_isset cpu online then cpu
      else lowest_allowed_online affinity online (cpu + 1) fuel'
  end.

Definition claimed_cpu (t : thread) (online : list Z) : Z :=
  if Z.testbit (cpu_affinity t) (preferred_cpu t) then preferred_cpu t
  else lowest_allowed_online (cpu_affinity t) online 0 64.

(** Five processors are declared and CPU 1 did not start: [smp_init]
    counted four ([cpu_count = 4]), the online mask is {0, 2, 3, 4},
    [smp_boot_cpu] left the [cpu_info] of CPU 1 in place with state
    offline, and [sched_init_cpu], which the starting processor calls
    itself, never filled [scheduler.runqueues[1]]. Thread 20 (class
    Regular, level 16) was created on CPU 0 and is suspended. *)
Definition booted_cpu_info (n : Z) (st : Z) : Smp.cpu_info :=
  {| Smp.cpu_id := n; Smp.apic_id := n; Smp.cpu_state := st; Smp.numa_node := 0;
     Smp.current_thread := None |}.

Definition failed_boot_kernel : kernel :=
  {| smp := {| Smp.cpu_count := 4; Smp.cpu_possible := 5;
               Smp.cpus := [Some (booted_cpu_info 0 2); Some (booted_cpu_info 1 0);
                            Some (booted_cpu_info 2 2); Some (booted_cpu_info 3 2);
                            Some (booted_cpu_info 4 2)];
               Smp.online_mask := [29; 0; 0; 0; 0; 0; 0; 0];
               Smp.x2apic_enabled := false;
               Smp.hw_trace := [] |};
     runqueues := [Some (set_idle (Some 1) (init_run_queue 0));
                   None;
                   Some (set_idle (Some 3) (init_run_queue 2));
                   Some (set_idle (Some 4) (init_run_queue 3));
                   Some (set_idle (Some 5) (init_run_queue 4))];
     threads :=
       list_to_map
         [(1, mk_thread SCHED_CLASS_IDLE 0 0 1 (Z.lor THREAD_FLAG_IDLE THREAD_FLAG_BOUND));
          (3, mk_thread SCHED_CLASS_IDLE 0 2 4 (Z.lor THREAD_FLAG_IDLE THREAD_FLAG_BOUND));
          (4, mk_thread SCHED_CLASS_IDLE 0 3 8 (Z.lor THREAD_FLAG_IDLE THREAD_FLAG_BOUND));
          (5, mk_thread SCHED_CLASS_IDLE 0 4 16 (Z.lor THREAD_FLAG_IDLE THREAD_FLAG_BOUND));
          (20, mk_thread SCHED_CLASS_REGULAR 16 0 1 0)];
     this_cpu := 0;
     preempt_counter := [0; 0; 0; 0; 0];
     time_ns := 5000000;
     critsec_count := 0;
     critsec_lock := {| Spinlock.head_tail := 0 |} |}.

(** C5. In [failed_boot_kernel], [set_thread_affinity] accepts the mask
    {1, 2} for thread 20, because CPU 2 is online, and stores it. When the
    thread is then enqueued its preferred CPU 0 is not in the mask, and the
    claim names CPU 2, the lowest-numbered CPU both allowed and online,
    whose run queue exists. The loop of [enqueue_thread] tests the affinity
    mask only and stops at CPU 1, which is not online:
    [scheduler.runqueues[1]] is NULL and [enqueue_thread] faults on it. *)
Theorem enqueue_thread_takes_offline_cpu :
  exists k1 t,
    set_thread_affinity 20 6 failed_boot_kernel = Some (0, k1) /\
    threads k1 !! 20 = Some t /\
    cpu_affinity t = 6 /\
    Z.testbit (cpu_affinity t) (preferred_cpu t) = false /\
    claimed_cpu t (Smp.online_mask (smp k1)) = 2 /\
    is_Some (get_rq 2 k1) /\
    select_cpu t (Smp.cpu_count (smp k1)) = 1 /\
    Smp.cpu_isset 1 (Smp.online_mask (smp k1)) = false /\
    get_rq 1 k1 = None /\
    enqueue_thread 20 k1 = None.
Proof.
  exists (put_thread 20 (set_cpu_affinity 6 (mk_thread SCHED_CLASS_REGULAR 16 0 1 0))
            failed_boot_kernel),
         (set_cpu_affinity 6 (mk_thread SCHED_CLASS_REGULAR 16 0 1 0)).
  split; [vm_compute; reflexivity|].
  split; [vm_compute; reflexivity|].
  split; [reflexivity|].
  split; [reflexivity|].
  split; [vm_compute; reflexivity|].
  split; [exists (set_idle (Some 3) (init_run_queue 2)); vm_compute; reflexivity|].
  split; [vm_compute; reflexivity|].
  split; [vm_compute; reflexivity|].
  split; [vm_compute; reflexivity|].
  vm_compute. reflexivity.
Qed.

(** *** Load balancing *)

(** Two CPUs, both online, with empty run queues and idle threads 1 and 2.
    Threads 10 (class Idle, level 0), 11 and 12 (class Regular, level 16)
    may run anywhere, prefer CPU 1 and last ran more than 1 ms ago. The
    code runs on CPU 0. *)
Definition boot_kernel : kernel :=
  {| smp := SmpProofs.two_cpus;
     runqueues := [Some (set_idle (Some 1) (init_run_queue 0));
                   Some (set_idle (Some 2) (init_run_queue 1))];
     threads :=
       list_to_map
         [(1, mk_thread SCHED_CLASS_IDLE 0 0 1 (Z.lor THREAD_FLAG_IDLE THREAD_FLAG_BOUND));
          (2, mk_thread SCHED_CLASS_IDLE 0 1 2 (Z.lor THREAD_FLAG_IDLE THREAD_FLAG_BOUND));
          (10, mk_thread SCHED_CLASS_IDLE 0 1 (2 ^ 64 - 1) 0);
          (11, mk_thread SCHED_CLASS_REGULAR 16 1 (2 ^ 64 - 1) 0);
          (12, mk_thread SCHED_CLASS_REGULAR 16 1 (2 ^ 64 - 1) 0)];
     this_cpu := 0;
     preempt_counter := [0; 0];
     time_ns := 5000000;
     critsec_count := 0;
     critsec_lock := {| Spinlock.head_tail := 0 |} |}.

(** The three threads enqueued: all land on CPU 1. *)
Definition loaded_kernel : option kernel :=
  k ← enqueue_thread 10 boot_kernel;
  k ← enqueue_thread 11 k;
  enqueue_thread 12 k.

(** C2. Both run queues of [loaded_kernel] satisfy the counting and bitmap
    invariant. [trigger_load_balance] on CPU 0 pulls thread 10, the only
    thread of class Idle, from CPU 1. On exit the run queue of CPU 1 has
    [active_bitmap[0] = 0] while bit 0 of [class_bitmap] is still set: the
    migration step clears the level bit but not the class bit, and the
    invariant no longer holds there. *)
Theorem load_balance_leaves_class_bit :
  exists k rq0 rq1 k' rq1',
    loaded_kernel = Some k /\
    get_rq 0 k = Some rq0 /\ rq_inv rq0 /\
    get_rq 1 k = Some rq1 /\ rq_inv rq1 /\
    trigger_load_balance k = Some k' /\
    get_rq 1 k' = Some rq1' /\
    get_queue rq1' 0 0 = {| queue := []; count := 0 |} /\
    get_bitmap rq1' 0 = 0 /\
    Z.testbit (class_bitmap rq1') 0 = true /\
    rq_invb rq1' = false.
Proof.
  do 5 eexists.
  split; [vm_compute; reflexivity|].
  split; [vm_compute; reflexivity|].
  split; [apply rq_invb_spec; vm_compute; reflexivity|].
  split; [vm_compute; reflexivity|].
  split; [apply rq_invb_spec; vm_compute; reflexivity|].
  split; [vm_compute; reflexivity|].
  split; [vm_compute; reflexivity|].
  repeat split.
Qed.

(** [dequeue_thread] on the same thread clears both bits. *)
Example dequeue_clears_class_bit :
  (k ← loaded_kernel;
   k ← dequeue_thread 10 k;
   rq ← get_rq 1 k;
   Some (get_bitmap rq 0, class_bitmap rq, rq_invb rq))
  = Some (0, 2, true).
Proof. vm_compute. reflexivity. Qed.

(** *** Critical sections *)

(** C7. Called with a critical-section count of zero, [DosExitCritSec]
    returns the underflow code and the state it was called in: neither the
    critical-section count nor the per-CPU preempt counter changes. *)
Theorem DosExitCritSec_underflow (NO_ERROR ERROR_CRITSEC_UNDERFLOW : Z) (k : kernel) :
  critsec_count k = 0 ->
  DosExitCritSec NO_ERROR ERROR_CRITSEC_UNDERFLOW k = Some (ERROR_CRITSEC_UNDERFLOW, k) /\
  (forall rc k', DosExitCritSec NO_ERROR ERROR_CRITSEC_UNDERFLOW k = Some (rc, k') ->
     rc = ERROR_CRITSEC_UNDERFLOW /\
     critsec_count k' = critsec_count k /\
     preempt_counter k' = preempt_counter k).
Proof.
  intros H0.
  assert (E : DosExitCritSec NO_ERROR ERROR_CRITSEC_UNDERFLOW k
              = Some (ERROR_CRITSEC_UNDERFLOW, k)).
  { unfold DosExitCritSec. rewrite H0. reflexivity. }
  split; [exact E|]. intros rc k' E'. rewrite E in E'.
  injection E' as <- <-. auto.
Qed.

Lemma DosExitCritSec_underflow_witness :
  DosExitCritSec 0 485 boot_kernel = Some (485, boot_kernel).
Proof.
  destruct (DosExitCritSec_underflow 0 485 boot_kernel) as [H _];
    [reflexivity | exact H].
Defined.

(** With a matching enter the call succeeds and both counters drop. *)
Example DosExitCritSec_matched :
  (fun r => (r.1, critsec_count r.2, preempt_counter r.2)) <$>
    DosExitCritSec 0 485
      (set_critsec_count 1 (set_preempt_counter [2; 0] boot_kernel))
  = Some (0, 0, [1; 0]).
Proof. vm_compute. reflexivity. Qed.

(** *** The scheduler on the example states *)

Definition rq_goodb (rq : run_queue) : bool :=
  rq_invb rq
  && (length (queues rq) =? Z.to_nat NUM_SCHED_CLASSES)%nat
  && forallb (fun row => (length row =? Z.to_nat PRIO_LEVELS_PER_CLASS)%nat) (queues rq)
  && (length (active_bitmap rq) =? Z.to_nat NUM_SCHED_CLASSES)%nat
  && forallb (forallb (fun pq => (0 <=? count pq) && (count pq <? 2 ^ 32))) (queues rq)
  && (nr_running rq <? 2 ^ 32).

Lemma rq_goodb_spec (rq : run_queue) : rq_goodb rq = true -> rq_good rq.
Proof.
  unfold rq_goodb, rq_good, rq_shape, counts_in_range.
  rewrite !andb_true_iff, !Nat.eqb_eq, Z.ltb_lt, !forallb_forall.
  intros [[[[[H1 H2] H3] H4] H5] H6].
  split; [apply rq_invb_spec, H1|]. split; [split; [exact H2|split; [|exact H4]]|].
  - apply Forall_forall. intros row Hrow. apply Nat.eqb_eq, H3, list_elem_of_In, Hrow.
  - split; [|exact H6]. apply Forall_forall. intros row Hrow.
    apply list_elem_of_In, H5 in Hrow. rewrite forallb_forall in Hrow.
    apply Forall_forall. intros pq Hpq. apply list_elem_of_In, Hrow in Hpq.
    apply andb_true_iff in Hpq. lia.
Qed.

Definition kernel_invb (k : kernel) : bool :=
  forallb (fun o => match o with Some rq => rq_goodb rq | None => true end)
    (runqueues k).

Lemma kernel_invb_spec (k : kernel) : kernel_invb k = true -> kernel_inv k.
Proof.
  unfold kernel_invb, kernel_inv. rewrite forallb_forall. intros H.
  apply Forall_forall. intros o Ho rq ->.
  apply rq_goodb_spec, (H (Some rq)), list_elem_of_In, Ho.
Qed.

Lemma get_rq_elem (cpu : Z) (k : kernel) (rq : run_queue) :
  get_rq cpu k = Some rq -> In (Some rq) (runqueues k).
Proof.
  unfold get_rq. destruct (at_ (runqueues k) cpu) as [o|] eqn:Ho; [simpl | discriminate].
  intros ->. apply at_Some in Ho. apply list_elem_of_In, list_elem_of_lookup.
  exists (Z.to_nat cpu). tauto.
Qed.


Lemma enqueue_thread_inv_witness :
  exists k', enqueue_thread 11 boot_kernel = Some k' /\ kernel_inv k'.
Proof.
  eexists. split; [vm_compute; reflexivity|].
  eapply (enqueue_thread_inv 11 boot_kernel).
  - apply kernel_invb_spec. vm_compute. reflexivity.
  - intros cpu rq Hrq. apply get_rq_elem in Hrq.
    destruct Hrq as [E | [E | []]]; injection E as <-; reflexivity.
  - vm_compute. reflexivity.
Defined.

(** The kernel of [loaded_kernel]: threads 10, 11 and 12 queued on CPU 1. *)
Definition loaded : kernel := default boot_kernel loaded_kernel.

Definition queued_10 : thread :=
  default (mk_thread SCHED_CLASS_IDLE 0 1 (2 ^ 64 - 1) 0) (threads loaded !! 10).

Lemma dequeue_thread_inv_witness :
  loaded_kernel = Some loaded /\
  exists k', dequeue_thread 10 loaded = Some k' /\ kernel_inv k'.
Proof.
  split; [vm_compute; reflexivity|].
  eexists. split; [vm_compute; reflexivity|].
  eapply (dequeue_thread_inv 10 loaded _ queued_10).
  - apply kernel_invb_spec. vm_compute. reflexivity.
  - vm_compute. reflexivity.
  - intros rq Hrq. vm_compute in Hrq. injection Hrq as <-. vm_compute. reflexivity.
  - vm_compute. reflexivity.
Defined.


Lemma pick_next_thread_idle_witness :
  pick_next_thread (set_idle (Some 1) (init_run_queue 0)) = Some 1.
Proof.
  apply (pick_next_thread_idle (set_idle (Some 1) (init_run_queue 0))). reflexivity.
Defined.

End SchedProofs.

(** ** NUMA fallback order *)

Module NumaProofs.

Import Numa.

Section BubbleSort.

Variable d : Z -> Z.

(** One pass of the inner loop, by recursion on the row: [m] comparisons
    starting at the head. *)
Fixpoint bubble (m : nat) (l : list Z) : list Z :=
  match m, l with
  | S m', x :: y :: r =>
      if d x >? d y then y :: bubble m' (x :: r) else x :: bubble m' (y :: r)
  | _, _ => l
  end.

Lemma swap_step_at (pre : list Z) (x y : Z) (post : list Z) :
  swap_step d (pre ++ x :: y :: post) (length pre) =
  pre ++ (if d x >? d y then y :: x :: post else x :: y :: post).
Proof.
  unfold swap_step.
  rewrite (lookup_app_r pre) by lia. rewrite Nat.sub_diag. simpl.
  replace (S (length pre)) with (length pre + 1)%nat by lia.
  rewrite (lookup_app_r pre) by lia.
  replace (length pre + 1 - length pre)%nat with 1%nat by lia. simpl.
  destruct (d x >? d y); [|reflexivity].
  rewrite insert_app_r_alt by lia. rewrite Nat.sub_diag. simpl.
  rewrite insert_app_r_alt by lia.
  replace (length pre + 1 - length pre)%nat with 1%nat by lia. reflexivity.
Qed.

Lemma swap_step_short (row : list Z) (k : nat) :
  (length row <= S k)%nat -> swap_step d row k = row.
Proof.
  intros H. unfold swap_step.
  rewrite (lookup_ge_None_2 row (S k)) by lia. destruct (row !! k); reflexivity.
Qed.

Lemma swap_steps_short (row : list Z) (m s : nat) :
  (length row <= S s)%nat -> fold_left (swap_step d) (seq s m) row = row.
Proof.
  revert s. induction m as [|m IH]; intros s H; simpl; [reflexivity|].
  rewrite swap_step_short by lia. apply IH. lia.
Qed.

Lemma bubble_nil (m : nat) : bubble m [] = [].
Proof. destruct m; reflexivity. Qed.

Lemma bubble_one (m : nat) (x : Z) : bubble m [x] = [x].
Proof. destruct m; reflexivity. Qed.

(** The indexed loop and the recursive pass agree. *)
Lemma bubble_steps (m : nat) (pre l : list Z) :
  fold_left (swap_step d) (seq (length pre) m) (pre ++ l) = pre ++ bubble m l.
Proof.
  revert pre l. induction m as [|m IH]; intros pre l; simpl; [reflexivity|].
  destruct l as [|x [|y r]].
  - rewrite swap_step_short by (rewrite length_app; simpl; lia).
    rewrite swap_steps_short by (rewrite length_app; simpl; lia). reflexivity.
  - rewrite swap_step_short by (rewrite length_app; simpl; lia).
    rewrite swap_steps_short by (rewrite length_app; simpl; lia). reflexivity.
  - rewrite swap_step_at.
    destruct (d x >? d y).
    + specialize (IH (pre ++ [y]) (x :: r)).
      rewrite length_app in IH. simpl in IH.
      replace (length pre + 1)%nat with (S (length pre)) in IH by lia.
      rewrite <- !app_assoc in IH. simpl in IH. exact IH.
    + specialize (IH (pre ++ [x]) (y :: r)).
      rewrite length_app in IH. simpl in IH.
      replace (length pre + 1)%nat with (S (length pre)) in IH by lia.
      rewrite <- !app_assoc in IH. simpl in IH. exact IH.
Qed.

Lemma bubble_pass_bubble (m : nat) (row : list Z) :
  bubble_pass d row m = bubble m row.
Proof. apply (bubble_steps m [] row). Qed.

Lemma bubble_perm (m : nat) (l : list Z) : Permutation (bubble m l) l.
Proof.
  revert l. induction m as [|m IH]; intros l; simpl; [reflexivity|].
  destruct l as [|x [|y r]]; try reflexivity.
  destruct (d x >? d y).
  - rewrite IH. apply perm_swap.
  - rewrite IH. reflexivity.
Qed.

Lemma bubble_app (m : nat) (l pad : list Z) :
  (m < length l)%nat -> bubble m (l ++ pad) = bubble m l ++ pad.
Proof.
  revert l. induction m as [|m IH]; intros l H; simpl; [reflexivity|].
  destruct l as [|x [|y r]]; simpl in H; try lia. simpl.
  destruct (d x >? d y); simpl; f_equal.
  - apply (IH (x :: r)). simpl. lia.
  - apply (IH (y :: r)). simpl. lia.
Qed.

(** A pass over a whole list leaves a farthest entry at its end. *)
Lemma bubble_max (m : nat) (l : list Z) :
  length l = S m ->
  exists init mx, bubble m l = init ++ [mx] /\ Forall (fun z => d z <= d mx) init.
Proof.
  revert l. induction m as [|m IH]; intros l H.
  - destruct l as [|x [|]]; simpl in H; try lia.
    exists [], x. split; [reflexivity | constructor].
  - destruct l as [|x [|y r]]; simpl in H; try lia. simpl.
    destruct (Z.gtb_spec (d x) (d y)) as [Hgt|Hle].
    + destruct (IH (x :: r)) as (init & mx & E & Hall); [simpl; lia|].
      exists (y :: init), mx. rewrite E. split; [reflexivity|].
      constructor; [|exact Hall].
      assert (Hin : In x (init ++ [mx])).
      { rewrite <- E. apply (Permutation_in x (Permutation_sym (bubble_perm m (x :: r)))).
        left. reflexivity. }
      apply in_app_or in Hin. destruct Hin as [Hin | [<- | []]]; [|lia].
      rewrite Forall_forall in Hall. apply list_elem_of_In, Hall in Hin. lia.
    + destruct (IH (y :: r)) as (init & mx & E & Hall); [simpl; lia|].
      exists (x :: init), mx. rewrite E. split; [reflexivity|].
      constructor; [|exact Hall].
      assert (Hin : In y (init ++ [mx])).
      { rewrite <- E. apply (Permutation_in y (Permutation_sym (bubble_perm m (y :: r)))).
        left. reflexivity. }
      apply in_app_or in Hin. destruct Hin as [Hin | [<- | []]]; [|lia].
      rewrite Forall_forall in Hall. apply list_elem_of_In, Hall in Hin. lia.
Qed.


(** Entries at equal distance stand in ascending index order. *)
Definition index_order (a b : Z) : Prop := d a = d b -> a < b.

Definition not_farther (a b : Z) : Prop := d a <= d b.

Lemma bubble_index_order (m : nat) (l : list Z) :
  StronglySorted index_order l -> StronglySorted index_order (bubble m l).
Proof.
  revert l. induction m as [|m IH]; intros l H; simpl; [exact H|].
  destruct l as [|x [|y r]]; try exact H.
  apply StronglySorted_inv in H. destruct H as [Hyr Hx].
  apply StronglySorted_inv in Hyr. destruct Hyr as [Hr Hy].
  apply Forall_cons in Hx. destruct Hx as [Hxy Hxr].
  destruct (Z.gtb_spec (d x) (d y)) as [Hgt|Hle].
  - constructor.
    + apply IH. constructor; assumption.
    + apply (Permutation_Forall (Permutation_sym (bubble_perm m (x :: r)))).
      constructor; [|exact Hy]. unfold index_order. lia.
  - constructor.
    + apply IH. constructor; assumption.
    + apply (Permutation_Forall (Permutation_sym (bubble_perm m (y :: r)))).
      constructor; assumption.
Qed.

(** The outer loop on a row of exactly [n] entries. *)
Definition sort_list (n : nat) (l : list Z) : list Z :=
  fold_left (fun r j => bubble (n - j - 1) r) (seq 0 (n - 1)) l.

Lemma passes_app (n : nat) (js : list nat) (l pad : list Z) :
  length l = S n ->
  fold_left (fun r j => bubble_pass d r (S n - j - 1)) js (l ++ pad) =
  fold_left (fun r j => bubble (S n - j - 1) r) js l ++ pad.
Proof.
  revert l. induction js as [|j js IH]; intros l Hl; simpl; [reflexivity|].
  rewrite bubble_pass_bubble, bubble_app by lia.
  apply IH. rewrite (Permutation_length (bubble_perm _ l)). exact Hl.
Qed.

Lemma sort_row_app (n : nat) (l pad : list Z) :
  length l = n -> sort_row d n (l ++ pad) = sort_list n l ++ pad.
Proof.
  intros Hl. unfold sort_row, sort_list. destruct n as [|n]; [reflexivity|].
  apply passes_app. exact Hl.
Qed.

Lemma passes_perm (n : nat) (js : list nat) (l : list Z) :
  Permutation (fold_left (fun r j => bubble (n - j - 1) r) js l) l.
Proof.
  revert l. induction js as [|j js IH]; intros l; simpl; [reflexivity|].
  rewrite IH. apply bubble_perm.
Qed.

Lemma passes_index_order (n : nat) (js : list nat) (l : list Z) :
  StronglySorted index_order l ->
  StronglySorted index_order (fold_left (fun r j => bubble (n - j - 1) r) js l).
Proof.
  revert l. induction js as [|j js IH]; intros l H; simpl; [exact H|].
  apply IH, bubble_index_order, H.
Qed.

(** After [t] passes the last [t] entries are in place: they are sorted
    and none of the entries before them is farther. *)
Lemma passes_tail_sorted (n t : nat) (l0 : list Z) :
  length l0 = n -> (t <= n - 1)%nat ->
  exists a b,
    fold_left (fun r j => bubble (n - j - 1) r) (seq 0 t) l0 = a ++ b /\
    length b = t /\
    StronglySorted not_farther b /\
    Forall (fun x => Forall (not_farther x) b) a.
Proof.
  intros Hl. induction t as [|t IH]; intros Ht.
  - exists l0, []. simpl. rewrite app_nil_r.
    repeat split; [constructor|]. apply Forall_forall. intros; constructor.
  - destruct IH as (a & b & E & Hb & Hs & Hab); [lia|].
    rewrite seq_S, fold_left_app, E. simpl.
    assert (Hla : length a = S (n - t - 1)).
    { pose proof (Permutation_length (passes_perm n (seq 0 t) l0)) as Hp.
      rewrite E, length_app in Hp. lia. }
    rewrite bubble_app by lia.
    destruct (bubble_max (n - t - 1) a Hla) as (init & mx & Em & Hinit).
    pose proof (bubble_perm (n - t - 1) a) as Hp. rewrite Em in Hp.
    assert (Hmx : Forall (not_farther mx) b).
    { rewrite Forall_forall in Hab. apply Hab. apply list_elem_of_In.
      apply (Permutation_in mx Hp). apply in_or_app. right. left. reflexivity. }
    exists init, (mx :: b). rewrite Em, <- app_assoc. simpl.
    split; [reflexivity|]. split; [lia|]. split; [constructor; assumption|].
    apply Forall_forall. intros x Hx. constructor.
    + rewrite Forall_forall in Hinit. apply Hinit, Hx.
    + rewrite Forall_forall in Hab. apply Hab. apply list_elem_of_In.
      apply (Permutation_in x Hp). apply in_or_app. left.
      apply list_elem_of_In, Hx.
Qed.

Lemma sort_list_sorted (n : nat) (l : list Z) :
  length l = n -> StronglySorted not_farther (sort_list n l).
Proof.
  intros Hl. destruct (passes_tail_sorted n (n - 1) l Hl) as (a & b & E & Hb & Hs & Hab);
    [lia|].
  unfold sort_list. rewrite E.
  assert (Hla : (length a <= 1)%nat).
  { pose proof (Permutation_length (passes_perm n (seq 0 (n - 1)) l)) as Hp.
    rewrite E, length_app in Hp. lia. }
  destruct a as [|x [|]]; simpl in Hla; try lia; simpl; [exact Hs|].
  constructor; [exact Hs|]. apply Forall_cons in Hab. tauto.
Qed.

Lemma sorted_both (P Q : Z -> Z -> Prop) (l : list Z) :
  StronglySorted P l -> StronglySorted Q l ->
  StronglySorted (fun a b => P a b /\ Q a b) l.
Proof.
  induction l as [|x l IH]; intros HP HQ; [constructor|].
  apply StronglySorted_inv in HP. apply StronglySorted_inv in HQ.
  destruct HP as [HP HPx], HQ as [HQ HQx].
  constructor; [auto|]. rewrite Forall_forall in *. auto.
Qed.

Lemma sorted_weaken (P Q : Z -> Z -> Prop) (l : list Z) :
  (forall a b, P a b -> Q a b) -> StronglySorted P l -> StronglySorted Q l.
Proof.
  intros HPQ. induction 1 as [|x l Hs IH Hx]; constructor; [exact IH|].
  eapply Forall_impl; [exact Hx | auto].
Qed.

(** The sorted row: a permutation of the entries, nearer first, equal
    distances by ascending index. *)
Lemma sort_list_nearer (n : nat) (l : list Z) :
  length l = n -> StronglySorted index_order l ->
  Permutation (sort_list n l) l /\ StronglySorted (nearer d) (sort_list n l).
Proof.
  intros Hl Hio. split; [apply passes_perm|].
  apply sorted_weaken with (P := fun a b => not_farther a b /\ index_order a b).
  - unfold nearer, not_farther, index_order. intros a b [H1 H2]. lia.
  - apply sorted_both; [apply sort_list_sorted, Hl|].
    apply passes_index_order, Hio.
Qed.

End BubbleSort.

Lemma init_row_spec (n : nat) (row : list Z) :
  (n <= length row)%nat ->
  init_row n row = map (fun j => u8 (Z.of_nat j)) (seq 0 n) ++ drop n row.
Proof.
  unfold init_row. induction n as [|n IH]; intros Hn; [reflexivity|].
  rewrite seq_S, fold_left_app, map_app, IH by lia. simpl.
  assert (Hlen : length (map (fun j => u8 (Z.of_nat j)) (seq 0 n)) = n)
    by (rewrite length_map, length_seq; reflexivity).
  rewrite insert_app_r_alt by lia. rewrite Hlen, Nat.sub_diag.
  destruct (lookup_lt_is_Some_2 row n) as [y Hy]; [lia|].
  rewrite (drop_S _ _ _ Hy). simpl. rewrite <- app_assoc. reflexivity.
Qed.

Lemma init_row_small (n : nat) (row : list Z) :
  (n <= length row)%nat -> (n <= 256)%nat ->
  init_row n row = zrange (Z.of_nat n) ++ drop n row.
Proof.
  intros Hn Hs. rewrite init_row_spec by exact Hn. f_equal.
  unfold zrange. rewrite Nat2Z.id. apply map_ext_in. intros j Hj.
  apply in_seq in Hj. unfold u8. apply Z.mod_small. lia.
Qed.

Lemma zrange_ascending (n : nat) : StronglySorted Z.lt (zrange (Z.of_nat n)).
Proof.
  unfold zrange. rewrite Nat2Z.id. generalize 0%nat as s.
  induction n as [|n IH]; intros s; simpl; constructor; [apply IH|].
  apply Forall_forall. intros x Hx. apply list_elem_of_In, in_map_iff in Hx.
  destruct Hx as (j & <- & Hj). apply in_seq in Hj. lia.
Qed.

Lemma fold_rows_lookup (f : nat -> list Z -> list Z) (n : nat) (fb : list (list Z)) (i : nat) :
  fold_left
    (fun fb i => match fb !! i with
                 | Some row => <[i := f i row]> fb
                 | None => fb
                 end) (seq 0 n) fb !! i
  = if decide (i < n)%nat then f i <$> fb !! i else fb !! i.
Proof.
  revert i. induction n as [|n IH]; intros i; [reflexivity|].
  rewrite seq_S, fold_left_app. simpl.
  set (F := fold_left _ (seq 0 n) fb) in *.
  assert (HFn : F !! n = fb !! n).
  { rewrite IH. destruct (decide (n < n)%nat); [lia | reflexivity]. }
  rewrite HFn. destruct (fb !! n) as [row|] eqn:En.
  - destruct (decide (i = n)) as [->|Hne].
    + rewrite list_lookup_insert_eq by (apply lookup_lt_is_Some_1; rewrite HFn; eauto).
      rewrite En. destruct (decide (n < S n)%nat); [reflexivity | lia].
    + rewrite list_lookup_insert_ne by auto. rewrite IH.
      destruct (decide (i < n)%nat), (decide (i < S n)%nat); try reflexivity; lia.
  - rewrite IH. destruct (decide (i = n)) as [->|Hne].
    + rewrite En. destruct (decide (n < n)%nat), (decide (n < S n)%nat); reflexivity.
    + destruct (decide (i < n)%nat), (decide (i < S n)%nat); try reflexivity; lia.
Qed.

(** C8. After [numa_build_fallback_order], for every node [i] below
    [num_nodes], the first [num_nodes] entries of row [fallback[i]] are a
    permutation of the node indices [0 .. num_nodes - 1], and any entry
    that stands before another is nearer to [i], or equally far and of
    smaller index: the sort is stable and its result is determined by the
    distance matrix. *)
Theorem fallback_order_sorted (t : numa_topology) (i : nat) :
  0 <= num_nodes t <= MAX_NUMA_NODES ->
  length (fallback t) = Z.to_nat MAX_NUMA_NODES ->
  Forall (fun row => length row = Z.to_nat MAX_NUMA_NODES) (fallback t) ->
  (i < Z.to_nat (num_nodes t))%nat ->
  exists row,
    fallback_row (numa_build_fallback_order t) i = Some row /\
    Permutation row (zrange (num_nodes t)) /\
    StronglySorted (nearer (dist t i)) row.
Proof.
  intros Hn Hlen Hrows Hi. unfold MAX_NUMA_NODES in *.
  set (n := Z.to_nat (num_nodes t)) in *.
  assert (Hn64 : (n <= 64)%nat) by lia.
  destruct (lookup_lt_is_Some_2 (fallback t) i) as [row0 Hrow0]; [lia|].
  assert (Hl0 : length row0 = 64%nat).
  { rewrite Forall_forall in Hrows. apply (Hrows row0).
    apply list_elem_of_lookup. eauto. }
  assert (Hzn : length (zrange (Z.of_nat n)) = n).
  { unfold zrange. rewrite length_map, length_seq. lia. }
  destruct (sort_list_nearer (dist t i) n (zrange (Z.of_nat n)) Hzn) as [Hperm Hsorted].
  { apply sorted_weaken with (P := Z.lt); [|apply zrange_ascending].
    unfold index_order. intros; lia. }
  exists (sort_list (dist t i) n (zrange (Z.of_nat n))).
  replace (num_nodes t) with (Z.of_nat n) by lia.
  split; [|split; assumption].
  unfold fallback_row, numa_build_fallback_order. simpl. fold n.
  rewrite fold_rows_lookup. destruct (decide (i < n)%nat); [|lia].
  rewrite Hrow0. simpl. f_equal. unfold build_row. fold n.
  rewrite init_row_small by lia. rewrite sort_row_app by exact Hzn.
  apply take_app_length'.
  rewrite (Permutation_length Hperm). symmetry. exact Hzn.
Qed.

(** Three nodes; node 2 is as far from node 0 as node 1 is. *)
Definition topo3 : numa_topology :=
  {| num_nodes := 3;
     nodes := [];
     distance := [[10; 20; 20]; [20; 10; 30]; [20; 30; 10]];
     fallback := replicate 64 (replicate 64 0) |}.

Lemma fallback_order_sorted_witness :
  exists row,
    fallback_row (numa_build_fallback_order topo3) 1 = Some row /\
    Permutation row (zrange 3) /\
    StronglySorted (nearer (dist topo3 1)) row.
Proof.
  apply (fallback_order_sorted topo3 1).
  - unfold MAX_NUMA_NODES. simpl. lia.
  - reflexivity.
  - apply Forall_forall. intros row Hrow.
    apply elem_of_replicate in Hrow. destruct Hrow as [-> _]. reflexivity.
  - simpl. lia.
Defined.

Example fallback_rows_topo3 :
  fallback_row (numa_build_fallback_order topo3) 0 = Some [0; 1; 2] /\
  fallback_row (numa_build_fallback_order topo3) 1 = Some [1; 0; 2] /\
  fallback_row (numa_build_fallback_order topo3) 2 = Some [2; 0; 1].
Proof. repeat split. Qed.

(** ** NUMA page accounting: what the allocator keeps *)

Lemma pages_in_insert (counts : list Z) (n : nat) (k c c' : Z) :
  0 <= k -> counts !! n = Some c ->
  pages_in k (<[n := c']> counts) = pages_in k counts + (c' - c) * 2 ^ (k + Z.of_nat n).
Proof.
  revert n k. induction counts as [|c0 rest IH]; intros n k Hk Hn; [discriminate|].
  destruct n as [|n]; simpl in *.
  - injection Hn as ->. rewrite Z.add_0_r. lia.
  - rewrite (IH n (k + 1)) by (auto; lia).
    replace (k + 1 + Z.of_nat n) with (k + Z.pos (Pos.of_succ_nat n)) by lia. lia.
Qed.

Lemma pages_in_upd (counts : list Z) (i c c' : Z) :
  at_ counts i = Some c ->
  pages_in 0 (upd counts i c') = pages_in 0 counts + (c' - c) * 2 ^ i.
Proof.
  intros H. apply at_Some in H. destruct H as [Hi Hl]. unfold upd.
  rewrite (pages_in_insert counts (Z.to_nat i) 0 c c') by (auto; lia).
  rewrite Z2Nat.id by lia. reflexivity.
Qed.

Lemma pages_in_nonneg (counts : list Z) (k : Z) :
  0 <= k -> Forall (fun x => 0 <= x) counts -> 0 <= pages_in k counts.
Proof.
  revert k. induction counts as [|a l IH]; intros k Hk Hl; simpl; [lia|].
  apply Forall_cons in Hl. destruct Hl as [Ha Hl]. cbn beta in Ha.
  specialize (IH (k + 1) ltac:(lia) Hl).
  assert (0 <= a * 2 ^ k) by (apply Z.mul_nonneg_nonneg; [lia | apply Z.pow_nonneg; lia]).
  lia.
Qed.

Lemma pages_in_lower (counts : list Z) (n : nat) (k c : Z) :
  0 <= k -> Forall (fun x => 0 <= x) counts -> counts !! n = Some c ->
  c * 2 ^ (k + Z.of_nat n) <= pages_in k counts.
Proof.
  revert n k. induction counts as [|c0 rest IH]; intros n k Hk Hall Hn; [discriminate|].
  apply Forall_cons in Hall. destruct Hall as [H0 Hrest]. cbn beta in H0.
  pose proof pages_in_nonneg as Hnn.
  destruct n as [|n]; simpl in *.
  - injection Hn as ->. rewrite Z.add_0_r.
    specialize (Hnn rest (k + 1) ltac:(lia) Hrest). lia.
  - specialize (IH n (k + 1) ltac:(lia) Hrest Hn).
    replace (k + Z.of_nat (S n)) with (k + 1 + Z.of_nat n) by lia.
    assert (0 <= c0 * 2 ^ k) by (apply Z.mul_nonneg_nonneg; [lia | apply Z.pow_nonneg; lia]).
    lia.
Qed.

(** The counters of a node as unsigned 32-bit values. *)
Definition counts_ok (nmi : numa_mem_info) : Prop :=
  Forall (fun c => 0 <= c < 2 ^ 32) (free_count nmi).

(** A node in good order: the accounting invariant, counters in range,
    and a page total that fits the 64-bit field. *)
Definition node_ok (nmi : numa_mem_info) : Prop :=
  accounted nmi /\ counts_ok nmi /\ free_pages nmi < 2 ^ 64.

Definition all_nodes_ok (st : mm_state) : Prop :=
  Forall node_ok (nodes (topo st)).

Lemma get_node_list_del (pfn node : Z) (st : mm_state) :
  get_node node (list_del pfn st) = unlink pfn <$> get_node node st.
Proof. unfold get_node, list_del. simpl. apply at_map. Qed.

Lemma get_node_set_node (node : Z) (nmi x : numa_mem_info) (st : mm_state) :
  get_node node st = Some x -> get_node node (set_node node nmi st) = Some nmi.
Proof. unfold get_node, set_node. simpl. apply at_upd_eq. Qed.

Lemma get_node_set_page (node pfn : Z) (p : page) (st : mm_state) :
  get_node node (set_page pfn p st) = get_node node st.
Proof. reflexivity. Qed.

Lemma get_node_ok (node : Z) (st : mm_state) (nmi : numa_mem_info) :
  all_nodes_ok st -> get_node node st = Some nmi -> node_ok nmi.
Proof.
  unfold all_nodes_ok, get_node. intros Hall Hn. apply at_Some in Hn.
  rewrite Forall_forall in Hall. apply Hall, list_elem_of_lookup.
  exists (Z.to_nat node). tauto.
Qed.

Lemma all_ok_list_del (pfn : Z) (st : mm_state) :
  all_nodes_ok st -> all_nodes_ok (list_del pfn st).
Proof.
  unfold all_nodes_ok, list_del. simpl. intros H.
  apply Forall_fmap. eapply Forall_impl; [exact H|]. intros n Hn. exact Hn.
Qed.

Lemma all_ok_set_node (node : Z) (nmi : numa_mem_info) (st : mm_state) :
  all_nodes_ok st -> node_ok nmi -> all_nodes_ok (set_node node nmi st).
Proof.
  unfold all_nodes_ok, set_node, upd. simpl. intros H Hn.
  apply Forall_insert; assumption.
Qed.

Lemma node_ok_nonneg (nmi : numa_mem_info) : node_ok nmi -> 0 <= free_pages nmi.
Proof.
  intros (Hacc & Hok & _). rewrite Hacc. apply pages_in_nonneg; [lia|].
  eapply Forall_impl; [exact Hok|]. simpl. intros; lia.
Qed.

(** Taking one block of order [i] off the counters. *)
Lemma dec_count (i c : Z) (nmi nmi1 : numa_mem_info) :
  counts_ok nmi -> at_ (free_count nmi) i = Some c -> c > 0 ->
  add_free_count i (-1) nmi = Some nmi1 ->
  counts_ok nmi1 /\
  free_pages nmi1 = free_pages nmi /\
  pages_in 0 (free_count nmi1) = pages_in 0 (free_count nmi) - 2 ^ i /\
  at_ (free_count nmi1) i = Some (c - 1) /\
  (forall j, 0 <= j -> j <> i -> at_ (free_count nmi1) j = at_ (free_count nmi) j) /\
  2 ^ i <= pages_in 0 (free_count nmi) /\ 0 <= i.
Proof.
  intros Hok Hc Hpos. unfold add_free_count. rewrite Hc. simpl.
  intros E. injection E as <-. simpl.
  pose proof (at_Some _ _ _ Hc) as [Hi Hlk].
  assert (Hc32 : 0 <= c < 2 ^ 32).
  { unfold counts_ok in Hok. rewrite Forall_forall in Hok. apply Hok.
    apply list_elem_of_lookup. eauto. }
  assert (Hge : c * 2 ^ i <= pages_in 0 (free_count nmi)).
  { pose proof (pages_in_lower (free_count nmi) (Z.to_nat i) 0 c ltac:(lia)) as H.
    rewrite Z2Nat.id in H by lia. apply H; [|exact Hlk].
    eapply Forall_impl; [exact Hok|]. simpl. intros; lia. }
  assert (Hp : 0 < 2 ^ i) by (apply Z.pow_pos_nonneg; lia).
  replace (u32 (c + -1)) with (c - 1) by (unfold u32; rewrite Z.mod_small; lia).
  split; [unfold counts_ok, upd; simpl; apply Forall_insert; [exact Hok | lia]|].
  split; [reflexivity|].
  split; [rewrite (pages_in_upd _ _ c) by exact Hc; lia|].
  split; [eapply at_upd_eq; exact Hc|].
  split; [intros j Hj Hne; apply at_upd_ne; auto|].
  split; [nia | exact Hi].
Qed.

(** Charging [2 ^ order] pages to a node whose counters already account
    for them. *)
Lemma charge_pages (order : Z) (nmi nmi1 : numa_mem_info) :
  node_ok nmi -> counts_ok nmi1 -> 0 <= order ->
  free_pages nmi1 = free_pages nmi ->
  pages_in 0 (free_count nmi1) = pages_in 0 (free_count nmi) - 2 ^ order ->
  node_ok (add_free_pages (- Z.shiftl 1 order) nmi1).
Proof.
  intros Hnode Hok1 Hord Hfp Hpg.
  pose proof (node_ok_nonneg _ Hnode) as Hnn. destruct Hnode as (Hacc & Hok & Hlt).
  assert (H1 : 0 <= pages_in 0 (free_count nmi1)).
  { apply pages_in_nonneg; [lia|]. eapply Forall_impl; [exact Hok1|]. simpl. intros; lia. }
  assert (Hp : 0 < 2 ^ order) by (apply Z.pow_pos_nonneg; lia).
  unfold accounted in Hacc.
  assert (Hu : u64 (free_pages nmi1 + - 2 ^ order) = free_pages nmi - 2 ^ order).
  { unfold u64. rewrite Hfp. rewrite Z.mod_small; lia. }
  unfold node_ok, accounted, counts_ok, add_free_pages. simpl.
  rewrite Z.shiftl_1_l, Hu. split; [lia|]. split; [exact Hok1 | lia].
Qed.

Lemma take_first_ok (node order : Z) (st st' : mm_state) (pg : Z) :
  all_nodes_ok st ->
  take_first node order st = Some (Some (st', pg)) ->
  all_nodes_ok st'.
Proof.
  intros Hall. unfold take_first.
  destruct (get_node node st) as [nmi|] eqn:Hn; [simpl | discriminate].
  destruct (at_ (free_count nmi) order) as [c|] eqn:Hc; [simpl | discriminate].
  destruct (Z.gtb_spec c 0) as [Hpos|]; [|discriminate].
  destruct (at_ (free_list nmi) order) as [l|] eqn:Hl; [simpl | discriminate].
  destruct (head l) as [pg0|]; [simpl | discriminate].
  rewrite get_node_list_del, Hn. simpl.
  destruct (add_free_count order (-1) (unlink pg0 nmi)) as [nmi1|] eqn:Hd;
    [simpl | discriminate].
  intros E. injection E as <- <-.
  pose proof (get_node_ok _ _ _ Hall Hn) as Hnode.
  destruct (dec_count order c (unlink pg0 nmi) nmi1) as (H1 & H2 & H3 & _ & _ & _ & H4);
    [apply Hnode | exact Hc | lia | exact Hd |].
  apply all_ok_set_node; [apply all_ok_list_del, Hall|].
  apply (charge_pages order nmi nmi1);
    [exact Hnode | exact H1 | exact H4 | exact H2 | exact H3].
Qed.

(** What a successful [take_first] does to its node: [2 ^ order] pages
    fewer in the 64-bit counter, no page descriptor written, array shapes
    kept. *)
Lemma take_first_effect (node order : Z) (st st' : mm_state) (pg : Z)
      (nmi : numa_mem_info) :
  get_node node st = Some nmi ->
  take_first node order st = Some (Some (st', pg)) ->
  exists nmi',
    get_node node st' = Some nmi' /\
    free_pages nmi' = u64 (free_pages nmi - 2 ^ order) /\
    mem_map st' = mem_map st /\
    0 <= order /\
    (Z.to_nat order < length (free_list nmi'))%nat /\
    (Z.to_nat order < length (free_count nmi'))%nat.
Proof.
  intros Hn. unfold take_first. rewrite Hn. simpl.
  destruct (at_ (free_count nmi) order) as [c|] eqn:Hc; [simpl | discriminate].
  destruct (Z.gtb_spec c 0) as [Hpos|]; [|discriminate].
  destruct (at_ (free_list nmi) order) as [l|] eqn:Hl; [simpl | discriminate].
  destruct (head l) as [pg0|]; [simpl | discriminate].
  rewrite get_node_list_del, Hn. simpl.
  unfold add_free_count. simpl. rewrite Hc. simpl.
  intros E. injection E as <- <-.
  pose proof (at_Some _ _ _ Hc) as [Hord Hlc].
  pose proof (at_Some _ _ _ Hl) as [_ Hll].
  eexists. split.
  { eapply get_node_set_node. rewrite get_node_list_del, Hn. reflexivity. }
  simpl. rewrite Z.shiftl_1_l. split; [reflexivity|].
  split; [reflexivity|]. split; [exact Hord|].
  split.
  - rewrite length_map. apply lookup_lt_is_Some_1. eauto.
  - unfold upd. rewrite length_insert. apply lookup_lt_is_Some_1. eauto.
Qed.

(** [numa_alloc_pages_strict] re-establishes the accounting invariant of
    every node. *)
Lemma numa_alloc_pages_strict_ok (node order : Z) (st st' : mm_state) (r : option Z) :
  all_nodes_ok st ->
  numa_alloc_pages_strict node order st = Some (st', r) ->
  all_nodes_ok st'.
Proof.
  intros Hall. unfold numa_alloc_pages_strict.
  destruct (node >=? num_nodes (topo st)).
  { intros E. injection E as <- <-. exact Hall. }
  destruct (take_first node order st) as [[[st1 pg]|]|] eqn:Ht; simpl;
    [| |discriminate]; intros E; injection E as <- <-; [|exact Hall].
  eapply take_first_ok; eauto.
Qed.

(** Splitting: each round puts one upper half of order [order + s] on its
    list. *)
Lemma split_block_counts (pg order : Z) (steps : nat) (nmi nmi' : numa_mem_info) :
  0 <= order -> counts_ok nmi ->
  (forall j, order <= j < order + Z.of_nat steps -> at_ (free_count nmi) j = Some 0) ->
  split_block pg order steps nmi = Some nmi' ->
  counts_ok nmi' /\
  free_pages nmi' = free_pages nmi /\
  pages_in 0 (free_count nmi') =
    pages_in 0 (free_count nmi) + 2 ^ (order + Z.of_nat steps) - 2 ^ order.
Proof.
  intros Hord. revert nmi. induction steps as [|s IH]; intros nmi Hok Hz; simpl.
  - intros E. injection E as <-. rewrite Z.add_0_r. repeat split; [exact Hok | lia].
  - unfold list_add at 1.
    destruct (at_ (free_list nmi) (order + Z.of_nat s)) as [l|]; [simpl | discriminate].
    unfold add_free_count at 1. simpl.
    rewrite (Hz (order + Z.of_nat s)) by lia. simpl.
    intros E. apply IH in E.
    + simpl in E. destruct E as (H1 & H2 & H3). split; [exact H1|]. split; [exact H2|].
      rewrite H3. rewrite (pages_in_upd _ _ 0) by (apply Hz; lia).
      replace (order + Z.of_nat (S s)) with (Z.succ (order + Z.of_nat s)) by lia.
      rewrite Z.pow_succ_r by lia. change (u32 (0 + 1)) with 1. lia.
    + unfold counts_ok, upd. simpl. apply Forall_insert; [exact Hok|].
      change (u32 (0 + 1)) with 1. lia.
    + intros j Hj. simpl. rewrite at_upd_ne by lia. apply Hz. lia.
Qed.

Section Alloc.

Variable MAX_ORDER : Z.
Variable alloc_pages : Z -> option Z.

Lemma split_higher_ok (node order i : Z) (fuel : nat) (st st' : mm_state) (pg : Z)
      (nmi : numa_mem_info) :
  all_nodes_ok st -> 0 <= order < i ->
  get_node node st = Some nmi ->
  (forall j, order <= j < i -> at_ (free_count nmi) j = Some 0) ->
  split_higher node order i fuel st = Some (Some (st', pg)) ->
  all_nodes_ok st'.
Proof.
  intros Hall. revert i. induction fuel as [|fuel IH]; intros i Hi Hn Hz; simpl;
    [discriminate|].
  rewrite Hn. simpl.
  destruct (at_ (free_count nmi) i) as [c|] eqn:Hc; [simpl | discriminate].
  pose proof (get_node_ok _ _ _ Hall Hn) as Hnode.
  destruct (Z.gtb_spec c 0) as [Hpos|Hle].
  - destruct (at_ (free_list nmi) i) as [l|]; [simpl | discriminate].
    destruct (head l) as [pg0|]; [simpl | discriminate].
    rewrite get_node_list_del, Hn. simpl.
    destruct (add_free_count i (-1) (unlink pg0 nmi)) as [nmi1|] eqn:Hd;
      [simpl | discriminate].
    destruct (split_block pg0 order (Z.to_nat (i - order)) nmi1) as [nmi2|] eqn:Hs;
      [simpl | discriminate].
    intros E. injection E as <- <-.
    destruct (dec_count i c (unlink pg0 nmi) nmi1) as (H1 & H2 & H3 & _ & H5 & _ & _);
      [apply Hnode | exact Hc | lia | exact Hd |].
    destruct (split_block_counts pg0 order (Z.to_nat (i - order)) nmi1 nmi2)
      as (K1 & K2 & K3); [lia | exact H1 | | exact Hs |].
    { intros j Hj. rewrite H5 by lia. apply Hz. lia. }
    apply all_ok_set_node; [apply all_ok_list_del, Hall|].
    apply (charge_pages order nmi nmi2);
      [exact Hnode | exact K1 | lia | rewrite K2, H2; reflexivity |].
    rewrite K3, H3. simpl. replace (order + Z.of_nat (Z.to_nat (i - order))) with i by lia.
    lia.
  - apply IH; [lia | exact Hn |].
    intros j Hj. destruct (Z.eq_dec j i) as [->|]; [|apply Hz; lia].
    assert (Hc32 : 0 <= c < 2 ^ 32).
    { destruct Hnode as (_ & Hok & _). unfold counts_ok in Hok.
      rewrite Forall_forall in Hok. apply Hok. apply at_Some in Hc.
      apply list_elem_of_lookup. exists (Z.to_nat i). tauto. }
    rewrite Hc. f_equal. lia.
Qed.

Lemma try_fallback_ok (node order i : Z) (fuel : nat) (st st' : mm_state) (r : option Z) :
  all_nodes_ok st ->
  try_fallback node order i fuel st = Some (st', r) ->
  all_nodes_ok st'.
Proof.
  revert i st. induction fuel as [|fuel IH]; intros i st Hall; simpl.
  - intros E. injection E as <- <-. exact Hall.
  - destruct (at_ (fallback (topo st)) node) as [row|]; [simpl | discriminate].
    destruct (at_ row i) as [fnode|]; [simpl | discriminate].
    destruct (numa_alloc_pages_strict fnode order st) as [[st1 [ptr|]]|] eqn:Hs;
      [simpl | simpl | discriminate].
    + intros E. injection E as <- <-. eapply numa_alloc_pages_strict_ok; eauto.
    + apply IH. eapply numa_alloc_pages_strict_ok; eauto.
Qed.

(** [numa_alloc_pages] re-establishes the accounting invariant of every
    node, whichever of its three alternatives serves the request. *)
Lemma numa_alloc_pages_ok (node order : Z) (st st' : mm_state) (r : option Z) :
  all_nodes_ok st -> 0 <= order ->
  numa_alloc_pages MAX_ORDER alloc_pages node order st = Some (st', r) ->
  all_nodes_ok st'.
Proof.
  intros Hall Hord. unfold numa_alloc_pages.
  destruct (numa_enabled st); simpl; [|intros E; injection E as <- <-; exact Hall].
  destruct (take_first node order st) as [[[st1 pg]|]|] eqn:Ht; simpl;
    [| |discriminate].
  { intros E. injection E as <- <-. eapply take_first_ok; eauto. }
  assert (Hz : exists nmi, get_node node st = Some nmi /\
                           at_ (free_count nmi) order = Some 0).
  { unfold take_first in Ht.
    destruct (get_node node st) as [nmi|] eqn:Hn; [simpl in Ht | discriminate].
    destruct (at_ (free_count nmi) order) as [c|] eqn:Hc; [simpl in Ht | discriminate].
    exists nmi. split; [reflexivity|].
    destruct (Z.gtb_spec c 0) as [Hpos|Hle].
    - destruct (at_ (free_list nmi) order); [simpl in Ht | discriminate].
      destruct (head l); [simpl in Ht | discriminate].
      rewrite get_node_list_del, Hn in Ht. simpl in Ht.
      destruct (add_free_count order (-1) (unlink z nmi)); discriminate.
    - pose proof (get_node_ok _ _ _ Hall Hn) as (_ & Hok & _).
      unfold counts_ok in Hok. rewrite Forall_forall in Hok.
      assert (0 <= c < 2 ^ 32).
      { apply Hok. apply at_Some in Hc. apply list_elem_of_lookup.
        exists (Z.to_nat order). tauto. }
      rewrite Hc. f_equal. lia. }
  destruct Hz as (nmi & Hn & Hc0).
  destruct (split_higher node order (order + 1) _ st) as [[[st1 pg]|]|] eqn:Hs; simpl;
    [| |discriminate].
  - intros E. injection E as <- <-.
    eapply (split_higher_ok node order (order + 1)); eauto; [lia|].
    intros j Hj. replace j with order by lia. exact Hc0.
  - apply try_fallback_ok. exact Hall.
Qed.

End Alloc.

Section Release.

Variable MAX_ORDER : Z.
Variable PAGE_FLAG_BUDDY : Z.

(** The first round of the merge loop finds nothing to merge: the order is
    already the highest, or the buddy is not flagged free at this order. *)
Definition no_merge (ptr ord : Z) (st : mm_state) : Prop :=
  MAX_ORDER - 1 <= ord \/
  exists buddy,
    mem_map st !! Z.lxor ptr (Z.shiftl 1 ord) = Some buddy /\
    tst (flags buddy) PAGE_FLAG_BUDDY && (order buddy =? ord) = false.

Lemma merge_buddies_none (node ptr ord : Z) (fuel : nat) (st : mm_state) :
  no_merge ptr ord st ->
  merge_buddies MAX_ORDER PAGE_FLAG_BUDDY node ptr ord fuel st = Some (st, ptr, ord).
Proof.
  intros H. destruct fuel as [|fuel]; [reflexivity|]. simpl.
  destruct (Z.ltb_spec ord (MAX_ORDER - 1)) as [Hlt|]; [|reflexivity].
  destruct H as [H | (buddy & Hb & Hf)]; [lia|].
  rewrite Hb. simpl. rewrite Hf. reflexivity.
Qed.

(** Without a merge the release adds the block to its list and
    [2 ^ ord] to [free_pages]. *)
Lemma numa_free_pages_no_merge (ptr ord : Z) (st : mm_state) (p : page)
      (nmi : numa_mem_info) :
  mem_map st !! ptr = Some p ->
  get_node (numa_node p) st = Some nmi ->
  0 <= ord ->
  (Z.to_nat ord < length (free_list nmi))%nat ->
  (Z.to_nat ord < length (free_count nmi))%nat ->
  no_merge ptr ord st ->
  exists st' nmi' c,
    numa_free_pages MAX_ORDER PAGE_FLAG_BUDDY ptr ord st = Some st' /\
    get_node (numa_node p) st' = Some nmi' /\
    at_ (free_count nmi) ord = Some c /\
    free_count nmi' = upd (free_count nmi) ord (u32 (c + 1)) /\
    free_pages nmi' = u64 (free_pages nmi + 2 ^ ord).
Proof.
  intros Hp Hn Hord Hll Hlc Hnm.
  destruct (lookup_lt_is_Some_2 _ _ Hll) as [l Hl].
  destruct (lookup_lt_is_Some_2 _ _ Hlc) as [c Hc].
  assert (Hal : at_ (free_list nmi) ord = Some l).
  { unfold at_. destruct (Z.ltb_spec ord 0); [lia | exact Hl]. }
  assert (Hac : at_ (free_count nmi) ord = Some c).
  { unfold at_. destruct (Z.ltb_spec ord 0); [lia | exact Hc]. }
  unfold numa_free_pages. rewrite Hp. simpl. rewrite Hn. simpl.
  rewrite merge_buddies_none by exact Hnm. simpl. rewrite Hp. simpl.
  rewrite get_node_set_page, Hn. simpl.
  unfold list_add. rewrite Hal. simpl.
  unfold add_free_count. simpl. rewrite Hac. simpl.
  eexists _, _, c. split; [reflexivity|]. split.
  { eapply get_node_set_node. rewrite get_node_set_page. exact Hn. }
  split; [reflexivity|]. simpl. rewrite Z.shiftl_1_l. split; reflexivity.
Qed.

(** Without a merge, and with room in the counters, the release
    re-establishes the accounting invariant of every node. *)
Lemma numa_free_pages_no_merge_ok (ptr ord : Z) (st st' : mm_state) (p : page)
      (nmi : numa_mem_info) (c : Z) :
  all_nodes_ok st ->
  mem_map st !! ptr = Some p ->
  get_node (numa_node p) st = Some nmi ->
  at_ (free_count nmi) ord = Some c ->
  c + 1 < 2 ^ 32 -> free_pages nmi + 2 ^ ord < 2 ^ 64 ->
  no_merge ptr ord st ->
  numa_free_pages MAX_ORDER PAGE_FLAG_BUDDY ptr ord st = Some st' ->
  all_nodes_ok st'.
Proof.
  intros Hall Hp Hn Hc Hc32 Hfp Hnm.
  pose proof (get_node_ok _ _ _ Hall Hn) as Hnode.
  pose proof (node_ok_nonneg _ Hnode) as Hnn.
  pose proof (at_Some _ _ _ Hc) as [Hord Hlc].
  unfold numa_free_pages. rewrite Hp. simpl. rewrite Hn. simpl.
  rewrite merge_buddies_none by exact Hnm. simpl. rewrite Hp. simpl.
  rewrite get_node_set_page, Hn. simpl.
  unfold list_add.
  destruct (at_ (free_list nmi) ord) as [l|]; [simpl | discriminate].
  unfold add_free_count. simpl. rewrite Hc. simpl.
  intros E. injection E as <-.
  apply all_ok_set_node; [exact Hall|].
  destruct Hnode as (Hacc & Hok & Hlt). unfold accounted in Hacc.
  assert (Hc0 : 0 <= c).
  { unfold counts_ok in Hok. rewrite Forall_forall in Hok.
    apply (Hok c). apply list_elem_of_lookup. eauto. }
  assert (Hpw : 0 < 2 ^ ord) by (apply Z.pow_pos_nonneg; lia).
  unfold node_ok, accounted, counts_ok. simpl. rewrite Z.shiftl_1_l.
  replace (u32 (c + 1)) with (c + 1) by (unfold u32; rewrite Z.mod_small; lia).
  replace (u64 (free_pages nmi + 2 ^ ord)) with (free_pages nmi + 2 ^ ord)
    by (unfold u64; rewrite Z.mod_small; lia).
  rewrite (pages_in_upd _ _ c) by exact Hc.
  split; [lia|]. split; [|lia].
  unfold upd. apply Forall_insert; [exact Hok | lia].
Qed.

(** An allocation served from [free_list[ord]] followed by the release of
    the returned block returns [free_pages] to its value before the
    allocation, provided the release does not merge. Nothing is asked of
    the node but that [free_pages] is a value of its 64-bit field: the
    accounting invariant need not hold. *)
Lemma round_trip_without_merge (node ord : Z) (st st1 : mm_state) (pg : Z)
      (nmi : numa_mem_info) (p : page) :
  get_node node st = Some nmi -> 0 <= free_pages nmi < 2 ^ 64 ->
  take_first node ord st = Some (Some (st1, pg)) ->
  mem_map st !! pg = Some p -> numa_node p = node ->
  no_merge pg ord st1 ->
  exists st2 nmi2,
    numa_free_pages MAX_ORDER PAGE_FLAG_BUDDY pg ord st1 = Some st2 /\
    get_node node st2 = Some nmi2 /\
    free_pages nmi2 = free_pages nmi.
Proof.
  intros Hn Hrange Ht Hp Hpn Hnm.
  destruct (take_first_effect _ _ _ _ _ _ Hn Ht)
    as (n1 & Hn1 & Hfp1 & Hmm & Hord & Hll & Hlc).
  rewrite <- Hmm in Hp. subst node.
  destruct (numa_free_pages_no_merge pg ord st1 p n1 Hp Hn1 Hord Hll Hlc Hnm)
    as (st2 & n2 & c & Hf & Hn2 & _ & _ & Hfp2).
  exists st2, n2. split; [exact Hf|]. split; [exact Hn2|].
  rewrite Hfp2, Hfp1. unfold u64. rewrite Zplus_mod_idemp_l.
  replace (free_pages nmi - 2 ^ ord + 2 ^ ord) with (free_pages nmi) by ring.
  apply Z.mod_small. exact Hrange.
Qed.

End Release.

(** ** NUMA page accounting: where it is lost

    The examples run the allocator with [MAX_ORDER = 11] and
    [PAGE_FLAG_BUDDY = 1 << 0]; what they show needs only [MAX_ORDER >= 2]
    and a non-zero flag. NUMA is enabled, so the regular allocator behind
    [alloc_pages] is never reached. *)

Definition numa_alloc (node order : Z) (st : mm_state) : option (mm_state * option Z) :=
  numa_alloc_pages 11 (fun _ => None) node order st.

Definition numa_free (ptr order : Z) (st : mm_state) : option mm_state :=
  numa_free_pages 11 1 ptr order st.

Definition untouched_page (node : Z) : page :=
  {| flags := 0; order := 0; numa_node := node |}.

Definition empty_node (first last : Z) : numa_mem_info :=
  {| start_pfn := first; end_pfn := last; free_pages := 0;
     total_pages := last - first;
     free_list := replicate 11 []; free_count := replicate 11 0 |}.

(** Two nodes of four pages each, nothing on any free list yet. *)
Definition boot_mm : mm_state :=
  {| topo := {| num_nodes := 2;
                nodes := [empty_node 0 4; empty_node 4 8];
                distance := [[10; 20]; [20; 10]];
                fallback := [[0; 1]; [1; 0]] |};
     numa_enabled := true;
     mem_map := list_to_map
                  [(0, untouched_page 0); (1, untouched_page 0);
                   (2, untouched_page 0); (3, untouched_page 0);
                   (4, untouched_page 1); (5, untouched_page 1);
                   (6, untouched_page 1); (7, untouched_page 1)] |}.

(** C3. Page 0 is released at order 0 into the empty node 0: the
    accounting invariant holds ([free_pages = 1 = 1 * 2^0]). Page 1 is then
    released at order 0: it merges with its buddy into one block of order
    1, the counters account for 2 pages, but [free_pages] is 3, because the
    final [free_pages += (1 << order)] uses the order reached by the merge
    loop. The invariant does not hold on exit. *)
Theorem numa_free_pages_merge_overcounts :
  exists st1 n1 st2 n2,
    numa_free 0 0 boot_mm = Some st1 /\
    get_node 0 st1 = Some n1 /\
    accounted n1 /\
    numa_free 1 0 st1 = Some st2 /\
    get_node 0 st2 = Some n2 /\
    free_count n2 = [0; 1; 0; 0; 0; 0; 0; 0; 0; 0; 0] /\
    pages_in 0 (free_count n2) = 2 /\
    free_pages n2 = 3 /\
    accountedb n2 = false.
Proof.
  do 4 eexists.
  split; [vm_compute; reflexivity|].
  split; [vm_compute; reflexivity|].
  split; [vm_compute; reflexivity|].
  split; [vm_compute; reflexivity|].
  split; [vm_compute; reflexivity|].
  repeat split.
Qed.

(** Node 0 holds one free block of order 1 at page frame 0, accounted for
    correctly. Page 1 still carries [PAGE_FLAG_BUDDY] with order 0 from an
    earlier release: allocation takes a page off its list without clearing
    the flag. *)
Definition split_ready_mm : mm_state :=
  {| topo := {| num_nodes := 2;
                nodes := [{| start_pfn := 0; end_pfn := 4; free_pages := 2;
                             total_pages := 4;
                             free_list := [[]; [0]; []; []; []; []; []; []; []; []; []];
                             free_count := [0; 1; 0; 0; 0; 0; 0; 0; 0; 0; 0] |};
                          empty_node 4 8];
                distance := [[10; 20]; [20; 10]];
                fallback := [[0; 1]; [1; 0]] |};
     numa_enabled := true;
     mem_map := list_to_map
                  [(0, {| flags := 1; order := 1; numa_node := 0 |});
                   (1, {| flags := 1; order := 0; numa_node := 0 |});
                   (2, untouched_page 0); (3, untouched_page 0);
                   (4, untouched_page 1); (5, untouched_page 1);
                   (6, untouched_page 1); (7, untouched_page 1)] |}.

(** That state arises from the empty node through the allocator's own
    entry points: page 1 is released and allocated again, then the
    two-page block at frame 0 is released at order 1. *)
Example split_ready_reachable :
  (st ← numa_free 1 0 boot_mm;
   r ← numa_alloc 0 0 st;
   numa_free 0 1 r.1) = Some split_ready_mm.
Proof. vm_compute. reflexivity. Qed.

(** C4. In [split_ready_mm] an order-0 allocation on node 0 succeeds: the
    order-1 block is split, page 0 is returned and [free_pages] drops from
    2 to 1. Releasing page 0 at order 0 merges it with page 1 again and
    adds [1 << 1]: [free_pages] ends at 3, not at its value before the
    allocation. *)
Theorem alloc_free_round_trip_overcounts :
  exists n0 st1 n1 st2 n2,
    get_node 0 split_ready_mm = Some n0 /\
    accounted n0 /\
    free_pages n0 = 2 /\
    numa_alloc 0 0 split_ready_mm = Some (st1, Some 0) /\
    get_node 0 st1 = Some n1 /\
    free_pages n1 = 1 /\
    numa_free 0 0 st1 = Some st2 /\
    get_node 0 st2 = Some n2 /\
    free_pages n2 = 3.
Proof.
  do 5 eexists.
  split; [vm_compute; reflexivity|].
  split; [vm_compute; reflexivity|].
  split; [reflexivity|].
  split; [vm_compute; reflexivity|].
  split; [vm_compute; reflexivity|].
  split; [reflexivity|].
  split; [vm_compute; reflexivity|].
  split; [vm_compute; reflexivity|].
  reflexivity.
Qed.

(** *** The allocator on the example states *)

Definition node_okb (nmi : numa_mem_info) : bool :=
  accountedb nmi
  && forallb (fun c => (0 <=? c) && (c <? 2 ^ 32)) (free_count nmi)
  && (free_pages nmi <? 2 ^ 64).

Lemma node_okb_spec (nmi : numa_mem_info) : node_okb nmi = true -> node_ok nmi.
Proof.
  unfold node_okb, node_ok, accountedb, accounted, counts_ok.
  rewrite !andb_true_iff, Z.eqb_eq, Z.ltb_lt, forallb_forall.
  intros [[H1 H2] H3]. split; [exact H1|]. split; [|exact H3].
  apply Forall_forall. intros c Hc. apply list_elem_of_In, H2 in Hc.
  apply andb_true_iff in Hc. lia.
Qed.

Lemma all_nodes_okb_spec (st : mm_state) :
  forallb node_okb (nodes (topo st)) = true -> all_nodes_ok st.
Proof.
  unfold all_nodes_ok. rewrite forallb_forall. intros H.
  apply Forall_forall. intros n Hn. apply node_okb_spec, H, list_elem_of_In, Hn.
Qed.

Lemma numa_alloc_pages_ok_witness :
  exists st', numa_alloc 0 0 split_ready_mm = Some (st', Some 0) /\ all_nodes_ok st'.
Proof.
  eexists. split; [vm_compute; reflexivity|].
  eapply (numa_alloc_pages_ok 11 (fun _ => None) 0 0 split_ready_mm).
  - apply all_nodes_okb_spec. reflexivity.
  - lia.
  - vm_compute. reflexivity.
Defined.

(** Node 0 with page 0 free at order 0. *)
Definition one_page_mm : mm_state :=
  {| topo := {| num_nodes := 2;
                nodes := [{| start_pfn := 0; end_pfn := 4; free_pages := 1;
                             total_pages := 4;
                             free_list := [[0]; []; []; []; []; []; []; []; []; []; []];
                             free_count := [1; 0; 0; 0; 0; 0; 0; 0; 0; 0; 0] |};
                          empty_node 4 8];
                distance := [[10; 20]; [20; 10]];
                fallback := [[0; 1]; [1; 0]] |};
     numa_enabled := true;
     mem_map := list_to_map
                  [(0, {| flags := 1; order := 0; numa_node := 0 |});
                   (1, untouched_page 0);
                   (2, untouched_page 0); (3, untouched_page 0);
                   (4, untouched_page 1); (5, untouched_page 1);
                   (6, untouched_page 1); (7, untouched_page 1)] |}.

Example one_page_reachable : numa_free 0 0 boot_mm = Some one_page_mm.
Proof. vm_compute. reflexivity. Qed.

(** Node 0 after pages 0 and 1 were released at order 0: the two merged
    into a block of order 1 and [free_pages] stands at 3, one more than the
    counters account for. *)
Definition overcounted_mm : mm_state :=
  default boot_mm (st ← numa_free 0 0 boot_mm; numa_free 1 0 st).

Definition overcounted_node : numa_mem_info :=
  default (empty_node 0 4) (get_node 0 overcounted_mm).

Definition overcounted_taken : mm_state :=
  default overcounted_mm (r ← take_first 0 1 overcounted_mm; fst <$> r).

(** In [one_page_mm] the buddy of page 0 is not flagged free: the round
    trip returns [free_pages] to 1. In [overcounted_mm], where the
    accounting invariant does not hold, the buddy of the order-1 block at
    page 0 is not flagged free either, and the round trip at order 1
    returns [free_pages] to 3. *)
Lemma round_trip_without_merge_witness :
  (exists st1 st2 nmi2,
     take_first 0 0 one_page_mm = Some (Some (st1, 0)) /\
     numa_free 0 0 st1 = Some st2 /\
     get_node 0 st2 = Some nmi2 /\
     free_pages nmi2 = 1) /\
  (accountedb overcounted_node = false /\
   take_first 0 1 overcounted_mm = Some (Some (overcounted_taken, 0)) /\
   exists st2 nmi2,
     numa_free 0 1 overcounted_taken = Some st2 /\
     get_node 0 st2 = Some nmi2 /\
     free_pages nmi2 = 3).
Proof.
  split.
  - eexists.
    destruct (round_trip_without_merge 11 1 0 0 one_page_mm
                (set_node 0 (add_free_pages (-1)
                   (set_free_count [0; 0; 0; 0; 0; 0; 0; 0; 0; 0; 0]
                      (unlink 0 {| start_pfn := 0; end_pfn := 4; free_pages := 1;
                                   total_pages := 4;
                                   free_list := [[0]; []; []; []; []; []; []; []; []; []; []];
                                   free_count := [1; 0; 0; 0; 0; 0; 0; 0; 0; 0; 0] |})))
                   (list_del 0 one_page_mm))
                0
                {| start_pfn := 0; end_pfn := 4; free_pages := 1; total_pages := 4;
                   free_list := [[0]; []; []; []; []; []; []; []; []; []; []];
                   free_count := [1; 0; 0; 0; 0; 0; 0; 0; 0; 0; 0] |}
                {| flags := 1; order := 0; numa_node := 0 |})
      as (st2 & nmi2 & H1 & H2 & H3).
    + reflexivity.
    + simpl. lia.
    + vm_compute. reflexivity.
    + reflexivity.
    + reflexivity.
    + right. exists (untouched_page 0). split; reflexivity.
    + exists st2, nmi2. split; [vm_compute; reflexivity|]. auto.
  - assert (Ht : take_first 0 1 overcounted_mm = Some (Some (overcounted_taken, 0)))
      by (vm_compute; reflexivity).
    split; [vm_compute; reflexivity|]. split; [exact Ht|].
    destruct (round_trip_without_merge 11 1 0 1 overcounted_mm overcounted_taken 0
                overcounted_node {| flags := 1; order := 1; numa_node := 0 |})
      as (st2 & nmi2 & H1 & H2 & H3).
    + vm_compute. reflexivity.
    + vm_compute. split; [discriminate | reflexivity].
    + exact Ht.
    + vm_compute. reflexivity.
    + reflexivity.
    + right. exists (untouched_page 0). split; vm_compute; reflexivity.
    + exists st2, nmi2. split; [exact H1|]. split; [exact H2|]. rewrite H3. reflexivity.
Defined.

End NumaProofs.

(** ** Ticket lock, read-write lock and sequence lock *)

Module LockProofs.

Import Atomic Spinlock SpinlockProofs.

Lemma head_range (l : spinlock) : 0 <= head l < 2 ^ 16.
Proof. rewrite head_mod. apply Z.mod_pos_bound. lia. Qed.

Lemma tail_range (l : spinlock) : 0 <= head_tail l < 2 ^ 32 -> 0 <= tail l < 2 ^ 16.
Proof.
  intros H. rewrite tail_div. split; [apply Z.div_pos; lia|].
  apply Z.div_lt_upper_bound; lia.
Qed.

(** The word made of a tail half and a head half. *)
Lemma halves_word (t h : Z) :
  0 <= t < 2 ^ 16 -> 0 <= h < 2 ^ 16 ->
  Z.lor (Z.shiftl t 16) h = t * 2 ^ 16 + h.
Proof.
  intros Ht Hh. rewrite Z.shiftl_mul_pow2 by lia.
  rewrite <- Z.lxor_lor, <- Z.add_nocarry_lxor; [reflexivity| |].
  all: apply Z.bits_inj'; intros n Hn; rewrite Z.land_spec, Z.bits_0;
    destruct (Z_lt_ge_dec n 16);
    [ rewrite Z.mul_pow2_bits_low by lia; reflexivity
    | rewrite (testbit_above h 16 n) by lia; apply andb_false_r ].
Qed.

Lemma halves (t h : Z) :
  0 <= t < 2 ^ 16 -> 0 <= h < 2 ^ 16 ->
  head {| head_tail := Z.lor (Z.shiftl t 16) h |} = h /\
  tail {| head_tail := Z.lor (Z.shiftl t 16) h |} = t /\
  0 <= Z.lor (Z.shiftl t 16) h < 2 ^ 32.
Proof.
  intros Ht Hh. rewrite head_mod, tail_div. simpl head_tail.
  rewrite halves_word by assumption.
  rewrite Z.add_comm, Z.mod_add, Z.div_add, Z.mod_small, Z.div_small by lia.
  lia.
Qed.

Lemma u16_range (x : Z) : 0 <= u16 x < 2 ^ 16.
Proof. apply Z.mod_pos_bound. lia. Qed.

Lemma take_ticket_spec (l : spinlock) :
  0 <= head_tail l < 2 ^ 32 ->
  fst (take_ticket l) = tail l /\
  head (snd (take_ticket l)) = head l /\
  tail (snd (take_ticket l)) = (tail l + 1) mod 2 ^ 16 /\
  0 <= head_tail (snd (take_ticket l)) < 2 ^ 32.
Proof.
  intros Hw. unfold take_ticket. simpl fst. simpl snd.
  destruct (halves (u16 (tail l + 1)) (head l) (u16_range _) (head_range l))
    as (Hh & Ht & Hr).
  rewrite Hh, Ht. auto.
Qed.

Lemma spin_unlock_spec (l : spinlock) :
  0 <= head_tail l < 2 ^ 32 ->
  head (spin_unlock l) = (head l + 1) mod 2 ^ 16 /\
  tail (spin_unlock l) = tail l /\
  0 <= head_tail (spin_unlock l) < 2 ^ 32.
Proof.
  intros Hw. unfold spin_unlock.
  destruct (halves (tail l) (u16 (head l + 1)) (tail_range l Hw) (u16_range _))
    as (Hh & Ht & Hr).
  rewrite Hh, Ht. auto.
Qed.

Lemma spin_is_locked_spec (l : spinlock) :
  spin_is_locked l = if head l =? tail l then 0 else 1.
Proof.
  unfold spin_is_locked, atomic_load_n. fold (tail l). fold (head l).
  rewrite (Z.eqb_sym (tail l)). destruct (head l =? tail l); reflexivity.
Qed.

Lemma spin_wait_served (fuel : nat) (ticket : Z) (l : spinlock) :
  head l = ticket -> spin_wait (S fuel) ticket l = Some l.
Proof. intros H. simpl. rewrite H, Z.eqb_refl. reflexivity. Qed.

Lemma spin_wait_not_served (fuel : nat) (ticket : Z) (l : spinlock) :
  head l <> ticket -> spin_wait fuel ticket l = None.
Proof.
  intros H. induction fuel as [|fuel IH]; [reflexivity|]. simpl.
  destruct (Z.eqb_spec (head l) ticket); [contradiction | exact IH].
Qed.

(** [spin_lock] on a free lock: the ticket taken is the one being served. *)
Lemma spin_lock_free (fuel : nat) (l : spinlock) :
  0 <= head_tail l < 2 ^ 32 -> head l = tail l ->
  exists l1,
    spin_lock (S fuel) l = Some l1 /\
    head l1 = head l /\ tail l1 = (tail l + 1) mod 2 ^ 16 /\
    0 <= head_tail l1 < 2 ^ 32.
Proof.
  intros Hw Hfree.
  destruct (take_ticket_spec l Hw) as (Hk & Hh & Ht & Hw1).
  unfold spin_lock. destruct (take_ticket l) as [ticket l1].
  simpl in Hk, Hh, Ht, Hw1. subst ticket.
  exists l1. split; [apply spin_wait_served; congruence | auto].
Qed.

(** A lock whose tail is one ticket ahead of its head is held, and one
    release frees it. *)
Lemma held_by_one (l1 : spinlock) (h : Z) :
  0 <= head_tail l1 < 2 ^ 32 -> 0 <= h < 2 ^ 16 ->
  head l1 = h -> tail l1 = (h + 1) mod 2 ^ 16 ->
  head l1 <> tail l1 /\
  spin_is_locked l1 = 1 /\
  spin_is_locked (spin_unlock l1) = 0.
Proof.
  intros Hw Hr Hh Ht.
  assert (Hne : head l1 <> tail l1).
  { rewrite Hh, Ht. intros E. symmetry in E. revert E.
    Z.div_mod_to_equations. lia. }
  destruct (spin_unlock_spec l1 Hw) as (Hh2 & Ht2 & _).
  split; [exact Hne|]. rewrite !spin_is_locked_spec.
  split; [destruct (Z.eqb_spec (head l1) (tail l1)); congruence|].
  rewrite Hh2, Ht2, Hh, Ht, Z.eqb_refl. reflexivity.
Qed.

(** The lock taken and given back. [spin_lock] on a free lock returns at
    the first test with the lock held; [spin_trylock] by another CPU then
    fails and writes nothing; [spin_unlock] makes the lock free again, with
    both halves of the word one ticket further (modulo 2^16). *)
Theorem spin_lock_unlock (fuel : nat) (l : spinlock) :
  0 <= head_tail l < 2 ^ 32 -> head l = tail l ->
  exists l1,
    spin_lock (S fuel) l = Some l1 /\
    spin_is_locked l1 = 1 /\
    spin_trylock l1 = (0, l1) /\
    spin_is_locked (spin_unlock l1) = 0 /\
    head (spin_unlock l1) = (head l + 1) mod 2 ^ 16 /\
    tail (spin_unlock l1) = (tail l + 1) mod 2 ^ 16.
Proof.
  intros Hw Hfree.
  destruct (spin_lock_free fuel l Hw Hfree) as (l1 & Hl & Hh & Ht & Hw1).
  exists l1. split; [exact Hl|].
  assert (Ht' : tail l1 = (head l + 1) mod 2 ^ 16) by congruence.
  destruct (held_by_one l1 (head l) Hw1 (head_range l) Hh Ht') as (Hne & Hheld & Hrel).
  destruct (spin_unlock_spec l1 Hw1) as (Hh2 & Ht2 & _).
  split; [exact Hheld|]. split; [apply trylock_held, Hne|].
  split; [exact Hrel|]. rewrite Hh2, Ht2, Hh, Ht. auto.
Qed.

Lemma spin_lock_unlock_witness :
  exists l1,
    spin_lock 1 {| head_tail := 0x00050005 |} = Some l1 /\
    spin_is_locked l1 = 1 /\
    spin_trylock l1 = (0, l1) /\
    spin_is_locked (spin_unlock l1) = 0 /\
    head (spin_unlock l1) = (5 + 1) mod 2 ^ 16 /\
    tail (spin_unlock l1) = (5 + 1) mod 2 ^ 16.
Proof.
  apply (spin_lock_unlock 0 {| head_tail := 0x00050005 |}).
  - simpl. lia.
  - reflexivity.
Defined.

(** [spin_lock] on a lock that is held takes a ticket and then waits:
    with the lock word left alone it does not return, however many times
    the test is repeated. *)
Lemma spin_lock_held_waits (fuel : nat) (l : spinlock) :
  0 <= head_tail l < 2 ^ 32 -> head l <> tail l ->
  spin_lock fuel l = None.
Proof.
  intros Hw Hheld.
  destruct (take_ticket_spec l Hw) as (Hk & Hh & _).
  unfold spin_lock. destruct (take_ticket l) as [ticket l1].
  simpl in Hk, Hh. apply spin_wait_not_served. congruence.
Qed.

(** [k] releases by the CPUs ahead. *)
Lemma unlocks_spec (k : nat) (l : spinlock) :
  0 <= head_tail l < 2 ^ 32 ->
  head (Nat.iter k spin_unlock l) = (head l + Z.of_nat k) mod 2 ^ 16 /\
  tail (Nat.iter k spin_unlock l) = tail l /\
  0 <= head_tail (Nat.iter k spin_unlock l) < 2 ^ 32.
Proof.
  intros Hw. induction k as [|k IH].
  - simpl. rewrite Z.add_0_r, Z.mod_small by apply head_range. auto.
  - destruct IH as (Hh & Ht & Hr).
    change (Nat.iter (S k) spin_unlock l) with (spin_unlock (Nat.iter k spin_unlock l)).
    destruct (spin_unlock_spec _ Hr) as (Hh2 & Ht2 & Hr2).
    rewrite Hh2, Ht2, Hh, Ht. split; [|auto].
    rewrite Zplus_mod_idemp_l. f_equal. lia.
Qed.

(** Tickets are served in the order taken. A CPU takes its ticket while
    [(tail - head) mod 2^16] tickets are outstanding, held or waited for.
    After [k] releases by the CPUs ahead, none of which it can overtake, the
    test of [spin_lock] passes exactly when [k] has reached that number;
    before, the CPU goes on waiting. *)
Theorem ticket_served_in_order (l : spinlock) (k fuel : nat) :
  0 <= head_tail l < 2 ^ 32 ->
  Z.of_nat k <= (tail l - head l) mod 2 ^ 16 ->
  spin_wait (S fuel) (fst (take_ticket l))
    (Nat.iter k spin_unlock (snd (take_ticket l))) =
  if Z.of_nat k =? (tail l - head l) mod 2 ^ 16
  then Some (Nat.iter k spin_unlock (snd (take_ticket l)))
  else None.
Proof.
  intros Hw Hk.
  destruct (take_ticket_spec l Hw) as (Ht & Hh & _ & Hw1).
  destruct (unlocks_spec k _ Hw1) as (Hhk & _ & _).
  rewrite Hh in Hhk.
  pose proof (head_range l) as Hhr. pose proof (tail_range l Hw) as Htr.
  destruct (Z.eqb_spec (Z.of_nat k) ((tail l - head l) mod 2 ^ 16)) as [Hn|Hn].
  - apply spin_wait_served. rewrite Hhk, Ht.
    revert Hn. Z.div_mod_to_equations. lia.
  - apply spin_wait_not_served. rewrite Hhk, Ht.
    revert Hn Hk. Z.div_mod_to_equations. lia.
Qed.

Lemma ticket_served_in_order_witness :
  spin_wait 4 (fst (take_ticket {| head_tail := 0x00050003 |}))
    (Nat.iter 1 spin_unlock (snd (take_ticket {| head_tail := 0x00050003 |}))) = None /\
  spin_wait 4 (fst (take_ticket {| head_tail := 0x00050003 |}))
    (Nat.iter 2 spin_unlock (snd (take_ticket {| head_tail := 0x00050003 |}))) =
  Some (Nat.iter 2 spin_unlock (snd (take_ticket {| head_tail := 0x00050003 |}))).
Proof.
  split.
  - apply (ticket_served_in_order {| head_tail := 0x00050003 |} 1 3).
    + simpl. lia.
    + vm_compute. discriminate.
  - apply (ticket_served_in_order {| head_tail := 0x00050003 |} 2 3).
    + simpl. lia.
    + vm_compute. discriminate.
Defined.

Lemma s32_small (x : Z) : - 2 ^ 31 <= x < 2 ^ 31 -> s32 x = x.
Proof. intros H. unfold s32. rewrite Z.mod_small by lia. lia. Qed.

(** [spin_trylock] on a free lock, and the release that follows. *)
Lemma trylock_unlock_free (l : spinlock) :
  0 <= head_tail l < 2 ^ 32 -> head l = tail l ->
  exists l1,
    spin_trylock l = (1, l1) /\
    head l1 <> tail l1 /\
    spin_is_locked (spin_unlock l1) = 0.
Proof.
  intros Hw Hfree. rewrite (trylock_free _ Hfree).
  set (l1 := {| head_tail := u32 (head_tail l + 65536) |}).
  exists l1. split; [reflexivity|].
  assert (Hw1 : 0 <= head_tail l1 < 2 ^ 32) by (apply Z.mod_pos_bound; lia).
  assert (Hh : head l1 = head l /\ tail l1 = (tail l + 1) mod 2 ^ 16).
  { rewrite !head_mod, !tail_div. unfold l1, u32. simpl head_tail.
    Z.div_mod_to_equations. lia. }
  destruct Hh as [Hh Ht]. rewrite <- Hfree in Ht.
  destruct (held_by_one l1 (head l) Hw1 (head_range l) Hh Ht) as (Hne & _ & Hrel).
  auto.
Qed.

(** A writer excludes everybody. On an unlocked read-write lock
    [write_trylock] succeeds; from then until [write_unlock], [read_trylock]
    and [write_trylock] fail and leave the lock as it is, and [read_lock]
    does not return; [write_unlock] leaves the lock unlocked. *)
Theorem write_trylock_excludes (rw : rwlock) (fuel : nat) :
  0 <= head_tail (wait rw) < 2 ^ 32 -> head (wait rw) = tail (wait rw) ->
  counter (count rw) = 0 ->
  exists rw1,
    write_trylock rw = (1, rw1) /\
    read_trylock rw1 = (0, rw1) /\
    write_trylock rw1 = (0, rw1) /\
    read_lock fuel rw1 = None /\
    counter (count (write_unlock rw1)) = 0 /\
    spin_is_locked (wait (write_unlock rw1)) = 0.
Proof.
  intros Hw Hfree Hc.
  destruct (trylock_unlock_free _ Hw Hfree) as (w & Etl & Hne & Hfree2).
  unfold write_trylock at 1. rewrite Etl. simpl.
  unfold atomic_cmpxchg. rewrite Hc. simpl.
  eexists. split; [reflexivity|].
  split; [reflexivity|].
  split.
  { unfold write_trylock. cbn [Spinlock.wait Spinlock.count Spinlock.set_wait Spinlock.set_count].
    rewrite (trylock_held _ Hne). reflexivity. }
  split.
  { induction fuel as [|fuel IH]; [reflexivity | exact IH]. }
  split; [reflexivity|]. exact Hfree2.
Qed.

Lemma write_trylock_excludes_witness :
  exists rw1,
    write_trylock (rwlock_init {| count := {| counter := 7 |};
                                  wait := {| head_tail := 9 |} |}) = (1, rw1) /\
    read_trylock rw1 = (0, rw1) /\
    write_trylock rw1 = (0, rw1) /\
    read_lock 5 rw1 = None /\
    counter (count (write_unlock rw1)) = 0 /\
    spin_is_locked (wait (write_unlock rw1)) = 0.
Proof.
  apply (write_trylock_excludes
           (rwlock_init {| count := {| counter := 7 |}; wait := {| head_tail := 9 |} |}) 5).
  - simpl. lia.
  - reflexivity.
  - reflexivity.
Defined.

(** Readers exclude a writer, and only a writer. With [n >= 0] readers
    inside, [read_trylock] admits one more and [read_unlock] undoes it;
    while a reader is inside, [write_trylock] fails, leaves the reader count
    alone and gives the writers' spinlock back. *)
Theorem readers_exclude_writer (rw : rwlock) :
  0 <= head_tail (wait rw) < 2 ^ 32 -> head (wait rw) = tail (wait rw) ->
  0 <= counter (count rw) < 2 ^ 31 - 1 ->
  exists rw1,
    read_trylock rw = (1, rw1) /\
    counter (count rw1) = counter (count rw) + 1 /\
    read_unlock rw1 = rw /\
    fst (write_trylock rw1) = 0 /\
    count (snd (write_trylock rw1)) = count rw1 /\
    spin_is_locked (wait (snd (write_trylock rw1))) = 0.
Proof.
  intros Hw Hfree Hc. unfold read_trylock, atomic_read, atomic_cmpxchg.
  destruct (Z.geb_spec (counter (count rw)) 0); [|lia].
  rewrite !Z.eqb_refl. rewrite s32_small by lia.
  eexists. split; [reflexivity|].
  cbn [Spinlock.count Spinlock.set_count Atomic.counter Spinlock.wait].
  split; [reflexivity|].
  split.
  { unfold read_unlock, set_count, atomic_dec. cbn [Spinlock.count Atomic.counter Spinlock.wait].
    rewrite s32_small by lia. destruct rw as [[c] w]. simpl. do 2 f_equal. lia. }
  destruct (trylock_unlock_free _ Hw Hfree) as (w & Etl & _ & Hfree2).
  unfold write_trylock.
  cbn [Spinlock.count Spinlock.set_count Atomic.counter Spinlock.wait]. rewrite Etl.
  change (1 =? 0) with false. cbn [negb Spinlock.set_wait Spinlock.count Spinlock.wait].
  assert (Hcx : forall x y, x <> 0 ->
            atomic_cmpxchg {| counter := x |} 0 y = (x, {| counter := x |})).
  { intros x y Hx. unfold atomic_cmpxchg. cbn [Atomic.counter].
    destruct (Z.eqb_spec x 0); [contradiction | reflexivity]. }
  change (count (set_count {| counter := counter (count rw) + 1 |} rw))
    with {| counter := counter (count rw) + 1 |}.
  rewrite Hcx by lia.
  destruct (Z.eqb_spec (counter (count rw) + 1) 0); [lia|].
  cbn [fst snd Spinlock.set_wait Spinlock.set_count Spinlock.count Spinlock.wait]. auto.
Qed.

Lemma readers_exclude_writer_witness :
  exists rw1,
    read_trylock {| count := {| counter := 2 |}; wait := {| head_tail := 0x00030003 |} |}
      = (1, rw1) /\
    counter (count rw1) = 2 + 1 /\
    read_unlock rw1 =
      {| count := {| counter := 2 |}; wait := {| head_tail := 0x00030003 |} |} /\
    fst (write_trylock rw1) = 0 /\
    count (snd (write_trylock rw1)) = count rw1 /\
    spin_is_locked (wait (snd (write_trylock rw1))) = 0.
Proof.
  apply (readers_exclude_writer
           {| count := {| counter := 2 |}; wait := {| head_tail := 0x00030003 |} |}).
  - simpl. lia.
  - reflexivity.
  - simpl. lia.
Defined.

Lemma tst_one (x : Z) : tst x 1 = Z.odd x.
Proof.
  unfold tst. change 1 with (2 ^ 0) at 1.
  rewrite land_pow2_testbit by lia. rewrite Z.bit0_odd. apply negb_involutive.
Qed.

(** A reader does not get past an odd sequence number. *)
Lemma read_seqbegin_odd (fuel : nat) (s : Z) (l : spinlock) :
  Z.odd s = true -> read_seqbegin fuel {| sequence := s; lock := l |} = None.
Proof.
  intros Hs. induction fuel as [|n IH]; [reflexivity|].
  cbn [read_seqbegin sequence]. rewrite tst_one, Hs. exact IH.
Qed.

(** A write is seen by the readers. On a sequence lock at rest (even
    sequence number, lock free) a reader begins at once and is not told to
    retry. Between [write_seqlock] and [write_sequnlock] a reader that
    begins does not return; after [write_sequnlock] the reader that began
    before the write is told to retry, a new reader begins with the sequence
    number two further (modulo 2^32), and the lock is free. *)
Theorem seqlock_write_detected (sl : seqlock) (fuel : nat) :
  0 <= head_tail (lock sl) < 2 ^ 32 -> head (lock sl) = tail (lock sl) ->
  0 <= sequence sl < 2 ^ 32 -> Z.even (sequence sl) = true ->
  read_seqbegin (S fuel) sl = Some (sequence sl) /\
  read_seqretry sl (sequence sl) = 0 /\
  exists sl1,
    write_seqlock (S fuel) sl = Some sl1 /\
    read_seqbegin fuel sl1 = None /\
    read_seqretry (write_sequnlock sl1) (sequence sl) = 1 /\
    read_seqbegin (S fuel) (write_sequnlock sl1) = Some (u32 (sequence sl + 2)) /\
    spin_is_locked (lock (write_sequnlock sl1)) = 0.
Proof.
  intros Hw Hfree Hs Hev.
  assert (Hodd : Z.odd (sequence sl) = false) by (rewrite <- Z.negb_even, Hev; reflexivity).
  split; [simpl; rewrite tst_one, Hodd; reflexivity|].
  split; [unfold read_seqretry; rewrite Z.eqb_refl; reflexivity|].
  destruct (spin_lock_free fuel _ Hw Hfree) as (l1 & Hl & Hh1 & Ht1 & Hw1).
  rewrite <- Hfree in Ht1.
  destruct (held_by_one l1 _ Hw1 (head_range _) Hh1 Ht1) as (_ & _ & Hfree2).
  unfold write_seqlock. rewrite Hl. simpl.
  eexists. split; [reflexivity|].
  assert (E1 : u32 (sequence sl + 1) = sequence sl + 1 \/ sequence sl = 2 ^ 32 - 1).
  { unfold u32. destruct (Z.eq_dec (sequence sl) (2 ^ 32 - 1)); [auto|].
    left. apply Z.mod_small. lia. }
  destruct E1 as [E1 | E1]; [|rewrite E1 in Hev; discriminate].
  assert (E2 : u32 (u32 (sequence sl + 1) + 1) = u32 (sequence sl + 2)).
  { rewrite E1. f_equal. lia. }
  split.
  { apply read_seqbegin_odd. rewrite E1, Z.add_1_r, Z.odd_succ. exact Hev. }
  unfold write_sequnlock. simpl. rewrite E2.
  split.
  { unfold read_seqretry. simpl.
    destruct (Z.eqb_spec (u32 (sequence sl + 2)) (sequence sl)) as [E|]; [|reflexivity].
    exfalso. revert E. unfold u32. Z.div_mod_to_equations. lia. }
  split; [|exact Hfree2].
  rewrite tst_one.
  replace (Z.odd (u32 (sequence sl + 2))) with false; [reflexivity|].
  symmetry. unfold u32. rewrite <- Z.negb_even.
  replace (Z.even ((sequence sl + 2) mod 2 ^ 32)) with true; [reflexivity|].
  symmetry. rewrite Z.even_spec. apply Z.even_spec in Hev.
  destruct Hev as [m Hm].
  exists (((sequence sl + 2) mod 2 ^ 32) / 2).
  revert Hm. Z.div_mod_to_equations. lia.
Qed.

Lemma seqlock_write_detected_witness :
  read_seqbegin 3 {| sequence := 2 ^ 32 - 2; lock := {| head_tail := 0 |} |}
    = Some (2 ^ 32 - 2) /\
  read_seqretry {| sequence := 2 ^ 32 - 2; lock := {| head_tail := 0 |} |} (2 ^ 32 - 2) = 0 /\
  exists sl1,
    write_seqlock 3 {| sequence := 2 ^ 32 - 2; lock := {| head_tail := 0 |} |} = Some sl1 /\
    read_seqbegin 2 sl1 = None /\
    read_seqretry (write_sequnlock sl1) (2 ^ 32 - 2) = 1 /\
    read_seqbegin 3 (write_sequnlock sl1) = Some (u32 (2 ^ 32 - 2 + 2)) /\
    spin_is_locked (lock (write_sequnlock sl1)) = 0.
Proof.
  apply (seqlock_write_detected
           {| sequence := 2 ^ 32 - 2; lock := {| head_tail := 0 |} |} 2).
  - simpl. lia.
  - reflexivity.
  - simpl. lia.
  - reflexivity.
Defined.

(** A reference taken and dropped. On a counter below [INT_MAX],
    [atomic_inc_not_zero] returns at its first attempt: it returns 0 and
    writes nothing when the counter is 0, and otherwise returns 1 with the
    counter one higher; [atomic_dec_and_test] then returns 0 and puts the
    counter back. [atomic_dec_and_test] returns 1 exactly when it takes
    the counter from 1 to 0, after which [atomic_inc_not_zero] can no
    longer raise it. *)
Theorem atomic_reference_count (v : atomic_t) (fuel : nat) :
  - 2 ^ 31 <= counter v < 2 ^ 31 - 1 ->
  atomic_inc_not_zero (S fuel) v =
    Some (if counter v =? 0 then (0, v) else (1, {| counter := counter v + 1 |})) /\
  (counter v <> 0 ->
     atomic_dec_and_test {| counter := counter v + 1 |} = (0, v)) /\
  (fst (atomic_dec_and_test v) = 1 <-> counter v = 1) /\
  (counter v = 1 ->
     atomic_inc_not_zero (S fuel) (snd (atomic_dec_and_test v)) =
       Some (0, {| counter := 0 |})).
Proof.
  intros Hr. destruct v as [c]. cbn [counter] in *.
  unfold atomic_inc_not_zero, atomic_dec_and_test, atomic_dec_return,
    atomic_sub_return, atomic_read, atomic_cmpxchg.
  cbn [inc_not_zero_loop counter fst snd].
  split; [|split; [|split]].
  - destruct (Z.eqb_spec c 0) as [->|Hc]; [reflexivity|]. cbn [negb].
    unfold atomic_cmpxchg. cbn [counter]. rewrite !Z.eqb_refl.
    rewrite s32_small by lia. reflexivity.
  - intros Hc. replace (c + 1 - 1) with c by lia. rewrite s32_small by lia.
    destruct (Z.eqb_spec c 0); [contradiction | reflexivity].
  - destruct (Z.eqb_spec (s32 (c - 1)) 0) as [E|E]; cbn [fst].
    + split; [intros _ | reflexivity]. revert E. unfold s32.
      Z.div_mod_to_equations. lia.
    + split; [discriminate|]. intros ->. exfalso. apply E. reflexivity.
  - intros ->. reflexivity.
Qed.

Lemma atomic_reference_count_witness :
  atomic_inc_not_zero 1 {| counter := 2 |} = Some (1, {| counter := 3 |}) /\
  atomic_dec_and_test {| counter := 3 |} = (0, {| counter := 2 |}).
Proof.
  destruct (atomic_reference_count {| counter := 2 |} 0) as (H1 & H2 & _).
  - simpl. lia.
  - split; [exact H1|]. apply H2. discriminate.
Defined.

End LockProofs.

(** ** CPU masks and broadcast interrupts *)

Module IpiProofs.

Import Smp SmpProofs.


Lemma at_is_Some {A} (l : list A) (i : Z) :
  0 <= i < Z.of_nat (length l) -> exists x, at_ l i = Some x.
Proof.
  intros Hi. unfold at_. destruct (Z.ltb_spec i 0); [lia|].
  apply lookup_lt_is_Some_2. lia.
Qed.

Lemma cpu_isset_word (cpu : Z) (mask : list Z) (w : Z) :
  0 <= cpu -> at_ mask (cpu / 32) = Some w ->
  cpu_isset cpu mask = Z.testbit w (cpu mod 32).
Proof.
  intros Hc Hw. unfold cpu_isset. rewrite Hw. apply tst_bit32.
  apply Z.mod_pos_bound. lia.
Qed.

Lemma cpu_isset_upd (cpu c : Z) (mask : list Z) (w w' : Z) :
  0 <= cpu -> 0 <= c -> at_ mask (cpu / 32) = Some w ->
  (forall j, 0 <= j < 32 -> j <> cpu mod 32 -> Z.testbit w' j = Z.testbit w j) ->
  c <> cpu ->
  cpu_isset c (upd mask (cpu / 32) w') = cpu_isset c mask.
Proof.
  intros Hcpu Hc Hw Hbits Hne. unfold cpu_isset.
  destruct (Z.eq_dec (c / 32) (cpu / 32)) as [E|E].
  - rewrite E, (at_upd_eq _ _ _ _ Hw), Hw.
    assert (Hm : 0 <= c mod 32 < 32) by (apply Z.mod_pos_bound; lia).
    rewrite !tst_bit32 by exact Hm. apply Hbits; [exact Hm|].
    intros Em. apply Hne.
    rewrite (Z.div_mod c 32), (Z.div_mod cpu 32) by lia. congruence.
  - rewrite at_upd_ne; [reflexivity| | |congruence];
      apply Z.div_pos; lia.
Qed.

(** The CPU masks behave as sets of CPU numbers. For a CPU number inside
    the mask array, [cpu_set] and [cpu_clear] succeed; after [cpu_set] the
    CPU is a member for [cpu_isset], after [cpu_clear] it is not, and
    neither changes the membership of any other CPU. *)
Theorem cpu_mask_set_clear (cpu : Z) (mask : list Z) :
  0 <= cpu < 32 * Z.of_nat (length mask) ->
  exists m1 m2,
    cpu_set cpu mask = Some m1 /\ cpu_clear cpu mask = Some m2 /\
    cpu_isset cpu m1 = true /\ cpu_isset cpu m2 = false /\
    forall c, 0 <= c -> c <> cpu ->
      cpu_isset c m1 = cpu_isset c mask /\ cpu_isset c m2 = cpu_isset c mask.
Proof.
  intros Hcpu.
  assert (Hi : 0 <= cpu / 32 < Z.of_nat (length mask)).
  { split; [apply Z.div_pos; lia | apply Z.div_lt_upper_bound; lia]. }
  destruct (at_is_Some mask _ Hi) as [w Hw].
  assert (Hm : 0 <= cpu mod 32 < 32) by (apply Z.mod_pos_bound; lia).
  unfold cpu_set, cpu_clear. rewrite Hw. simpl.
  do 2 eexists. split; [reflexivity|]. split; [reflexivity|].
  split.
  { rewrite (cpu_isset_word cpu _ (Z.lor w (bit32 (cpu mod 32)))); [|lia|].
    - rewrite SchedProofs.testbit_lor_bit32 by lia.
      rewrite Z.eqb_refl. apply orb_true_r.
    - eapply at_upd_eq, Hw. }
  split.
  { rewrite (cpu_isset_word cpu _ (clear_bits w (bit32 (cpu mod 32)))); [|lia|].
    - rewrite SchedProofs.testbit_clear_bit32 by lia.
      rewrite Z.eqb_refl. apply andb_false_r.
    - eapply at_upd_eq, Hw. }
  intros c Hc Hne. split.
  - apply (cpu_isset_upd cpu c mask w); try lia; try assumption.
    intros j Hj Hjne. rewrite SchedProofs.testbit_lor_bit32 by lia.
    destruct (Z.eqb_spec (cpu mod 32) j); [congruence | apply orb_false_r].
  - apply (cpu_isset_upd cpu c mask w); try lia; try assumption.
    intros j Hj Hjne. rewrite SchedProofs.testbit_clear_bit32 by lia.
    destruct (Z.eqb_spec (cpu mod 32) j); [congruence | apply andb_true_r].
Qed.

Lemma cpu_mask_set_clear_witness :
  exists m1 m2,
    cpu_set 37 [0; 0xFFFFFFFF] = Some m1 /\ cpu_clear 37 [0; 0xFFFFFFFF] = Some m2 /\
    cpu_isset 37 m1 = true /\ cpu_isset 37 m2 = false /\
    forall c, 0 <= c -> c <> 37 ->
      cpu_isset c m1 = cpu_isset c [0; 0xFFFFFFFF] /\
      cpu_isset c m2 = cpu_isset c [0; 0xFFFFFFFF].
Proof. apply (cpu_mask_set_clear 37 [0; 0xFFFFFFFF]). simpl. lia. Defined.


(** The APIC id of CPU [i], where [smp_info.cpus[i]] is allocated. *)
Definition apic_id_at (st : smp_state) (i : Z) : Z :=
  match at_ (cpus st) i with
  | Some (Some ci) => apic_id ci
  | _ => 0
  end.

(** The CPUs a broadcast reaches: those below [cpu_count] that are online
    and pass [keep], in ascending order. *)
Definition ipi_targets (keep : Z -> bool) (st : smp_state) : list Z :=
  filter (fun i => keep i && cpu_isset i (online_mask st) = true)
    (zrange (cpu_count st)).

(** One [lapic_send_ipi] per target, in order. *)
Definition send_each (vector : Z) (targets : list Z) (st : smp_state) : smp_state :=
  fold_left (fun s i => lapic_send_ipi (apic_id_at st i) vector s) targets st.

(** [lapic_send_ipi] writes to the controller and to nothing else. *)
Lemma lapic_send_ipi_frame (dest vector : Z) (st : smp_state) :
  cpu_count (lapic_send_ipi dest vector st) = cpu_count st /\
  cpus (lapic_send_ipi dest vector st) = cpus st /\
  online_mask (lapic_send_ipi dest vector st) = online_mask st /\
  x2apic_enabled (lapic_send_ipi dest vector st) = x2apic_enabled st.
Proof. unfold lapic_send_ipi. destruct (x2apic_enabled st) eqn:E; cbn; rewrite ?E; auto. Qed.

Section Broadcast.

Variable keep : Z -> bool.
Variable ipi_type vector : Z.
Variable st0 : smp_state.

Hypothesis Hvec : ipi_vector ipi_type = Some vector.
Hypothesis Hcpus : forall i, 0 <= i < cpu_count st0 -> keep i = true ->
  cpu_isset i (online_mask st0) = true ->
  exists ci, at_ (cpus st0) i = Some (Some ci).

(** The loop shared by the two broadcasts. *)
Fixpoint send_loop (i : Z) (fuel : nat) (st : smp_state) : option smp_state :=
  match fuel with
  | O => Some st
  | S fuel' =>
      st ← (if keep i && cpu_isset i (online_mask st)
            then smp_send_ipi i ipi_type st else Some st);
      send_loop (i + 1) fuel' st
  end.

Lemma send_loop_spec (fuel : nat) (i : Z) (st : smp_state) :
  0 <= i -> i + Z.of_nat fuel = cpu_count st0 ->
  cpu_count st = cpu_count st0 -> cpus st = cpus st0 ->
  online_mask st = online_mask st0 ->
  send_loop i fuel st =
  Some (fold_left (fun s j => lapic_send_ipi (apic_id_at st0 j) vector s)
          (filter (fun j => keep j && cpu_isset j (online_mask st0) = true)
             (map Z.of_nat (seq (Z.to_nat i) fuel))) st).
Proof.
  revert i st. induction fuel as [|fuel IH]; intros i st Hi Hn Hc Hcp Hom.
  - reflexivity.
  - cbn [send_loop seq map]. rewrite Z2Nat.id by lia. rewrite Hom.
    replace (S (Z.to_nat i)) with (Z.to_nat (i + 1)) by lia.
    destruct (keep i && cpu_isset i (online_mask st0)) eqn:Ek.
    + rewrite filter_cons_True by (rewrite Ek; reflexivity).
      apply andb_true_iff in Ek. destruct Ek as [Ek1 Ek2].
      destruct (Hcpus i ltac:(lia) Ek1 Ek2) as [ci Hci].
      unfold smp_send_ipi at 1. rewrite Hc.
      destruct (Z.geb_spec i (cpu_count st0)); [lia|].
      rewrite Hvec, Hcp, Hci. cbn [mbind option_bind fold_left].
      unfold apic_id_at at 2. rewrite Hci.
      destruct (lapic_send_ipi_frame (apic_id ci) vector st) as (F1 & F2 & F3 & _).
      apply IH; try lia; congruence.
    + rewrite filter_cons_False by (rewrite Ek; discriminate).
      cbn [mbind option_bind]. apply IH; try lia; congruence.
Qed.

End Broadcast.

Lemma all_from_send_loop (t : Z) (fuel : nat) (i : Z) (st : smp_state) :
  smp_send_ipi_all_from i fuel t st = send_loop (fun _ => true) t i fuel st.
Proof.
  revert i st. induction fuel as [|fuel IH]; intros i st; [reflexivity|].
  cbn [smp_send_ipi_all_from send_loop andb].
  destruct (if cpu_isset i (online_mask st) then _ else _); [apply IH | reflexivity].
Qed.

Lemma others_from_send_loop (self t : Z) (fuel : nat) (i : Z) (st : smp_state) :
  smp_send_ipi_others_from self i fuel t st =
  send_loop (fun j => negb (j =? self)) t i fuel st.
Proof.
  revert i st. induction fuel as [|fuel IH]; intros i st; [reflexivity|].
  cbn [smp_send_ipi_others_from send_loop].
  destruct (if negb (i =? self) && cpu_isset i (online_mask st) then _ else _);
    [apply IH | reflexivity].
Qed.

(** What a broadcast puts on the wire. Let every online CPU below
    [cpu_count] have its [cpu_info] allocated. For an IPI type that has a
    vector, [smp_send_ipi_all] performs one [lapic_send_ipi] to the APIC id
    of every online CPU below [cpu_count], in ascending CPU order, and
    [smp_send_ipi_others] does the same leaving out the calling CPU;
    [smp_flush_tlb_all] sends the TLB vector to the others. *)
Theorem smp_broadcast_spec (self ipi_type vector : Z) (st : smp_state) :
  ipi_vector ipi_type = Some vector ->
  0 <= cpu_count st ->
  (forall i, 0 <= i < cpu_count st -> cpu_isset i (online_mask st) = true ->
     exists ci, at_ (cpus st) i = Some (Some ci)) ->
  smp_send_ipi_all ipi_type st =
    Some (send_each vector (ipi_targets (fun _ => true) st) st) /\
  smp_send_ipi_others self ipi_type st =
    Some (send_each vector (ipi_targets (fun i => negb (i =? self)) st) st) /\
  smp_flush_tlb_all self st =
    Some (send_each VECTOR_IPI_TLB (ipi_targets (fun i => negb (i =? self)) st) st).
Proof.
  intros Hv Hn Hc. unfold smp_flush_tlb_all, smp_send_ipi_all, smp_send_ipi_others.
  rewrite all_from_send_loop, !others_from_send_loop.
  split; [|split].
  - apply (send_loop_spec _ ipi_type vector st Hv); auto; lia.
  - apply (send_loop_spec _ ipi_type vector st Hv); auto; lia.
  - apply (send_loop_spec _ IPI_TLB_FLUSH VECTOR_IPI_TLB st); auto; lia.
Qed.

(** Three CPUs, the middle one neither online nor allocated. *)
Definition three_cpus : smp_state :=
  {| cpu_count := 3; cpu_possible := 3;
     cpus := [Some {| cpu_id := 0; apic_id := 0; cpu_state := 2; numa_node := 0;
                      current_thread := None |};
              None;
              Some {| cpu_id := 2; apic_id := 4; cpu_state := 2; numa_node := 0;
                      current_thread := None |}];
     online_mask := [5; 0; 0; 0; 0; 0; 0; 0];
     x2apic_enabled := true;
     hw_trace := [] |}.

Lemma smp_broadcast_spec_witness :
  smp_send_ipi_all IPI_STOP three_cpus =
    Some (send_each VECTOR_IPI_STOP (ipi_targets (fun _ => true) three_cpus) three_cpus) /\
  smp_send_ipi_others 0 IPI_STOP three_cpus =
    Some (send_each VECTOR_IPI_STOP
            (ipi_targets (fun i => negb (i =? 0)) three_cpus) three_cpus) /\
  smp_flush_tlb_all 0 three_cpus =
    Some (send_each VECTOR_IPI_TLB
            (ipi_targets (fun i => negb (i =? 0)) three_cpus) three_cpus).
Proof.
  apply (smp_broadcast_spec 0 IPI_STOP VECTOR_IPI_STOP three_cpus).
  - reflexivity.
  - simpl. lia.
  - intros i Hi Hon.
    assert (Hc : i = 0 \/ i = 1 \/ i = 2) by (simpl in Hi; lia).
    destruct Hc as [->|[->| ->]].
    + eexists. reflexivity.
    + vm_compute in Hon. discriminate.
    + eexists. reflexivity.
Defined.


End IpiProofs.

(** ** Bit search, preemption counter and load balancing *)

Module BalanceProofs.

Import Prio Sched SchedProofs.


(** [i] is the index of the least significant set bit of [w]. *)
Definition is_lsb (w i : Z) : Prop :=
  0 <= i /\ Z.testbit w i = true /\ forall j, 0 <= j < i -> Z.testbit w j = false.

Lemma is_lsb_unique (w i j : Z) : is_lsb w i -> is_lsb w j -> i = j.
Proof.
  intros (Hi & Hbi & Hli) (Hj & Hbj & Hlj).
  destruct (Z.lt_trichotomy i j) as [H | [H | H]]; [|assumption|].
  - rewrite (Hlj i) in Hbi by lia. discriminate.
  - rewrite (Hli j) in Hbj by lia. discriminate.
Qed.

Lemma lowest_bit_from_lsb (w : Z) (fuel : nat) (s i : Z) :
  0 <= s <= i -> i < s + Z.of_nat fuel ->
  Z.testbit w i = true -> (forall j, s <= j < i -> Z.testbit w j = false) ->
  lowest_bit_from w s fuel = i.
Proof.
  revert s. induction fuel as [|fuel IH]; intros s Hs Hi Hb Hl; [lia|].
  simpl. destruct (Z.eq_dec s i) as [->|Hne]; [rewrite Hb; reflexivity|].
  rewrite Hl by lia. apply IH; try lia; [assumption|].
  intros j Hj. apply Hl. lia.
Qed.

(** A non-zero 32-bit word has a lowest set bit, below 32. *)
Lemma lsb_exists (w : Z) : 0 < w < 2 ^ 32 -> exists i, i < 32 /\ is_lsb w i.
Proof.
  intros Hw.
  assert (H : forall n : nat,
             (forall j, 0 <= j < Z.of_nat n -> Z.testbit w j = false) \/
             exists i, i < Z.of_nat n /\ is_lsb w i).
  { induction n as [|n [IH | (i & Hi & IH)]].
    - left. intros j Hj. lia.
    - destruct (Z.testbit w (Z.of_nat n)) eqn:Hb.
      + right. exists (Z.of_nat n). split; [lia|]. repeat split; [lia|assumption|exact IH].
      + left. intros j Hj. destruct (Z.eq_dec j (Z.of_nat n)) as [->|]; [assumption|].
        apply IH. lia.
    - right. exists i. split; [lia | assumption]. }
  destruct (H 32%nat) as [Hz | (i & Hi & Hl)]; [|exists i; split; [lia | assumption]].
  exfalso. assert (w = 0); [|lia].
  apply Z.bits_inj'. intros j Hj. rewrite Z.bits_0.
  destruct (Z_lt_ge_dec j 32); [apply Hz; lia|].
  apply testbit_above with 32; lia.
Qed.

(** One halving: the lowest set bit was below [2 * k]; afterwards it is
    below [k], and [pos] has moved by what was shifted out. *)
Lemma skip_zeros_lsb (k pos w i : Z) :
  0 < k -> is_lsb w i -> i < 2 * k ->
  exists i', is_lsb (snd (skip_zeros (Z.ones k) k (pos, w))) i' /\ i' < k /\
             fst (skip_zeros (Z.ones k) k (pos, w)) + i' = pos + i.
Proof.
  intros Hk (Hi & Hb & Hl) Hik. unfold skip_zeros.
  rewrite Z.land_ones by lia.
  destruct (Z.eqb_spec (w mod 2 ^ k) 0) as [E|E]; simpl.
  - assert (Hlow : forall j, 0 <= j < k -> Z.testbit w j = false).
    { intros j Hj. rewrite <- (Z.mod_pow2_bits_low w k j) by lia.
      rewrite E. apply Z.bits_0. }
    assert (k <= i).
    { destruct (Z_lt_ge_dec i k); [|lia]. rewrite Hlow in Hb by lia. discriminate. }
    exists (i - k). split; [|lia]. repeat split; [lia| |].
    + rewrite Z.shiftr_spec by lia. replace (i - k + k) with i by lia. exact Hb.
    + intros j Hj. rewrite Z.shiftr_spec by lia. apply Hl. lia.
  - exists i. split; [repeat split; assumption|]. split; [|lia].
    destruct (Z_lt_ge_dec i k); [assumption|]. exfalso. apply E.
    apply Z.bits_inj'. intros j Hj. rewrite Z.bits_0.
    destruct (Z_lt_ge_dec j k).
    + rewrite Z.mod_pow2_bits_low by lia. apply Hl. lia.
    + apply Z.mod_pow2_bits_high. lia.
Qed.

(** The two variants of [find_first_bit] agree on every 32-bit word: the
    five halvings of the portable branch give the index that
    [__builtin_ffs(word) - 1] gives, which for a word other than 0 is the
    index of the lowest set bit, below 32; both give -1 for 0. *)
Theorem find_first_bit_portable_agrees (word : Z) :
  0 <= word < 2 ^ 32 ->
  find_first_bit_portable word = find_first_bit word /\
  (word <> 0 -> is_lsb word (find_first_bit word) /\ find_first_bit word < 32).
Proof.
  intros Hw. unfold find_first_bit_portable, find_first_bit.
  destruct (Z.eqb_spec word 0) as [E|E]; [split; [reflexivity | contradiction]|].
  destruct (lsb_exists word ltac:(lia)) as (i & Hi & Hl).
  assert (Hb : lowest_bit_from word 0 32 = i).
  { destruct Hl as (H0 & H1 & H2). apply lowest_bit_from_lsb; try lia; [assumption|].
    intros j Hj. apply H2. lia. }
  rewrite Hb. split; [|intros _; split; assumption].
  change 0xFFFF with (Z.ones 16). change 0xFF with (Z.ones 8).
  change 0xF with (Z.ones 4). change 0x3 with (Z.ones 2).
  destruct (skip_zeros_lsb 16 0 word i ltac:(lia) Hl ltac:(lia)) as (i1 & L1 & B1 & P1).
  destruct (skip_zeros (Z.ones 16) 16 (0, word)) as [p1 w1]. simpl in L1, P1.
  destruct (skip_zeros_lsb 8 p1 w1 i1 ltac:(lia) L1 ltac:(lia)) as (i2 & L2 & B2 & P2).
  destruct (skip_zeros (Z.ones 8) 8 (p1, w1)) as [p2 w2]. simpl in L2, P2.
  destruct (skip_zeros_lsb 4 p2 w2 i2 ltac:(lia) L2 ltac:(lia)) as (i3 & L3 & B3 & P3).
  destruct (skip_zeros (Z.ones 4) 4 (p2, w2)) as [p3 w3]. simpl in L3, P3.
  destruct (skip_zeros_lsb 2 p3 w3 i3 ltac:(lia) L3 ltac:(lia)) as (i4 & L4 & B4 & P4).
  destruct (skip_zeros (Z.ones 2) 2 (p3, w3)) as [p4 w4]. simpl in L4, P4.
  destruct L4 as (H0 & H1 & H2).
  change 1 with (2 ^ 0) at 1. rewrite land_pow2_testbit by lia.
  assert (Hc : i4 = 0 \/ i4 = 1) by lia. destruct Hc as [-> | ->].
  - rewrite H1. simpl. lia.
  - rewrite (H2 0) by lia. simpl. lia.
Qed.

Lemma find_first_bit_portable_agrees_witness :
  find_first_bit_portable 0x80000000 = find_first_bit 0x80000000 /\
  (0x80000000 <> 0 ->
     is_lsb 0x80000000 (find_first_bit 0x80000000) /\ find_first_bit 0x80000000 < 32).
Proof. apply (find_first_bit_portable_agrees 0x80000000). lia. Defined.


Lemma kernel_eta (k : kernel) :
  {| smp := smp k; runqueues := runqueues k; threads := threads k;
     this_cpu := this_cpu k; preempt_counter := preempt_counter k;
     time_ns := time_ns k; critsec_count := critsec_count k;
     critsec_lock := critsec_lock k |} = k.
Proof. destruct k. reflexivity. Qed.

Lemma set_preempt_count_undo (k : kernel) (c c' : Z) :
  preempt_count k = Some c ->
  set_preempt_count c (set_preempt_count c' k) = k.
Proof.
  intros H. unfold set_preempt_count, set_preempt_counter. simpl.
  rewrite (upd_upd_id _ _ _ _ H). apply kernel_eta.
Qed.

Lemma preempt_count_set (k : kernel) (c c' : Z) :
  preempt_count k = Some c -> preempt_count (set_preempt_count c' k) = Some c'.
Proof.
  intros H. unfold preempt_count, set_preempt_count. simpl. eapply at_upd_eq, H.
Qed.

(** [preempt_enable] after the counter was raised by one. *)
Lemma preempt_enable_undo (k : kernel) (c : Z) :
  preempt_count k = Some c ->
  c <> 0 \/ need_resched k = Some false ->
  preempt_enable (set_preempt_count (c + 1) k) = Some k.
Proof.
  intros Hc Hres. unfold preempt_enable.
  rewrite (preempt_count_set _ _ _ Hc). simpl.
  replace (c + 1 - 1) with c by lia.
  rewrite (set_preempt_count_undo _ _ _ Hc).
  destruct (Z.eqb_spec c 0) as [E|E]; [|reflexivity].
  destruct Hres as [Hres | Hres]; [contradiction|]. rewrite Hres. reflexivity.
Qed.

(** A section bracketed by [preempt_disable] and [preempt_enable] is not
    rescheduled and leaves no trace. With the counter of the calling CPU
    non-negative and below [INT_MAX], [preempt_disable] raises it by one;
    inside, [schedule] returns at once with the state unchanged while the
    current thread is running; [preempt_enable] then restores the state
    from before [preempt_disable], provided it does not take the counter
    to 0 with NEED_RESCHED set (when it calls [schedule]). *)
Theorem preempt_disable_enable (k : kernel) (c : Z) :
  preempt_count k = Some c -> 0 <= c < 2 ^ 31 - 1 ->
  c <> 0 \/ need_resched k = Some false ->
  exists k1,
    preempt_disable k = Some k1 /\
    preempt_count k1 = Some (c + 1) /\
    (forall tid t, current_thread k = Some (Some tid) ->
       threads k !! tid = Some t -> state t = THREAD_STATE_RUNNING ->
       schedule k1 = Some k1) /\
    preempt_enable k1 = Some k.
Proof.
  intros Hc Hpos Hres. unfold preempt_disable. rewrite Hc. simpl.
  eexists. split; [reflexivity|].
  pose proof (preempt_count_set _ _ (c + 1) Hc) as Hc1.
  split; [exact Hc1|]. split.
  - intros tid t Hcur Ht Hst. unfold schedule. rewrite Hc1. simpl.
    destruct (Z.gtb_spec (c + 1) 0); [|lia].
    change (current_thread (set_preempt_count (c + 1) k)) with (current_thread k).
    rewrite Hcur. simpl. rewrite Ht. simpl. rewrite Hst. reflexivity.
  - apply preempt_enable_undo; assumption.
Qed.

(** The boot state inside one preemption-disabled section already. *)
Definition nested_kernel : kernel := set_preempt_count 1 boot_kernel.

Lemma preempt_disable_enable_witness :
  exists k1,
    preempt_disable nested_kernel = Some k1 /\
    preempt_count k1 = Some 2 /\
    preempt_enable k1 = Some nested_kernel.
Proof.
  destruct (preempt_disable_enable nested_kernel 1) as (k1 & H1 & H2 & _ & H3).
  - reflexivity.
  - lia.
  - left. lia.
  - exists k1. auto.
Defined.


(** A CPU that [trigger_load_balance] looks at: below [cpu_count], not the
    calling CPU, and online. *)
Definition balance_peer (k : kernel) (cpu : Z) : Prop :=
  cpu <> this_cpu k /\ Smp.cpu_isset cpu (Smp.online_mask (smp k)) = true.

Lemma find_busiest_balanced (k : kernel) (fuel : nat) (cpu m b : Z) :
  (forall c, cpu <= c < cpu + Z.of_nat fuel -> balance_peer k c ->
     exists rq, get_rq c k = Some rq /\ nr_running rq <= m + 1) ->
  find_busiest k cpu fuel m b = Some (m, b).
Proof.
  revert cpu. induction fuel as [|fuel IH]; intros cpu H; [reflexivity|].
  assert (Hrest : find_busiest k (cpu + 1) fuel m b = Some (m, b)).
  { apply IH. intros c Hc. apply H. lia. }
  cbn [find_busiest].
  destruct (Z.eqb_spec cpu (this_cpu k)) as [E|E]; [exact Hrest|].
  destruct (Smp.cpu_isset cpu _) eqn:Eon; [|exact Hrest]. simpl.
  destruct (H cpu ltac:(lia) (conj E Eon)) as (rq & Hrq & Hload).
  rewrite Hrq. simpl. destruct (Z.gtb_spec (nr_running rq) (m + 1)); [lia | exact Hrest].
Qed.

(** A balanced system is left alone: when no other online CPU has more
    than one runnable thread more than the calling CPU,
    [trigger_load_balance], and so [idle_balance], changes nothing. *)
Theorem trigger_load_balance_balanced (k : kernel) (this_rq : run_queue) :
  get_rq (this_cpu k) k = Some this_rq ->
  (forall c, 0 <= c < Smp.cpu_count (smp k) -> balance_peer k c ->
     exists rq, get_rq c k = Some rq /\ nr_running rq <= nr_running this_rq + 1) ->
  trigger_load_balance k = Some k /\ idle_balance (this_cpu k) k = Some k.
Proof.
  intros Hthis H.
  assert (E : trigger_load_balance k = Some k).
  { unfold trigger_load_balance. rewrite Hthis. simpl.
    rewrite find_busiest_balanced.
    - simpl. rewrite Z.eqb_refl. reflexivity.
    - intros c Hc. apply H. lia. }
  split; [exact E | exact E].
Qed.

Lemma trigger_load_balance_balanced_witness :
  trigger_load_balance boot_kernel = Some boot_kernel /\
  idle_balance 0 boot_kernel = Some boot_kernel.
Proof.
  apply (trigger_load_balance_balanced boot_kernel (set_idle (Some 1) (init_run_queue 0))).
  - reflexivity.
  - intros c Hc [Hne _].
    assert (E : c = 1) by (simpl in Hc, Hne; lia). subst c.
    eexists. split; [reflexivity|]. simpl. lia.
Defined.

Lemma find_busiest_found (k : kernel) (fuel : nat) (cpu m b m' b' : Z) :
  find_busiest k cpu fuel m b = Some (m', b') ->
  (m' = m /\ b' = b) \/
  (cpu <= b' < cpu + Z.of_nat fuel /\ balance_peer k b' /\ m + 1 < m' /\
   exists rq, get_rq b' k = Some rq /\ nr_running rq = m').
Proof.
  revert cpu m b. induction fuel as [|fuel IH]; intros cpu m b.
  { simpl. intros E. injection E as <- <-. auto. }
  cbn [find_busiest].
  assert (Hskip : find_busiest k (cpu + 1) fuel m b = Some (m', b') ->
    (m' = m /\ b' = b) \/
    (cpu <= b' < cpu + Z.of_nat (S fuel) /\ balance_peer k b' /\ m + 1 < m' /\
     exists rq, get_rq b' k = Some rq /\ nr_running rq = m')).
  { intros E. destruct (IH _ _ _ E) as [?|(? & ? & ? & ?)]; [auto|].
    right. split; [lia|]. auto. }
  destruct (Z.eqb_spec cpu (this_cpu k)) as [E|E]; [exact Hskip|].
  destruct (Smp.cpu_isset cpu _) eqn:Eon; [|exact Hskip]. simpl.
  destruct (get_rq cpu k) as [rq|] eqn:Hrq; [simpl | discriminate].
  destruct (Z.gtb_spec (nr_running rq) (m + 1)); [|exact Hskip].
  intros E'. right. destruct (IH _ _ _ E') as [(-> & ->)|(? & ? & ? & ?)].
  - split; [lia|]. split; [split; assumption|]. split; [lia|]. eauto.
  - split; [lia|]. split; [assumption|]. split; [lia|]. assumption.
Qed.

Lemma first_migratable_found (k : kernel) (l : list Z) (tid : Z) :
  first_migratable k l = Some (Some tid) -> In tid l /\ migratable k tid = Some true.
Proof.
  induction l as [|x l IH]; [discriminate|]. simpl.
  destruct (migratable k x) as [[|]|] eqn:E; simpl; [| |discriminate].
  - intros E'. injection E' as <-. auto.
  - intros E'. destruct (IH E'). auto.
Qed.

Lemma scan_queues_p_found (k : kernel) (rq : run_queue) (c : Z) (fuel : nat)
      (p c' p' tid : Z) :
  scan_queues_p k rq c p fuel = Some (Some (c', p', tid)) ->
  c' = c /\ p <= p' < p + Z.of_nat fuel /\
  In tid (queue (get_queue rq c' p')) /\ migratable k tid = Some true.
Proof.
  revert p. induction fuel as [|fuel IH]; intros p; [discriminate|].
  cbn [scan_queues_p].
  destruct (first_migratable k _) as [[x|]|] eqn:E; simpl; [| |discriminate].
  - intros E'. injection E' as <- <- <-.
    destruct (first_migratable_found _ _ _ E). repeat split; try assumption; lia.
  - intros E'. destruct (IH _ E') as (? & ? & ? & ?). repeat split; try assumption; lia.
Qed.

Lemma scan_queues_c_found (k : kernel) (rq : run_queue) (fuel : nat)
      (c c' p' tid : Z) :
  scan_queues_c k rq c fuel = Some (Some (c', p', tid)) ->
  c <= c' < c + Z.of_nat fuel /\ 0 <= p' < PRIO_LEVELS_PER_CLASS /\
  In tid (queue (get_queue rq c' p')) /\ migratable k tid = Some true.
Proof.
  revert c. induction fuel as [|fuel IH]; intros c; [discriminate|].
  cbn [scan_queues_c].
  destruct (scan_queues_p k rq c 0 _) as [[[[c1 p1] t1]|]|] eqn:E; simpl; [| |discriminate].
  - intros E'. injection E' as <- <- <-.
    destruct (scan_queues_p_found _ _ _ _ _ _ _ _ E) as (-> & Hp & ? & ?).
    rewrite Z2Nat.id in Hp by (unfold PRIO_LEVELS_PER_CLASS; lia).
    repeat split; try assumption; lia.
  - intros E'. destruct (IH _ E') as (? & ? & ? & ?). repeat split; try assumption; lia.
Qed.

(** What [trigger_load_balance] may move. It either changes nothing or
    performs one migration step, and then the source is an online CPU other
    than the caller with more than [this_load + 1] runnable threads, and
    the thread moved was queued there, is allowed on the calling CPU by its
    affinity mask, is not bound, and last ran at least 1 ms ago. *)
Theorem load_balance_choice (k k' : kernel) :
  0 <= this_cpu k < 64 ->
  (forall tid t, threads k !! tid = Some t -> 0 <= cpu_affinity t < 2 ^ 64) ->
  trigger_load_balance k = Some k' ->
  k' = k \/
  exists busiest rq this_rq c p tid t,
    balance_peer k busiest /\ 0 <= busiest < Smp.cpu_count (smp k) /\
    get_rq busiest k = Some rq /\ get_rq (this_cpu k) k = Some this_rq /\
    nr_running this_rq + 1 < nr_running rq /\
    In tid (queue (get_queue rq c p)) /\
    threads k !! tid = Some t /\
    Z.testbit (cpu_affinity t) (this_cpu k) = true /\
    tst (flags t) THREAD_FLAG_BOUND = false /\
    1000000 <= u64 (time_ns k - last_run t) /\
    migrate_thread_step busiest c p tid k = Some k'.
Proof.
  intros Hthis Haff. unfold trigger_load_balance.
  destruct (get_rq (this_cpu k) k) as [this_rq|] eqn:Hrq;
    [cbn -[scan_queues_c migrate_thread_step find_busiest] | discriminate].
  destruct (find_busiest k 0 _ _ _) as [[m b]|] eqn:Hb;
    [cbn -[scan_queues_c migrate_thread_step find_busiest] | discriminate].
  destruct (Z.eqb_spec b (this_cpu k)) as [E|E].
  { intros E'. injection E' as <-. auto. }
  apply find_busiest_found in Hb.
  destruct Hb as [(_ & ->) | (Hr & Hpeer & Hm & rq & Hbrq & Hload)]; [contradiction|].
  rewrite Hbrq. cbn -[scan_queues_c migrate_thread_step].
  destruct (scan_queues_c k rq 0 _) as [[[[c p] tid]|]|] eqn:Hs;
    cbn -[migrate_thread_step]; [| |discriminate].
  2: { intros E'. injection E' as <-. auto. }
  intros Hstep. right.
  apply scan_queues_c_found in Hs. destruct Hs as (_ & _ & Hin & Hmig).
  unfold migratable in Hmig.
  destruct (threads k !! tid) as [t|] eqn:Ht; [simpl in Hmig | discriminate].
  injection Hmig as Hmig. apply andb_true_iff in Hmig. destruct Hmig as [Hmig H3].
  apply andb_true_iff in Hmig. destruct Hmig as [H1 H2].
  rewrite tst_bit64 in H1 by (eauto; lia).
  exists b, rq, this_rq, c, p, tid, t.
  split; [exact Hpeer|]. split; [lia|].
  split; [exact Hbrq|]. split; [reflexivity|]. split; [lia|].
  split; [exact Hin|]. split; [exact Ht|]. split; [exact H1|].
  split; [destruct (tst (flags t) THREAD_FLAG_BOUND); [discriminate | reflexivity]|].
  split; [|exact Hstep].
  destruct (Z.ltb_spec (u64 (time_ns k - last_run t)) 1000000); [discriminate | lia].
Qed.

(** The state [trigger_load_balance] leaves when called on [loaded]. *)
Definition rebalanced : kernel := default loaded (trigger_load_balance loaded).

Lemma load_balance_choice_witness :
  trigger_load_balance loaded = Some rebalanced /\
  (rebalanced = loaded \/
   exists busiest rq this_rq c p tid t,
     balance_peer loaded busiest /\ 0 <= busiest < Smp.cpu_count (smp loaded) /\
     get_rq busiest loaded = Some rq /\ get_rq (this_cpu loaded) loaded = Some this_rq /\
     nr_running this_rq + 1 < nr_running rq /\
     In tid (queue (get_queue rq c p)) /\
     threads loaded !! tid = Some t /\
     Z.testbit (cpu_affinity t) (this_cpu loaded) = true /\
     tst (flags t) THREAD_FLAG_BOUND = false /\
     1000000 <= u64 (time_ns loaded - last_run t) /\
     migrate_thread_step busiest c p tid loaded = Some rebalanced).
Proof.
  assert (E : trigger_load_balance loaded = Some rebalanced) by (vm_compute; reflexivity).
  split; [exact E|].
  apply (load_balance_choice loaded rebalanced).
  - vm_compute. split; [discriminate | reflexivity].
  - assert (Hall : forallb (fun '(_, t) => (0 <=? cpu_affinity t) && (cpu_affinity t <? 2 ^ 64))
                     (map_to_list (threads loaded)) = true) by (vm_compute; reflexivity).
    intros tid t Ht. rewrite forallb_forall in Hall.
    specialize (Hall (tid, t)). simpl in Hall.
    apply andb_true_iff in Hall; [lia|].
    apply list_elem_of_In, elem_of_map_to_list. exact Ht.
  - exact E.
Defined.

End BalanceProofs.

(** ** Priority boosts and the timer tick *)

Module TickProofs.

Import Prio Sched SchedProofs.


(** The priority [boost_thread_priority] stores. The sum of the base
    priority and the boost is reduced to a byte before the bounds are
    looked at: the result never exceeds [MAX_PRIORITY], it is the sum
    whenever that lies in [0, MAX_PRIORITY] and [MAX_PRIORITY] for sums up
    to 255; a negative sum is not raised to [MIN_PRIORITY] but comes out at
    128 or above, and a sum above 255 comes out 256 lower. *)
Theorem boosted_priority_cases (base boost : Z) :
  0 <= base <= MAX_PRIORITY -> -128 <= boost <= 127 ->
  0 <= boosted_priority base boost <= MAX_PRIORITY /\
  (0 <= base + boost <= MAX_PRIORITY -> boosted_priority base boost = base + boost) /\
  (MAX_PRIORITY < base + boost <= 255 -> boosted_priority base boost = MAX_PRIORITY) /\
  (base + boost < 0 ->
     boosted_priority base boost = Z.min MAX_PRIORITY (256 + (base + boost)) /\
     128 <= boosted_priority base boost) /\
  (255 < base + boost -> boosted_priority base boost = base + boost - 256).
Proof.
  unfold boosted_priority, MAX_PRIORITY, MIN_PRIORITY, NUM_SCHED_CLASSES,
    PRIO_LEVELS_PER_CLASS, u8.
  intros Hb Hd. change (5 * 32 - 1) with 159 in *.
  destruct (Z.gtb_spec ((base + boost) mod 2 ^ 8) 159);
    [destruct (Z.ltb_spec 159 0) | destruct (Z.ltb_spec ((base + boost) mod 2 ^ 8) 0)];
    Z.div_mod_to_equations; lia.
Qed.

Lemma boosted_priority_cases_witness :
  boosted_priority 3 (-5) = Z.min MAX_PRIORITY (256 + (3 + -5)) /\
  128 <= boosted_priority 3 (-5).
Proof.
  destruct (boosted_priority_cases 3 (-5)) as (_ & _ & _ & H & _).
  - unfold MAX_PRIORITY, NUM_SCHED_CLASSES, PRIO_LEVELS_PER_CLASS. lia.
  - lia.
  - apply H. lia.
Defined.

(** [n] ticks of the running thread. *)
Fixpoint ticks (n : nat) (t : thread) (b : boost) : thread * boost :=
  match n with
  | O => (t, b)
  | S n' => tick_thread (fst (ticks n' t b)) (snd (ticks n' t b))
  end.

Lemma tick_thread_base (t : thread) (b : boost) :
  base_priority (fst (tick_thread t b)) = base_priority t.
Proof.
  unfold tick_thread.
  destruct (timeslice t >? 0), (boost_ticks b >? 0); try reflexivity;
    destruct (boost_ticks b - 1 =? 0); reflexivity.
Qed.

Lemma tick_thread_boost (t : thread) (b : boost) :
  (boost_ticks b <= 0 ->
     dynamic_priority (fst (tick_thread t b)) = dynamic_priority t /\
     snd (tick_thread t b) = b) /\
  (boost_ticks b = 1 ->
     dynamic_priority (fst (tick_thread t b)) = base_priority t /\
     snd (tick_thread t b) = {| priority_boost := 0; boost_ticks := 0 |}) /\
  (1 < boost_ticks b ->
     dynamic_priority (fst (tick_thread t b)) = dynamic_priority t /\
     snd (tick_thread t b) =
       {| priority_boost := priority_boost b; boost_ticks := boost_ticks b - 1 |}).
Proof.
  unfold tick_thread.
  destruct (Z.gtb_spec (boost_ticks b) 0) as [Hp|Hp];
    [destruct (Z.eqb_spec (boost_ticks b - 1) 0) as [E|E]|];
    (split; [|split]); intros H; try lia;
    destruct (timeslice t >? 0); try rewrite E; auto.
Qed.

(** The thread and its boost fields as [boost_thread_priority] leaves
    them. *)
Definition boosted (t : thread) (boost : Z) : thread :=
  set_dynamic_priority (boosted_priority (base_priority t) boost) t.

Definition boost_for (amount : Z) (d : nat) : boost :=
  {| priority_boost := amount; boost_ticks := Z.of_nat d |}.

(** The boost as it decays under [tick_thread]. *)
Lemma ticks_after_boost (t : thread) (boost : Z) (d n : nat) :
  ((n < d)%nat ->
     dynamic_priority (fst (ticks n (boosted t boost) (boost_for boost d))) =
       boosted_priority (base_priority t) boost /\
     snd (ticks n (boosted t boost) (boost_for boost d)) =
       {| priority_boost := boost; boost_ticks := Z.of_nat (d - n) |}) /\
  ((1 <= d)%nat ->
     dynamic_priority (fst (ticks d (boosted t boost) (boost_for boost d))) =
       base_priority t /\
     snd (ticks d (boosted t boost) (boost_for boost d)) =
       {| priority_boost := 0; boost_ticks := 0 |}) /\
  (d = 0%nat ->
     dynamic_priority (fst (ticks n (boosted t boost) (boost_for boost d))) =
       boosted_priority (base_priority t) boost).
Proof.
  set (bt := boosted t boost). set (b := boost_for boost d).
  assert (Hbase : forall m, base_priority (fst (ticks m bt b)) = base_priority t).
  { induction m as [|m IH]; [reflexivity|].
    cbn [ticks]. rewrite tick_thread_base. exact IH. }
  assert (Hrun : forall m, (m < d)%nat ->
     dynamic_priority (fst (ticks m bt b)) = boosted_priority (base_priority t) boost /\
     snd (ticks m bt b) =
       {| priority_boost := boost; boost_ticks := Z.of_nat (d - m) |}).
  { induction m as [|m IH]; intros Hm.
    - split; [reflexivity|]. unfold b, boost_for. simpl. do 2 f_equal. lia.
    - destruct (IH ltac:(lia)) as [IH1 IH2]. cbn [ticks].
      destruct (tick_thread_boost (fst (ticks m bt b)) (snd (ticks m bt b)))
        as (_ & _ & H3).
      rewrite IH2 in H3 |- *. simpl in H3.
      destruct (H3 ltac:(lia)) as [H4 H5]. rewrite H4, H5, IH1.
      split; [reflexivity|]. f_equal. lia. }
  split; [apply Hrun|]. split.
  - intros Hd. destruct d as [|d]; [lia|].
    destruct (Hrun d ltac:(lia)) as [H1 H2]. cbn [ticks].
    destruct (tick_thread_boost (fst (ticks d bt b)) (snd (ticks d bt b)))
      as (_ & H3 & _).
    rewrite H2 in H3 |- *. simpl in H3.
    destruct (H3 ltac:(lia)) as [H4 H5]. rewrite H4, H5.
    split; [|reflexivity]. apply (Hbase d).
  - intros Hd. subst d.
    assert (Hb0 : forall m, snd (ticks m bt b) = b).
    { induction m as [|m IH]; [reflexivity|]. cbn [ticks].
      destruct (tick_thread_boost (fst (ticks m bt b)) (snd (ticks m bt b)))
        as (H3 & _ & _).
      rewrite IH in H3 |- *. destruct (H3 ltac:(simpl; lia)) as [_ H5]. exact H5. }
    induction n as [|n IH]; [reflexivity|]. cbn [ticks].
    destruct (tick_thread_boost (fst (ticks n bt b)) (snd (ticks n bt b)))
      as (H3 & _ & _).
    rewrite Hb0 in H3. destruct (H3 ltac:(simpl; lia)) as [H4 _].
    rewrite Hb0, H4. exact IH.
Qed.

(** A boost lasts as many ticks as the call receives. The duration
    reaches [boost_thread_priority] as a [uint8_t] and the boost as an
    [int8_t]; let [d] be the duration so converted (the argument modulo
    256). For [d >= 1] the thread keeps the boosted priority through its
    first [d - 1] ticks as the running thread, with the tick counter going
    down by one each time, and tick [d] puts the dynamic priority back to
    the base priority and clears the boost. For [d = 0] (an argument of 0,
    256, ...) no tick ever takes the boost back. *)
Theorem boost_expires (tid amount duration : Z) (d n : nat) (k k' : kernel)
    (ts ts' : tick_state) (t : thread) :
  threads k !! tid = Some t ->
  Z.of_nat d = u8 duration ->
  boost_thread_priority tid amount duration k ts = Some (k', ts') ->
  exists t1 b1,
    threads k' !! tid = Some t1 /\ boosts ts' !! tid = Some b1 /\
    ((n < d)%nat ->
       dynamic_priority (fst (ticks n t1 b1)) =
         boosted_priority (base_priority t) (s8 amount) /\
       snd (ticks n t1 b1) =
         {| priority_boost := s8 amount; boost_ticks := Z.of_nat (d - n) |}) /\
    ((1 <= d)%nat ->
       dynamic_priority (fst (ticks d t1 b1)) = base_priority t /\
       snd (ticks d t1 b1) = {| priority_boost := 0; boost_ticks := 0 |}) /\
    (d = 0%nat ->
       dynamic_priority (fst (ticks n t1 b1)) =
         boosted_priority (base_priority t) (s8 amount)).
Proof.
  intros Ht Hd. unfold boost_thread_priority. rewrite Ht. cbn [mbind option_bind].
  rewrite <- Hd. intros E. injection E as <- <-.
  exists (boosted t (s8 amount)), (boost_for (s8 amount) d).
  split; [apply lookup_insert_eq|]. split; [apply lookup_insert_eq|].
  apply ticks_after_boost.
Qed.

(** Thread 11 of the boot state boosted by 5 with a duration argument of
    259, which the call receives as 3; and with one of 256, received as
    0. *)
Definition idle_ticks : tick_state :=
  {| boosts := ∅; tick_count := [0; 0]; balance_interval := 100;
     need_balance := {| Atomic.counter := 0 |} |}.

Definition boosted_11 : kernel * tick_state :=
  default (boot_kernel, idle_ticks) (boost_thread_priority 11 5 259 boot_kernel idle_ticks).

Definition boosted_11_forever : kernel * tick_state :=
  default (boot_kernel, idle_ticks) (boost_thread_priority 11 5 256 boot_kernel idle_ticks).

Lemma boost_expires_witness :
  (exists t1 b1,
     threads (fst boosted_11) !! 11 = Some t1 /\
     boosts (snd boosted_11) !! 11 = Some b1 /\
     dynamic_priority (fst (ticks 2 t1 b1)) = 21 /\
     dynamic_priority (fst (ticks 3 t1 b1)) = 16) /\
  (exists t1 b1,
     threads (fst boosted_11_forever) !! 11 = Some t1 /\
     boosts (snd boosted_11_forever) !! 11 = Some b1 /\
     dynamic_priority (fst (ticks 256 t1 b1)) = 21).
Proof.
  split.
  - destruct (boost_expires 11 5 259 3 2 boot_kernel (fst boosted_11) idle_ticks
                (snd boosted_11) (mk_thread SCHED_CLASS_REGULAR 16 1 (2 ^ 64 - 1) 0))
      as (t1 & b1 & H1 & H2 & H3 & H4 & _).
    + vm_compute. reflexivity.
    + vm_compute. reflexivity.
    + vm_compute. reflexivity.
    + exists t1, b1. split; [exact H1|]. split; [exact H2|].
      destruct (H3 ltac:(lia)) as [H3a _]. destruct (H4 ltac:(lia)) as [H4a _].
      split; [rewrite H3a | rewrite H4a]; reflexivity.
  - destruct (boost_expires 11 5 256 0 256 boot_kernel (fst boosted_11_forever) idle_ticks
                (snd boosted_11_forever) (mk_thread SCHED_CLASS_REGULAR 16 1 (2 ^ 64 - 1) 0))
      as (t1 & b1 & H1 & H2 & _ & _ & H5).
    + vm_compute. reflexivity.
    + vm_compute. reflexivity.
    + vm_compute. reflexivity.
    + exists t1, b1. split; [exact H1|]. split; [exact H2|].
      rewrite (H5 eq_refl). reflexivity.
Defined.


Lemma get_rq_put_rq_ne (cpu cpu' : Z) (rq : run_queue) (k : kernel) :
  0 <= cpu -> 0 <= cpu' -> cpu <> cpu' ->
  get_rq cpu' (put_rq cpu rq k) = get_rq cpu' k.
Proof.
  intros H1 H2 Hne. unfold get_rq, put_rq. simpl. rewrite at_upd_ne by assumption.
  reflexivity.
Qed.

Lemma get_rq_nonneg (cpu : Z) (k : kernel) (rq : run_queue) :
  get_rq cpu k = Some rq -> 0 <= cpu.
Proof.
  unfold get_rq. destruct (at_ (runqueues k) cpu) eqn:E; [|discriminate].
  intros _. apply at_Some in E. tauto.
Qed.

Lemma set_need_resched_frame (k k' : kernel) :
  set_need_resched k = Some k' -> runqueues k' = runqueues k.
Proof.
  unfold set_need_resched.
  destruct (current_thread k) as [[tid|]|]; simpl; try discriminate.
  destruct (threads k !! tid); simpl; [|discriminate].
  intros E. injection E as <-. reflexivity.
Qed.

Lemma set_flags_id (t : thread) : set_flags (flags t) t = t.
Proof. destruct t. reflexivity. Qed.

(** The timer tick works on the running thread and on nothing queued.
    [sched_tick] leaves every run queue as it was apart from the clock of
    the local one (so the counting and bitmap invariant is kept), and, when
    the local CPU runs a thread other than its idle thread, takes that
    thread through one [tick_thread] step. *)
Theorem sched_tick_effect (k k' : kernel) (ts ts' : tick_state) :
  sched_tick k ts = Some (k', ts') ->
  (kernel_inv k -> kernel_inv k') /\
  (forall cpu rq, get_rq cpu k = Some rq ->
     exists rq', get_rq cpu k' = Some rq' /\
       queues rq' = queues rq /\ active_bitmap rq' = active_bitmap rq /\
       class_bitmap rq' = class_bitmap rq /\ nr_running rq' = nr_running rq /\
       current rq' = current rq /\ idle rq' = idle rq) /\
  (forall rq curr t b,
     get_rq (this_cpu k) k = Some rq -> current rq = Some curr ->
     idle rq <> Some curr ->
     threads k !! curr = Some t -> boosts ts !! curr = Some b ->
     boosts ts' !! curr = Some (snd (tick_thread t b)) /\
     exists t', threads k' !! curr = Some t' /\
       set_flags (flags t) t' = fst (tick_thread t b) /\
       (0 <= timeslice t <= 1 -> current_thread k = Some (Some curr) ->
        tst (flags t') THREAD_FLAG_NEED_RESCHED = true)).
Proof.
  unfold sched_tick.
  destruct (get_rq (this_cpu k) k) as [rq|] eqn:Hrq; [cbn [mbind option_bind] | discriminate].
  assert (Hsame : forall cpu rq0, get_rq cpu k = Some rq0 ->
            exists rq', get_rq cpu k = Some rq' /\
              queues rq' = queues rq0 /\ active_bitmap rq' = active_bitmap rq0 /\
              class_bitmap rq' = class_bitmap rq0 /\ nr_running rq' = nr_running rq0 /\
              current rq' = current rq0 /\ idle rq' = idle rq0).
  { intros cpu rq0 H. exists rq0. auto 10. }
  destruct (current rq) as [curr|] eqn:Hcur.
  2: { intros E. injection E as <- <-. split; [auto|]. split; [exact Hsame|].
       intros rq0 c t b H. congruence. }
  destruct (bool_decide (Some curr = idle rq)) eqn:Hidle.
  { intros E. injection E as <- <-. split; [auto|]. split; [exact Hsame|].
    intros rq0 c t b H1 H2 H3. apply bool_decide_eq_true in Hidle.
    exfalso. apply H3. congruence. }
  clear Hsame.
  destruct (at_ (tick_count ts) (this_cpu k)) as [tc|]; [cbn [mbind option_bind] | discriminate].
  set (k1 := put_rq (this_cpu k) (set_clock (time_ns k) rq) k).
  change (threads k1) with (threads k).
  destruct (threads k !! curr) as [t|] eqn:Ht; [cbn [mbind option_bind] | discriminate].
  cbn [boosts set_tick_count].
  destruct (boosts ts !! curr) as [b|] eqn:Hb; [cbn [mbind option_bind] | discriminate].
  destruct (tick_thread t b) as [t2 b2] eqn:Htick.
  set (k2 := put_thread curr t2 k1).
  set (ts2 := set_boosts _ _).
  assert (Hflags : flags t2 = flags t).
  { replace t2 with (fst (tick_thread t b)) by (rewrite Htick; reflexivity).
    unfold tick_thread.
    destruct (timeslice t >? 0), (boost_ticks b >? 0); try reflexivity;
      destruct (boost_ticks b - 1 =? 0); reflexivity. }
  assert (Hts : timeslice t2 = if timeslice t >? 0 then timeslice t - 1 else timeslice t).
  { replace t2 with (fst (tick_thread t b)) by (rewrite Htick; reflexivity).
    unfold tick_thread.
    destruct (timeslice t >? 0), (boost_ticks b >? 0); try reflexivity;
      destruct (boost_ticks b - 1 =? 0); reflexivity. }
  destruct (if timeslice t2 =? 0 then set_need_resched k2 else Some k2) as [k3|] eqn:Hk3;
    [cbn [mbind option_bind] | discriminate].
  assert (Hres : k' = k3 /\ boosts ts' = boosts ts2 ->
    (kernel_inv k -> kernel_inv k') /\
    (forall cpu rq0, get_rq cpu k = Some rq0 ->
       exists rq', get_rq cpu k' = Some rq' /\
         queues rq' = queues rq0 /\ active_bitmap rq' = active_bitmap rq0 /\
         class_bitmap rq' = class_bitmap rq0 /\ nr_running rq' = nr_running rq0 /\
         current rq' = current rq0 /\ idle rq' = idle rq0) /\
    (forall rq0 curr0 t0 b0,
       Some rq = Some rq0 -> current rq0 = Some curr0 -> idle rq0 <> Some curr0 ->
       threads k !! curr0 = Some t0 -> boosts ts !! curr0 = Some b0 ->
       boosts ts' !! curr0 = Some (snd (tick_thread t0 b0)) /\
       exists t', threads k' !! curr0 = Some t' /\
         set_flags (flags t0) t' = fst (tick_thread t0 b0) /\
         (0 <= timeslice t0 <= 1 -> current_thread k = Some (Some curr0) ->
          tst (flags t') THREAD_FLAG_NEED_RESCHED = true))).
  { intros [-> Hbo].
    assert (Hrqs : runqueues k3 = runqueues k1).
    { destruct (timeslice t2 =? 0).
      - apply set_need_resched_frame in Hk3. exact Hk3.
      - injection Hk3 as <-. reflexivity. }
    assert (Hget : forall cpu, get_rq cpu k3 = get_rq cpu k1).
    { intros cpu. unfold get_rq. rewrite Hrqs. reflexivity. }
    split.
    { intros Hinv. apply (kernel_inv_ext k1); [exact Hrqs|].
      apply kernel_inv_put_rq; [exact Hinv|].
      apply (rq_good_same rq); try reflexivity. eapply kernel_inv_get; eauto. }
    split.
    { intros cpu rq0 H0. rewrite Hget.
      pose proof (get_rq_nonneg _ _ _ H0) as Hc0.
      pose proof (get_rq_nonneg _ _ _ Hrq) as Hc1.
      destruct (Z.eq_dec cpu (this_cpu k)) as [->|Hne].
      - unfold k1. rewrite (get_rq_put_rq _ _ _ _ Hrq).
        replace rq0 with rq by congruence. eexists. split; [reflexivity|]. auto 10.
      - unfold k1. rewrite get_rq_put_rq_ne by (try lia; congruence).
        exists rq0. auto 10. }
    intros rq0 curr0 t0 b0 E0 Hc0 Hi0 Ht0 Hb0.
    injection E0 as <-. replace curr0 with curr in * by congruence.
    replace t0 with t in * by congruence. replace b0 with b in * by congruence.
    rewrite Htick. cbn [fst snd]. split.
    { rewrite Hbo. unfold ts2. cbn [boosts set_boosts]. apply lookup_insert_eq. }
    assert (Ht2 : set_flags (flags t) t2 = t2).
    { rewrite <- Hflags. apply set_flags_id. }
    destruct (Z.eqb_spec (timeslice t2) 0) as [Hz|Hz].
    - unfold set_need_resched in Hk3.
      change (current_thread k2) with (current_thread k) in Hk3.
      destruct (current_thread k) as [[cur|]|] eqn:Hct; simpl in Hk3; try discriminate.
      destruct (Z.eq_dec cur curr) as [->|Hne].
      + unfold k2 in Hk3 at 1. cbn [threads put_thread set_threads] in Hk3.
        rewrite lookup_insert_eq in Hk3. simpl in Hk3. injection Hk3 as <-.
        cbn [threads put_thread set_threads]. rewrite lookup_insert_eq.
        eexists. split; [reflexivity|]. split.
        * transitivity (set_flags (flags t) t2); [reflexivity | exact Ht2].
        * intros _ _. cbn [flags set_flags]. unfold tst, THREAD_FLAG_NEED_RESCHED.
          rewrite Z.shiftl_1_l. rewrite land_pow2_testbit by lia.
          rewrite Z.lor_spec, Z.pow2_bits_true by lia. rewrite orb_true_r. reflexivity.
      + unfold k2 in Hk3 at 1. cbn [threads put_thread set_threads] in Hk3.
        rewrite lookup_insert_ne in Hk3 by congruence.
        destruct (threads k !! cur) as [tc0|] eqn:Htc; simpl in Hk3; [|discriminate].
        injection Hk3 as <-. cbn [threads put_thread set_threads].
        rewrite lookup_insert_ne by congruence.
        unfold k2. cbn [threads put_thread set_threads]. rewrite lookup_insert_eq.
        exists t2. split; [reflexivity|]. split; [exact Ht2|].
        intros _ Hcc. congruence.
    - injection Hk3 as <-. unfold k2. cbn [threads put_thread set_threads].
      rewrite lookup_insert_eq. exists t2. split; [reflexivity|]. split; [exact Ht2|].
      intros Hsl _. exfalso. apply Hz. rewrite Hts.
      destruct (Z.gtb_spec (timeslice t) 0); lia. }
  destruct (balance_interval ts2 =? 0); [discriminate|].
  destruct (_ mod _ =? 0); intros E; injection E as <- <-; apply Hres; auto.
Qed.

(** CPU 0 runs thread 11, on the last tick of its time slice and of a
    boost. *)
Definition running_kernel : kernel :=
  put_thread 11 (set_timeslice 1 (mk_thread SCHED_CLASS_REGULAR 16 0 (2 ^ 64 - 1) 0))
    (put_rq 0 (set_current (Some 11) (set_idle (Some 1) (init_run_queue 0)))
       (default boot_kernel (set_cpu_current (Some 11) boot_kernel))).

Definition last_tick : tick_state :=
  {| boosts := {[ 11 := {| priority_boost := 4; boost_ticks := 1 |} ]};
     tick_count := [99; 0]; balance_interval := 100;
     need_balance := {| Atomic.counter := 0 |} |}.

Definition ticked : kernel * tick_state :=
  default (running_kernel, last_tick) (sched_tick running_kernel last_tick).

Lemma sched_tick_effect_witness :
  sched_tick running_kernel last_tick = Some ticked /\
  boosts (snd ticked) !! 11 = Some {| priority_boost := 0; boost_ticks := 0 |} /\
  exists t', threads (fst ticked) !! 11 = Some t' /\
    tst (flags t') THREAD_FLAG_NEED_RESCHED = true.
Proof.
  assert (E : sched_tick running_kernel last_tick = Some (fst ticked, snd ticked))
    by (vm_compute; reflexivity).
  split; [exact E|].
  destruct (sched_tick_effect running_kernel (fst ticked) last_tick (snd ticked) E)
    as (_ & _ & H).
  destruct (H (set_current (Some 11) (set_idle (Some 1) (init_run_queue 0))) 11
              (set_timeslice 1 (mk_thread SCHED_CLASS_REGULAR 16 0 (2 ^ 64 - 1) 0))
              {| priority_boost := 4; boost_ticks := 1 |})
    as (Hb & t' & Ht' & _ & Hres).
  - reflexivity.
  - reflexivity.
  - discriminate.
  - reflexivity.
  - reflexivity.
  - split; [exact Hb|]. exists t'. split; [exact Ht'|].
    apply Hres; [simpl; lia | reflexivity].
Defined.

End TickProofs.

(** ** Thread affinity and critical sections (os3/api/doscalls_thread.c) *)

Module ApiProofs.

Import Prio Sched SchedProofs LockProofs BalanceProofs.














Section Affinity.

Variable NO_ERROR ERROR_INVALID_THREADID ERROR_INVALID_PARAMETER : Z.
Variable find_thread_by_tid : Z -> option Z.


End Affinity.


Section CritSecProofs.

Variable NO_ERROR ERROR_CRITSEC_UNDERFLOW : Z.

(** What [DosEnterCritSec] does on a free lock. *)
Lemma DosEnterCritSec_free (fuel : nat) (k : kernel) (c : Z) :
  0 <= Spinlock.head_tail (critsec_lock k) < 2 ^ 32 ->
  Spinlock.head (critsec_lock k) = Spinlock.tail (critsec_lock k) ->
  preempt_count k = Some c ->
  exists l1,
    Spinlock.spin_lock (S fuel) (critsec_lock k) = Some l1 /\
    Spinlock.head l1 <> Spinlock.tail l1 /\
    0 <= Spinlock.head_tail l1 < 2 ^ 32 /\
    Spinlock.spin_is_locked l1 = 1 /\
    Spinlock.spin_is_locked (Spinlock.spin_unlock l1) = 0 /\
    Spinlock.head (Spinlock.spin_unlock l1) =
      (Spinlock.head (critsec_lock k) + 1) mod 2 ^ 16 /\
    DosEnterCritSec NO_ERROR (S fuel) k =
      Some (NO_ERROR,
            set_preempt_count (c + 1)
              (set_critsec_count (critsec_count k + 1) (set_critsec_lock l1 k))).
Proof.
  intros Hw Hfree Hc.
  destruct (spin_lock_free fuel _ Hw Hfree) as (l1 & Hl & Hh & Ht & Hw1).
  rewrite <- Hfree in Ht.
  destruct (held_by_one l1 _ Hw1 (head_range _) Hh Ht) as (Hne & Hheld & Hrel).
  destruct (spin_unlock_spec l1 Hw1) as (Hh2 & _ & _).
  exists l1. split; [exact Hl|]. split; [exact Hne|]. split; [exact Hw1|].
  split; [exact Hheld|]. split; [exact Hrel|]. split; [rewrite Hh2, Hh; reflexivity|].
  unfold DosEnterCritSec. rewrite Hl. cbn [mbind option_bind].
  unfold preempt_disable.
  change (preempt_count (set_critsec_count _ (set_critsec_lock l1 k))) with (preempt_count k).
  rewrite Hc. reflexivity.
Qed.

(** A critical section leaves no trace. On a process whose
    critical-section lock is free, [DosEnterCritSec] returns [NO_ERROR]
    with the lock held, the nesting count and the preemption counter one
    higher; the matching [DosExitCritSec] returns [NO_ERROR] and gives
    back the state the section was entered in, except that both halves of
    the lock word have moved on by one ticket. The preemption counter is
    taken non-negative and below [INT_MAX], and the exit is taken not to
    reschedule (the counter stays above 0, or NEED_RESCHED is clear). *)
Theorem critical_section_round_trip (fuel : nat) (k : kernel) (c : Z) :
  0 <= Spinlock.head_tail (critsec_lock k) < 2 ^ 32 ->
  Spinlock.head (critsec_lock k) = Spinlock.tail (critsec_lock k) ->
  0 <= critsec_count k ->
  preempt_count k = Some c -> 0 <= c < 2 ^ 31 - 1 ->
  c <> 0 \/ need_resched k = Some false ->
  exists k1,
    DosEnterCritSec NO_ERROR (S fuel) k = Some (NO_ERROR, k1) /\
    critsec_count k1 = critsec_count k + 1 /\
    preempt_count k1 = Some (c + 1) /\
    Spinlock.spin_is_locked (critsec_lock k1) = 1 /\
    exists l2,
      DosExitCritSec NO_ERROR ERROR_CRITSEC_UNDERFLOW k1 =
        Some (NO_ERROR, set_critsec_lock l2 k) /\
      Spinlock.spin_is_locked l2 = 0 /\
      Spinlock.head l2 = (Spinlock.head (critsec_lock k) + 1) mod 2 ^ 16.
Proof.
  intros Hw Hfree Hcs Hc Hpos Hres.
  destruct (DosEnterCritSec_free fuel k c Hw Hfree Hc)
    as (l1 & Hl & _ & _ & Hlocked & Hfree2 & Hh2 & He).
  eexists. split; [exact He|].
  split; [reflexivity|].
  split; [apply (preempt_count_set (set_critsec_count _ (set_critsec_lock l1 k)) c); exact Hc|].
  split; [exact Hlocked|].
  exists (Spinlock.spin_unlock l1).
  split; [|split; [exact Hfree2 | exact Hh2]].
  unfold DosExitCritSec.
  change (critsec_count (set_preempt_count (c + 1)
            (set_critsec_count (critsec_count k + 1) (set_critsec_lock l1 k))))
    with (critsec_count k + 1).
  destruct (Z.eqb_spec (critsec_count k + 1) 0); [lia|].
  replace (critsec_count k + 1 - 1) with (critsec_count k) by lia.
  change (set_critsec_count (critsec_count k)
            (set_preempt_count (c + 1)
               (set_critsec_count (critsec_count k + 1) (set_critsec_lock l1 k))))
    with (set_preempt_count (c + 1) (set_critsec_lock l1 k)).
  rewrite preempt_enable_undo; [reflexivity | exact Hc | exact Hres].
Qed.

(** Critical sections do not nest. The nesting count notwithstanding, a
    second [DosEnterCritSec] before the [DosExitCritSec] waits for the
    spinlock that the first call holds: with the lock word left alone it
    does not return, however long it waits. *)
Theorem critical_section_not_reentrant (fuel fuel' : nat) (k k1 : kernel) (rc : Z) :
  0 <= Spinlock.head_tail (critsec_lock k) < 2 ^ 32 ->
  Spinlock.head (critsec_lock k) = Spinlock.tail (critsec_lock k) ->
  DosEnterCritSec NO_ERROR fuel k = Some (rc, k1) ->
  Spinlock.spin_lock fuel' (critsec_lock k1) = None /\
  DosEnterCritSec NO_ERROR fuel' k1 = None.
Proof.
  intros Hw Hfree. unfold DosEnterCritSec at 1.
  destruct (Spinlock.spin_lock fuel (critsec_lock k)) as [l1|] eqn:Hl;
    [cbn [mbind option_bind] | discriminate].
  destruct (preempt_disable _) as [k2|] eqn:Hp; [cbn [mbind option_bind] | discriminate].
  intros E. injection E as <- <-.
  assert (Hlock : critsec_lock k2 = l1).
  { unfold preempt_disable in Hp.
    destruct (preempt_count _); [simpl in Hp | discriminate]. injection Hp as <-. reflexivity. }
  destruct fuel as [|fuel]; [discriminate|].
  destruct (spin_lock_free fuel _ Hw Hfree) as (l1' & Hl' & Hh & Ht & Hw1).
  replace l1' with l1 in * by congruence.
  rewrite <- Hfree in Ht.
  destruct (held_by_one l1 _ Hw1 (head_range _) Hh Ht) as (Hne & _ & _).
  assert (Hsp : Spinlock.spin_lock fuel' (critsec_lock k2) = None).
  { rewrite Hlock. apply spin_lock_held_waits; assumption. }
  split; [exact Hsp|]. unfold DosEnterCritSec. rewrite Hsp. reflexivity.
Qed.

End CritSecProofs.

Lemma critical_section_round_trip_witness :
  exists k1,
    DosEnterCritSec 0 1 nested_kernel = Some (0, k1) /\
    critsec_count k1 = 1 /\
    preempt_count k1 = Some 2 /\
    exists l2,
      DosExitCritSec 0 484 k1 = Some (0, set_critsec_lock l2 nested_kernel) /\
      Spinlock.spin_is_locked l2 = 0.
Proof.
  destruct (critical_section_round_trip 0 484 0 nested_kernel 1)
    as (k1 & H1 & H2 & H3 & _ & l2 & H4 & H5 & _).
  - simpl. lia.
  - reflexivity.
  - simpl. lia.
  - reflexivity.
  - lia.
  - left. lia.
  - exists k1. split; [exact H1|]. split; [exact H2|]. split; [exact H3|].
    exists l2. auto.
Defined.

(** The boot state inside a critical section. *)
Definition entered : kernel :=
  default boot_kernel (snd <$> DosEnterCritSec 0 1 boot_kernel).

Lemma critical_section_not_reentrant_witness :
  DosEnterCritSec 0 1 boot_kernel = Some (0, entered) /\
  Spinlock.spin_lock 100 (critsec_lock entered) = None /\
  DosEnterCritSec 0 100 entered = None.
Proof.
  assert (E : DosEnterCritSec 0 1 boot_kernel = Some (0, entered)) by reflexivity.
  split; [exact E|].
  apply (critical_section_not_reentrant 0 1 100 boot_kernel entered 0).
  - simpl. lia.
  - reflexivity.
  - exact E.
Defined.

End ApiProofs.

(** ** NUMA set-up and the allocation wrapper *)

Module SetupProofs.

Import Numa NumaProofs.


Lemma double_pow2 (e : Z) : 0 <= e < 63 -> u64 (Z.shiftl (2 ^ e) 1) = 2 ^ (e + 1).
Proof.
  intros He. rewrite Z.shiftl_mul_pow2 by lia. unfold u64.
  rewrite Z.pow_add_r by lia. apply Z.mod_small.
  assert (2 ^ e < 2 ^ 63) by (apply Z.pow_lt_mono_r; lia).
  assert (0 < 2 ^ e) by (apply Z.pow_pos_nonneg; lia). lia.
Qed.

Lemma kmalloc_order_finds (size s : Z) (fuel : nat) (o : Z) :
  0 <= s -> 0 <= o -> s + o <= 63 -> size <= 2 ^ 63 ->
  (63 - (s + o) < Z.of_nat fuel) ->
  exists o',
    kmalloc_order fuel size (2 ^ (s + o)) o = Some o' /\
    o <= o' /\ s + o' <= 63 /\ size <= 2 ^ (s + o') /\
    (o' = o \/ 2 ^ (s + o' - 1) < size).
Proof.
  intros Hs. revert o. induction fuel as [|fuel IH]; intros o Ho Hso Hsz Hf; [lia|].
  cbn [kmalloc_order]. destruct (Z.ltb_spec (2 ^ (s + o)) size) as [Hlt|Hge].
  - assert (s + o < 63)
      by (destruct (Z.eq_dec (s + o) 63) as [E|]; [rewrite E in Hlt|]; lia).
    rewrite double_pow2 by lia.
    replace (u32 (o + 1)) with (o + 1) by (unfold u32; rewrite Z.mod_small; lia).
    replace (s + o + 1) with (s + (o + 1)) by lia.
    destruct (IH (o + 1)) as (o' & E & H1 & H2 & H3 & H4); try lia.
    exists o'. split; [exact E|]. split; [lia|]. split; [lia|]. split; [exact H3|].
    right. destruct H4 as [-> | H4]; [|exact H4].
    replace (s + (o + 1) - 1) with (s + o) by lia. exact Hlt.
  - exists o. split; [reflexivity|]. split; [lia|]. split; [lia|]. split; [lia|].
    left. reflexivity.
Qed.

Lemma kmalloc_order_hangs (size : Z) (fuel : nat) (a o : Z) :
  2 ^ 63 < size ->
  a = 0 \/ (exists e, 0 <= e <= 63 /\ a = 2 ^ e) ->
  kmalloc_order fuel size a o = None.
Proof.
  intros Hsz. revert a o. induction fuel as [|fuel IH]; intros a o Ha; [reflexivity|].
  cbn [kmalloc_order].
  assert (Hlt : a < size).
  { destruct Ha as [-> | (e & He & ->)]; [lia|].
    assert (2 ^ e <= 2 ^ 63) by (apply Z.pow_le_mono_r; lia). lia. }
  destruct (Z.ltb_spec a size); [|lia]. apply IH.
  destruct Ha as [-> | (e & He & ->)]; [left; reflexivity|].
  destruct (Z.eq_dec e 63) as [->|]; [left; reflexivity|].
  right. exists (e + 1). split; [lia|]. apply double_pow2. lia.
Qed.

(** The order [kmalloc_node] asks for. With a page size of [2 ^ s]
    bytes and a request of at most [2 ^ 63] bytes the loop stops, and
    [kmalloc_node] calls [numa_alloc_pages] with the least order whose
    block of [2 ^ order] pages holds [size] bytes. For a larger request
    the doubled block size wraps to 0 in [size_t] and the loop never
    stops. *)
Theorem kmalloc_node_order (MAX_ORDER s size node : Z) (fuel : nat)
    (alloc_pages : Z -> option Z) (st : mm_state) :
  0 <= s < 64 ->
  (size <= 2 ^ 63 -> (64 <= fuel)%nat ->
   exists o,
     0 <= o /\ size <= 2 ^ s * 2 ^ o /\ 2 ^ s * 2 ^ o < 2 ^ 64 /\
     (o = 0 \/ 2 ^ s * 2 ^ (o - 1) < size) /\
     kmalloc_node MAX_ORDER (2 ^ s) alloc_pages fuel size node st =
       numa_alloc_pages MAX_ORDER alloc_pages node o st) /\
  (2 ^ 63 < size ->
   kmalloc_node MAX_ORDER (2 ^ s) alloc_pages fuel size node st = None).
Proof.
  intros Hs. unfold kmalloc_node. split.
  - intros Hsz Hf.
    destruct (kmalloc_order_finds size s fuel 0) as (o & E & H1 & H2 & H3 & H4); try lia.
    rewrite Z.add_0_r in E. exists o. split; [exact H1|].
    rewrite <- Z.pow_add_r by lia. split; [exact H3|]. split.
    + apply Z.pow_lt_mono_r; lia.
    + split; [|rewrite E; reflexivity].
      destruct H4 as [-> | H4]; [left; reflexivity|].
      destruct (Z.eq_dec o 0) as [->|]; [left; reflexivity|]. right.
      rewrite <- Z.pow_add_r by lia. replace (s + (o - 1)) with (s + o - 1) by lia.
      exact H4.
  - intros Hsz. rewrite kmalloc_order_hangs; [reflexivity | exact Hsz|].
    right. exists s. split; [lia | reflexivity].
Qed.

Lemma kmalloc_node_order_witness :
  (exists o,
     0 <= o /\ 10000 <= 2 ^ 12 * 2 ^ o /\ 2 ^ 12 * 2 ^ o < 2 ^ 64 /\
     (o = 0 \/ 2 ^ 12 * 2 ^ (o - 1) < 10000) /\
     kmalloc_node 11 (2 ^ 12) (fun _ => None) 64 10000 0 split_ready_mm =
       numa_alloc_pages 11 (fun _ => None) 0 o split_ready_mm) /\
  kmalloc_node 11 (2 ^ 12) (fun _ => None) 64 (2 ^ 63 + 1) 0 split_ready_mm = None.
Proof.
  split.
  - destruct (kmalloc_node_order 11 12 10000 0 64 (fun _ => None) split_ready_mm) as [H _];
      [lia|]. apply H; lia.
  - destruct (kmalloc_node_order 11 12 (2 ^ 63 + 1) 0 64 (fun _ => None) split_ready_mm)
      as [_ H]; [lia|]. apply H. lia.
Defined.


(** The row that [numa_build_fallback_order] writes for node [i]. *)
Lemma fallback_row_sort_list (t : numa_topology) (i : nat) :
  0 <= num_nodes t <= MAX_NUMA_NODES ->
  length (fallback t) = Z.to_nat MAX_NUMA_NODES ->
  Forall (fun row => length row = Z.to_nat MAX_NUMA_NODES) (fallback t) ->
  (i < Z.to_nat (num_nodes t))%nat ->
  fallback_row (numa_build_fallback_order t) i =
  Some (sort_list (dist t i) (Z.to_nat (num_nodes t)) (zrange (num_nodes t))).
Proof.
  intros Hn Hlen Hrows Hi. unfold MAX_NUMA_NODES in *.
  set (n := Z.to_nat (num_nodes t)) in *.
  destruct (lookup_lt_is_Some_2 (fallback t) i) as [row0 Hrow0]; [lia|].
  assert (Hl0 : length row0 = 64%nat).
  { rewrite Forall_forall in Hrows. apply (Hrows row0).
    apply list_elem_of_lookup. eauto. }
  assert (Hzn : length (zrange (Z.of_nat n)) = n).
  { unfold zrange. rewrite length_map, length_seq. lia. }
  replace (num_nodes t) with (Z.of_nat n) by lia.
  unfold fallback_row, numa_build_fallback_order. simpl.
  replace (Z.to_nat (num_nodes t)) with n by reflexivity.
  rewrite fold_rows_lookup. destruct (decide (i < n)%nat); [|lia].
  rewrite Hrow0. simpl. f_equal. unfold build_row.
  replace (Z.to_nat (num_nodes t)) with n by reflexivity.
  rewrite init_row_small by lia. rewrite sort_row_app by exact Hzn.
  apply take_app_length'.
  unfold sort_list.
  rewrite (Permutation_length (passes_perm (dist t i) n (seq 0 (n - 1)) _)).
  symmetry. exact Hzn.
Qed.

Lemma zrange_In (n x : Z) : In x (zrange n) <-> 0 <= x < n.
Proof.
  unfold zrange. rewrite in_map_iff. split.
  - intros (j & <- & Hj). apply in_seq in Hj. lia.
  - intros Hx. exists (Z.to_nat x). split; [lia|]. apply in_seq. lia.
Qed.

Lemma zrange_NoDup (n : Z) : List.NoDup (zrange n).
Proof.
  unfold zrange. apply Finite.Injective_map_NoDup.
  - intros a b H. lia.
  - apply seq_NoDup.
Qed.

Lemma sorted_weaken_in {A} (P Q : A -> A -> Prop) (l : list A) :
  (forall a b, In a l -> In b l -> P a b -> Q a b) ->
  StronglySorted P l -> StronglySorted Q l.
Proof.
  intros H Hs. induction Hs as [|a l Hs IH Hf]; constructor.
  - apply IH. intros x y Hx Hy. apply H; right; assumption.
  - rewrite Forall_forall in *. intros x Hx.
    apply H; [left; reflexivity | right; apply list_elem_of_In, Hx | apply Hf, Hx].
Qed.

(** A row sorted nearest first, holding each node once, starts with the
    node that is strictly nearest. *)
Lemma nearest_is_head (d : Z -> Z) (n i : Z) (row : list Z) :
  Permutation row (zrange n) ->
  StronglySorted (nearer d) row ->
  0 <= i < n ->
  (forall j, 0 <= j < n -> j <> i -> d i < d j) ->
  exists rest, row = i :: rest /\ (forall j, In j rest -> j <> i).
Proof.
  intros Hperm Hsorted Hi Hnear.
  assert (Hin : In i row).
  { apply (Permutation_in _ (Permutation_sym Hperm)). apply zrange_In. lia. }
  assert (Hnd : List.NoDup row).
  { apply (Permutation_NoDup (Permutation_sym Hperm)). apply zrange_NoDup. }
  destruct row as [|h rest]; [destruct Hin|].
  inversion Hsorted as [|? ? Hs Hf]; subst.
  assert (Hh : h = i).
  { destruct Hin as [E | Hin]; [exact E|]. exfalso.
    rewrite Forall_forall in Hf. specialize (Hf _ (proj2 (list_elem_of_In _ _) Hin)).
    assert (Hhr : 0 <= h < n).
    { apply zrange_In. apply (Permutation_in _ Hperm). left. reflexivity. }
    assert (Hne : h <> i).
    { intros ->. inversion Hnd; subst. contradiction. }
    specialize (Hnear h Hhr Hne). unfold nearer in Hf. lia. }
  subst h. exists rest. split; [reflexivity|].
  intros j Hj ->. inversion Hnd; subst. contradiction.
Qed.

(** The requested node comes first. When every other node is strictly
    farther from node [i] than node [i] itself, the fallback row that
    [numa_build_fallback_order] writes for [i] starts with [i], and [i]
    does not occur again: the loop of [numa_alloc_pages] that starts at
    index 1 tries each of the other nodes once and the requested node not
    at all. *)
Theorem fallback_row_own_node_first (t : numa_topology) (i : nat) :
  0 <= num_nodes t <= MAX_NUMA_NODES ->
  length (fallback t) = Z.to_nat MAX_NUMA_NODES ->
  Forall (fun row => length row = Z.to_nat MAX_NUMA_NODES) (fallback t) ->
  (i < Z.to_nat (num_nodes t))%nat ->
  (forall j, 0 <= j < num_nodes t -> j <> Z.of_nat i ->
     dist t i (Z.of_nat i) < dist t i j) ->
  exists rest,
    fallback_row (numa_build_fallback_order t) i = Some (Z.of_nat i :: rest) /\
    StronglySorted (nearer (dist t i)) rest /\
    Permutation (Z.of_nat i :: rest) (zrange (num_nodes t)) /\
    (forall j, In j rest -> j <> Z.of_nat i).
Proof.
  intros Hn Hlen Hrows Hi Hnear.
  rewrite (fallback_row_sort_list t i Hn Hlen Hrows Hi).
  assert (Hzn : length (zrange (num_nodes t)) = Z.to_nat (num_nodes t)).
  { unfold zrange. rewrite length_map, length_seq. lia. }
  destruct (sort_list_nearer (dist t i) _ (zrange (num_nodes t)) Hzn) as [Hperm Hsorted].
  { apply sorted_weaken with (P := Z.lt).
    - unfold index_order. intros; lia.
    - replace (num_nodes t) with (Z.of_nat (Z.to_nat (num_nodes t))) by lia.
      apply zrange_ascending. }
  destruct (nearest_is_head (dist t i) (num_nodes t) (Z.of_nat i) _ Hperm Hsorted
              ltac:(lia) Hnear) as (rest & Hrest & Hother).
  rewrite Hrest in Hperm, Hsorted |- *.
  apply StronglySorted_inv in Hsorted as [Hs _].
  exists rest. auto.
Qed.

Lemma fallback_row_own_node_first_witness :
  exists rest,
    fallback_row (numa_build_fallback_order topo3) 1 = Some (1 :: rest) /\
    StronglySorted (nearer (dist topo3 1)) rest /\
    Permutation (1 :: rest) (zrange 3) /\
    (forall j, In j rest -> j <> 1).
Proof.
  apply (fallback_row_own_node_first topo3 1).
  - unfold MAX_NUMA_NODES. simpl. lia.
  - reflexivity.
  - apply Forall_replicate. reflexivity.
  - simpl. lia.
  - intros j Hj Hne.
    assert (Hc : j = 0 \/ j = 2) by (simpl in Hj; lia).
    destruct Hc as [-> | ->]; vm_compute; reflexivity.
Defined.



(** An array updated entry by entry, [f i] applied to entry [i] below [n]. *)
Lemma fold_update_lookup {A} (f : nat -> A -> A) (n : nat) (l : list A) (i : nat) :
  fold_left
    (fun l i => match l !! i with
                | Some x => <[i := f i x]> l
                | None => l
                end) (seq 0 n) l !! i
  = if decide (i < n)%nat then f i <$> l !! i else l !! i.
Proof.
  revert i. induction n as [|n IH]; intros i; [reflexivity|].
  rewrite seq_S, fold_left_app. simpl.
  set (F := fold_left _ (seq 0 n) l) in *.
  assert (HFn : F !! n = l !! n).
  { rewrite IH. destruct (decide (n < n)%nat); [lia | reflexivity]. }
  rewrite HFn. destruct (l !! n) as [x|] eqn:En.
  - destruct (decide (i = n)) as [->|Hne].
    + rewrite list_lookup_insert_eq by (apply lookup_lt_is_Some_1; rewrite HFn; eauto).
      rewrite En. destruct (decide (n < S n)%nat); [reflexivity | lia].
    + rewrite list_lookup_insert_ne by auto. rewrite IH.
      destruct (decide (i < n)%nat), (decide (i < S n)%nat); try reflexivity; lia.
  - rewrite IH. destruct (decide (i = n)) as [->|Hne].
    + rewrite En. destruct (decide (n < n)%nat), (decide (n < S n)%nat); reflexivity.
    + destruct (decide (i < n)%nat), (decide (i < S n)%nat); try reflexivity; lia.
Qed.

Lemma fold_update_Forall {A} (P : A -> Prop) (f : nat -> A -> A) (js : list nat) (l : list A) :
  (forall i x, P x -> P (f i x)) -> Forall P l ->
  Forall P (fold_left
              (fun l i => match l !! i with
                          | Some x => <[i := f i x]> l
                          | None => l
                          end) js l).
Proof.
  intros Hf. revert l. induction js as [|j js IH]; intros l Hl; [exact Hl|].
  simpl. apply IH. destruct (l !! j) as [x|] eqn:E; [|exact Hl].
  apply Forall_insert; [exact Hl|]. apply Hf.
  rewrite Forall_forall in Hl. apply Hl. apply list_elem_of_lookup. eauto.
Qed.

Lemma fold_update_length {A} (f : nat -> A -> A) (js : list nat) (l : list A) :
  length (fold_left
            (fun l i => match l !! i with
                        | Some x => <[i := f i x]> l
                        | None => l
                        end) js l) = length l.
Proof.
  revert l. induction js as [|j js IH]; intros l; [reflexivity|].
  simpl. rewrite IH. destruct (l !! j); [apply length_insert | reflexivity].
Qed.

Lemma fill_row_length (f : Z -> Z) (js : list nat) (row : list Z) :
  length (fold_left (fun r j => <[j := u8 (f (Z.of_nat j))]> r) js row) = length row.
Proof.
  revert row. induction js as [|a js IH]; intros row; [reflexivity|].
  simpl. rewrite IH. apply length_insert.
Qed.

Lemma fill_row_len (n : nat) (f : Z -> Z) (row : list Z) :
  length (fill_row n f row) = length row.
Proof. apply fill_row_length. Qed.

Lemma fill_row_lookup (n : nat) (f : Z -> Z) (row : list Z) (j : nat) :
  (j < n)%nat -> (n <= length row)%nat ->
  fill_row n f row !! j = Some (u8 (f (Z.of_nat j))).
Proof.
  unfold fill_row. revert j. induction n as [|n IH]; intros j Hj Hn; [lia|].
  rewrite seq_S, fold_left_app. simpl.
  destruct (decide (j = n)) as [->|Hne].
  - apply list_lookup_insert_eq. rewrite fill_row_length. lia.
  - rewrite list_lookup_insert_ne by auto. apply IH; lia.
Qed.

Lemma pages_in_zeros (n : nat) (k : Z) : pages_in k (replicate n 0) = 0.
Proof. revert k. induction n as [|n IH]; intros k; simpl; [reflexivity|]. rewrite IH. lia. Qed.

Lemma empty_node_ok (MAX_ORDER : Z) : node_ok (Numa.empty_node MAX_ORDER).
Proof.
  unfold node_ok, accounted, counts_ok, Numa.empty_node. simpl. split; [|split].
  - rewrite pages_in_zeros. reflexivity.
  - apply Forall_replicate. lia.
  - lia.
Qed.

Lemma fill_matrix_dist (n : nat) (f : Z -> Z -> Z) (t : numa_topology) (i : nat) (j : Z) :
  (n <= 64)%nat -> (i < n)%nat -> 0 <= j < Z.of_nat n ->
  length (distance t) = 64%nat ->
  Forall (fun row => length row = 64%nat) (distance t) ->
  dist (set_distance (fill_matrix n f (distance t)) t) i j = u8 (f (Z.of_nat i) j).
Proof.
  intros Hn Hi Hj Hlen Hrows. unfold dist, set_distance, fill_matrix. simpl.
  rewrite fold_update_lookup. destruct (decide (i < n)%nat); [|lia].
  destruct (lookup_lt_is_Some_2 (distance t) i) as [row Hrow]; [lia|].
  rewrite Hrow. simpl.
  assert (Hl : length row = 64%nat).
  { rewrite Forall_forall in Hrows. apply Hrows. apply list_elem_of_lookup. eauto. }
  unfold at_. destruct (Z.ltb_spec j 0); [lia|].
  rewrite fill_row_lookup by lia. simpl. f_equal. f_equal. lia.
Qed.

(** [numa_init] without a SLIT. When ACPI reports between 2 and 64 nodes
    and no more than 256 possible CPUs, and there is no SLIT, [numa_init]
    returns with NUMA enabled and the node count of ACPI; the page array is
    untouched and the accounting invariant holds for every node; [numa_distance]
    is 10 from a node to itself and 20 between different nodes; the
    fallback row of node [i] is [i] followed by the other nodes in
    ascending order; and [cpu_to_node] yields for each possible CPU the
    byte that ACPI gave for it. *)
Theorem numa_init_default (MAX_ORDER parse nodes : Z) (get_dist : Z -> Z -> Z)
    (cpu_node : Z -> Z) (cpu_possible : Z) (pages : gmap Z page) :
  0 <= parse -> 2 <= nodes <= MAX_NUMA_NODES -> cpu_possible <= MAX_CPUS ->
  exists g,
    numa_init MAX_ORDER parse nodes false get_dist cpu_node cpu_possible pages = Some g /\
    numa_enabled (mm g) = true /\
    num_nodes (topo (mm g)) = nodes /\
    mem_map (mm g) = pages /\
    all_nodes_ok (mm g) /\
    (forall i j, 0 <= i < nodes -> 0 <= j < nodes ->
       numa_distance i j (mm g) = Some (if i =? j then 10 else 20)) /\
    (forall i, 0 <= i < nodes ->
       exists rest,
         fallback_row (topo (mm g)) (Z.to_nat i) = Some (i :: rest) /\
         StronglySorted Z.lt rest /\
         Permutation (i :: rest) (zrange nodes)) /\
    (forall cpu, 0 <= cpu < cpu_possible ->
       cpu_to_node cpu g = Some (u8 (cpu_node cpu))).
Proof.
  intros Hp Hn Hc. unfold MAX_NUMA_NODES, MAX_CPUS in *.
  unfold numa_init.
  destruct (Z.ltb_spec parse 0); [lia|].
  cbn [num_nodes set_num_nodes].
  destruct (Z.leb_spec nodes 1); [lia|].
  replace (nodes >? MAX_NUMA_NODES) with false
    by (unfold MAX_NUMA_NODES; symmetry; rewrite Z.gtb_ltb; apply Z.ltb_ge; lia).
  replace (cpu_possible >? MAX_CPUS) with false
    by (unfold MAX_CPUS; symmetry; rewrite Z.gtb_ltb; apply Z.ltb_ge; lia).
  cbn [orb]. eexists. split; [reflexivity|].
  set (n := Z.to_nat nodes).
  set (t0 := set_nodes _ _).
  set (d := fill_matrix _ _ _).
  assert (Hd_len : length (distance t0) = 64%nat) by reflexivity.
  assert (Hd_rows : Forall (fun row => length row = 64%nat) (distance t0)).
  { apply Forall_replicate. reflexivity. }
  assert (Hdist : forall i j, (i < n)%nat -> 0 <= j < nodes ->
            dist (set_distance d t0) i j = if Z.of_nat i =? j then 10 else 20).
  { intros i j Hi Hj. unfold d. rewrite fill_matrix_dist by (auto; lia).
    destruct (Z.of_nat i =? j); reflexivity. }
  split; [reflexivity|]. split; [reflexivity|]. split; [reflexivity|].
  split; [|split; [|split]].
  - unfold all_nodes_ok. cbn. unfold init_nodes.
    apply Forall_impl with (P := fun x => node_ok x /\ free_pages x = 0);
      [|intros x [Hx _]; exact Hx].
    apply fold_update_Forall.
    + intros _ x [_ Hx]. split; [|exact Hx].
      unfold node_ok, accounted, counts_ok. cbn. rewrite Hx, pages_in_zeros.
      split; [reflexivity|]. split; [apply Forall_replicate|]; lia.
    + apply Forall_replicate. split; [apply empty_node_ok | reflexivity].
  - intros i j Hi Hj. unfold numa_distance. cbn.
    replace (i >=? nodes) with false by (symmetry; rewrite Z.geb_leb; apply Z.leb_gt; lia).
    replace (j >=? nodes) with false by (symmetry; rewrite Z.geb_leb; apply Z.leb_gt; lia).
    cbn [orb].
    specialize (Hdist (Z.to_nat i) j ltac:(lia) Hj).
    unfold dist in Hdist. cbn in Hdist.
    fold d.
    destruct (lookup_lt_is_Some_2 d (Z.to_nat i)) as [row Hrow].
    { unfold d, fill_matrix. rewrite fold_update_length. rewrite Hd_len. lia. }
    assert (Hat : at_ d i = Some row).
    { unfold at_. destruct (Z.ltb_spec i 0); [lia | exact Hrow]. }
    rewrite Hat. rewrite Hrow in Hdist. cbn.
    destruct (at_ row j) as [x|] eqn:E.
    + cbn in Hdist. rewrite Hdist. rewrite Z2Nat.id by lia. reflexivity.
    + exfalso. unfold at_ in E. destruct (Z.ltb_spec j 0); [lia|].
      apply lookup_ge_None_1 in E.
      unfold d, fill_matrix in Hrow. rewrite fold_update_lookup in Hrow.
      destruct (decide (Z.to_nat i < n)%nat); [|lia].
      destruct (distance t0 !! Z.to_nat i) as [r0|] eqn:E0; [|discriminate].
      cbn in Hrow. injection Hrow as <-.
      rewrite fill_row_len in E.
      assert (length r0 = 64%nat).
      { rewrite Forall_forall in Hd_rows. apply Hd_rows. apply list_elem_of_lookup. eauto. }
      lia.
  - intros i Hi. cbn [mm topo].
    set (t := set_distance d t0).
    assert (Hnn : num_nodes t = nodes) by reflexivity.
    change (set_distance d t0) with t in Hdist.
    assert (Hrow := fallback_row_sort_list t (Z.to_nat i)).
    rewrite Hnn in Hrow. fold n in Hrow.
    rewrite Hrow; [| unfold MAX_NUMA_NODES; lia | reflexivity
                   | apply Forall_replicate; reflexivity | lia].
    assert (Hzn : length (zrange nodes) = n).
    { unfold zrange. rewrite length_map, length_seq. reflexivity. }
    destruct (sort_list_nearer (dist t (Z.to_nat i)) n (zrange nodes) Hzn) as [Hperm Hsorted].
    { apply sorted_weaken with (P := Z.lt).
      - unfold index_order. intros; lia.
      - replace nodes with (Z.of_nat n) by lia. apply zrange_ascending. }
    destruct (nearest_is_head (dist t (Z.to_nat i)) nodes i _ Hperm Hsorted Hi)
      as (rest & Hrest & Hother).
    { intros j Hj Hne. rewrite !Hdist by lia.
      rewrite Z2Nat.id by lia. rewrite Z.eqb_refl.
      destruct (Z.eqb_spec i j); lia. }
    exists rest. split; [f_equal; exact Hrest|]. rewrite Hrest in Hperm, Hsorted.
    split; [|exact Hperm].
    apply StronglySorted_inv in Hsorted as [Hs _].
    apply sorted_weaken_in with (P := nearer (dist t (Z.to_nat i))); [|exact Hs].
    intros a b Ha Hb Hab.
    assert (Har : 0 <= a < nodes).
    { apply zrange_In. apply (Permutation_in _ Hperm). right. exact Ha. }
    assert (Hbr : 0 <= b < nodes).
    { apply zrange_In. apply (Permutation_in _ Hperm). right. exact Hb. }
    unfold nearer in Hab. rewrite !Hdist in Hab by lia.
    rewrite Z2Nat.id in Hab by lia.
    pose proof (Hother a Ha). pose proof (Hother b Hb).
    destruct (Z.eqb_spec i a), (Z.eqb_spec i b); lia.
  - intros cpu Hcpu. unfold cpu_to_node. cbn.
    replace (cpu >=? MAX_CPUS) with false
      by (unfold MAX_CPUS; symmetry; rewrite Z.geb_leb; apply Z.leb_gt; lia).
    unfold at_. destruct (Z.ltb_spec cpu 0); [lia|].
    rewrite fill_row_lookup.
    + rewrite Z2Nat.id by lia. reflexivity.
    + lia.
    + rewrite length_replicate. unfold MAX_CPUS. lia.
Qed.

Lemma numa_init_default_witness :
  exists g,
    numa_init 11 0 2 false (fun _ _ => 0) (fun c => c mod 2) 4 ∅ = Some g /\
    numa_enabled (mm g) = true /\
    num_nodes (topo (mm g)) = 2 /\
    numa_distance 0 1 (mm g) = Some 20 /\
    fallback_row (topo (mm g)) 1 = Some [1; 0] /\
    cpu_to_node 3 g = Some 1.
Proof.
  destruct (numa_init_default 11 0 2 (fun _ _ => 0) (fun c => c mod 2) 4 ∅)
    as (g & H1 & H2 & H3 & _ & _ & H4 & _ & H5).
  - lia.
  - unfold MAX_NUMA_NODES. lia.
  - unfold MAX_CPUS. lia.
  - exists g. split; [exact H1|]. split; [exact H2|]. split; [exact H3|].
    split; [apply (H4 0 1); lia|].
    split; [|apply (H5 3); lia].
    injection H1 as <-. reflexivity.
Defined.

Section Reuse.

Variable MAX_ORDER : Z.
Variable PAGE_FLAG_BUDDY : Z.

(** The block released last is the block handed out next. A release that
    does not merge, followed by [numa_alloc_pages_strict] for the same
    node and order, returns the block just released, and the per-order
    counters and [free_pages] of the node are what they were before the
    release. The counters are taken to have room for the block. *)
Theorem free_then_alloc_same_block (ptr ord c : Z) (st : mm_state) (p : page)
    (nmi : numa_mem_info) :
  mem_map st !! ptr = Some p ->
  get_node (numa_node p) st = Some nmi ->
  numa_node p < num_nodes (topo st) ->
  (Z.to_nat ord < length (free_list nmi))%nat ->
  at_ (free_count nmi) ord = Some c -> 0 <= c < 2 ^ 32 - 1 ->
  0 <= free_pages nmi -> free_pages nmi + 2 ^ ord < 2 ^ 64 ->
  no_merge MAX_ORDER PAGE_FLAG_BUDDY ptr ord st ->
  exists st1 st2 nmi2,
    numa_free_pages MAX_ORDER PAGE_FLAG_BUDDY ptr ord st = Some st1 /\
    numa_alloc_pages_strict (numa_node p) ord st1 = Some (st2, Some ptr) /\
    get_node (numa_node p) st2 = Some nmi2 /\
    free_count nmi2 = free_count nmi /\
    free_pages nmi2 = free_pages nmi.
Proof.
  intros Hp Hn Hlt Hll Hc Hcr Hfp0 Hfp Hnm.
  pose proof (at_Some _ _ _ Hc) as [Hord Hlc].
  destruct (lookup_lt_is_Some_2 _ _ Hll) as [l Hl].
  assert (Hal : at_ (free_list nmi) ord = Some l).
  { unfold at_. destruct (Z.ltb_spec ord 0); [lia | exact Hl]. }
  assert (Hpw : 0 < 2 ^ ord) by (apply Z.pow_pos_nonneg; lia).
  unfold numa_free_pages. rewrite Hp. cbn [mbind option_bind]. rewrite Hn.
  cbn [mbind option_bind].
  rewrite (merge_buddies_none MAX_ORDER PAGE_FLAG_BUDDY) by exact Hnm.
  cbn [mbind option_bind]. rewrite Hp. cbn [mbind option_bind].
  rewrite get_node_set_page, Hn. cbn [mbind option_bind].
  unfold list_add. rewrite Hal. cbn [mbind option_bind].
  unfold add_free_count at 1. cbn [free_count set_free_list]. rewrite Hc.
  cbn [mbind option_bind].
  set (nmi1 := add_free_pages _ _).
  set (st0 := set_page ptr _ st).
  assert (Hn0 : get_node (numa_node p) st0 = Some nmi)
    by (unfold st0; rewrite get_node_set_page; exact Hn).
  assert (Hn1 : get_node (numa_node p) (set_node (numa_node p) nmi1 st0) = Some nmi1)
    by (eapply get_node_set_node; exact Hn0).
  eexists _, _, _. split; [reflexivity|].
  unfold numa_alloc_pages_strict. cbn [topo set_node set_topo num_nodes set_nodes].
  change (num_nodes (topo st0)) with (num_nodes (topo st)).
  destruct (Z.geb_spec (numa_node p) (num_nodes (topo st))); [lia|].
  unfold take_first. rewrite Hn1. cbn [mbind option_bind].
  assert (Hc1 : at_ (free_count nmi1) ord = Some (c + 1)).
  { unfold nmi1. cbn. rewrite (at_upd_eq _ _ _ _ Hc). f_equal.
    unfold u32. apply Z.mod_small. lia. }
  rewrite Hc1. cbn [mbind option_bind].
  destruct (Z.gtb_spec (c + 1) 0); [|lia].
  assert (Hl1 : at_ (free_list nmi1) ord = Some (ptr :: l)).
  { unfold nmi1. cbn. eapply at_upd_eq, Hal. }
  rewrite Hl1. cbn [mbind option_bind head].
  rewrite get_node_list_del, Hn1. cbn [mbind option_bind fmap option_fmap option_map].
  unfold add_free_count. cbn [free_count unlink set_free_list]. rewrite Hc1.
  cbn [mbind option_bind].
  split; [reflexivity|]. split.
  { eapply get_node_set_node. rewrite get_node_list_del, Hn1. reflexivity. }
  split.
  - cbn. replace (c + 1 + -1) with c by lia.
    replace (u32 (c + 1)) with (c + 1) by (unfold u32; rewrite Z.mod_small; lia).
    replace (u32 c) with c by (unfold u32; rewrite Z.mod_small; lia).
    apply upd_upd_id. exact Hc.
  - cbn. rewrite Z.shiftl_1_l. unfold u64.
    rewrite (Z.mod_small (free_pages nmi + 2 ^ ord)) by lia.
    replace (free_pages nmi + 2 ^ ord + - 2 ^ ord) with (free_pages nmi) by lia.
    apply Z.mod_small. lia.
Qed.

End Reuse.

Lemma free_then_alloc_same_block_witness :
  exists st1 st2 nmi2,
    numa_free_pages 11 1 2 0 boot_mm = Some st1 /\
    numa_alloc_pages_strict 0 0 st1 = Some (st2, Some 2) /\
    get_node 0 st2 = Some nmi2 /\
    free_count nmi2 = replicate 11 0 /\
    free_pages nmi2 = 0.
Proof.
  apply (free_then_alloc_same_block 11 1 2 0 0 boot_mm (untouched_page 0) (empty_node 0 4)).
  - reflexivity.
  - reflexivity.
  - simpl. lia.
  - simpl. lia.
  - reflexivity.
  - lia.
  - simpl. lia.
  - simpl. lia.
  - right. exists (untouched_page 0). split; reflexivity.
Defined.

(** On a machine without NUMA. When ACPI has no SRAT, or reports at most
    one node, [numa_init] returns with NUMA disabled and the page array
    untouched. From then on [numa_is_enabled] is 0, [numa_num_nodes] is 1,
    [numa_distance] is 10 for every pair, [cpu_to_node] and [numa_node_id]
    are 0 for every CPU, [numa_alloc_pages] hands every request to the
    regular allocator, and [numa_alloc_pages_strict] returns NULL for every
    node and every order below [MAX_ORDER], leaving the state alone. *)
Theorem numa_init_uma (MAX_ORDER parse nodes : Z) (slit : bool)
    (get_dist : Z -> Z -> Z) (cpu_node : Z -> Z) (cpu_possible : Z)
    (pages : gmap Z page) (alloc_pages : Z -> option Z) :
  parse < 0 \/ nodes <= 1 ->
  exists g,
    numa_init MAX_ORDER parse nodes slit get_dist cpu_node cpu_possible pages = Some g /\
    mem_map (mm g) = pages /\
    numa_is_enabled (mm g) = 0 /\
    numa_num_nodes (mm g) = 1 /\
    (forall a b, numa_distance a b (mm g) = Some 10) /\
    (forall cpu, cpu_to_node cpu g = Some 0 /\ numa_node_id cpu g = Some 0) /\
    (forall node order,
       numa_alloc_pages MAX_ORDER alloc_pages node order (mm g) =
         Some (mm g, alloc_pages order)) /\
    (forall node order, 0 <= node -> 0 <= order < MAX_ORDER ->
       numa_alloc_pages_strict node order (mm g) = Some (mm g, None)).
Proof.
  intros H.
  assert (Hcases : exists n, n <= 1 /\
    numa_init MAX_ORDER parse nodes slit get_dist cpu_node cpu_possible pages =
    Some {| mm := {| topo := set_num_nodes n (zero_topology MAX_ORDER);
                     numa_enabled := false; mem_map := pages |};
            cpu_to_node_map := replicate (Z.to_nat MAX_CPUS) 0 |}).
  { unfold numa_init. destruct (Z.ltb_spec parse 0).
    - exists 1. split; [lia | reflexivity].
    - destruct H as [H | H]; [lia|]. exists nodes. split; [exact H|].
      cbn [num_nodes set_num_nodes]. destruct (Z.leb_spec nodes 1); [reflexivity | lia]. }
  destruct Hcases as (n & Hn & E). rewrite E. eexists. split; [reflexivity|].
  split; [reflexivity|]. split; [reflexivity|]. split; [reflexivity|].
  split; [reflexivity|]. split; [split; reflexivity|]. split; [reflexivity|].
  intros node order Hnode Hord. unfold numa_alloc_pages_strict.
  cbn [mm topo num_nodes set_num_nodes].
  destruct (Z.geb_spec node n); [reflexivity|].
  assert (node = 0) by lia. subst node.
  unfold take_first, get_node. cbn [mm topo Numa.nodes set_num_nodes zero_topology].
  replace (at_ (replicate (Z.to_nat MAX_NUMA_NODES) (Numa.empty_node MAX_ORDER)) 0)
    with (Some (Numa.empty_node MAX_ORDER)) by reflexivity.
  cbn [mbind option_bind free_count Numa.empty_node].
  assert (Hc : at_ (replicate (Z.to_nat MAX_ORDER) 0) order = Some 0).
  { unfold at_. destruct (Z.ltb_spec order 0); [lia|].
    apply lookup_replicate. split; [reflexivity | lia]. }
  rewrite Hc. reflexivity.
Qed.

Lemma numa_init_uma_witness :
  exists g,
    numa_init 11 (-1) 4 true (fun _ _ => 10) (fun _ => 0) 8 ∅ = Some g /\
    numa_num_nodes (mm g) = 1 /\
    numa_distance 0 3 (mm g) = Some 10 /\
    numa_alloc_pages 11 (fun _ => Some 4096) 3 0 (mm g) = Some (mm g, Some 4096) /\
    numa_alloc_pages_strict 0 0 (mm g) = Some (mm g, None).
Proof.
  destruct (numa_init_uma 11 (-1) 4 true (fun _ _ => 10) (fun _ => 0) 8 ∅
              (fun _ => Some 4096))
    as (g & H1 & _ & _ & H2 & H3 & _ & H4 & H5).
  - left. lia.
  - exists g. split; [exact H1|]. split; [exact H2|]. split; [apply H3|].
    split; [apply H4|]. apply H5; lia.
Defined.

End SetupProofs.

(** ** What pick_next_thread can return *)

Module PickProofs.

Import Prio Sched SchedProofs.

(** The inner loop returns the head of a queue whose own index is marked
    in the bitmap of the class. *)
Lemma scan_levels_result (rq : run_queue) (c : Z) (fuel : nat) (p next : Z) :
  0 <= p -> p + Z.of_nat fuel <= 32 ->
  scan_levels rq c p fuel = Some next ->
  exists q rest,
    0 <= q <= 31 - p /\
    Z.testbit (get_bitmap rq c) q = true /\
    queue (get_queue rq c q) = next :: rest.
Proof.
  revert p. induction fuel as [|fuel IH]; intros p Hp Hf; [discriminate|].
  cbn [scan_levels]. rewrite tst_bit32 by lia.
  assert (Hrest : scan_levels rq c (p + 1) fuel = Some next ->
            exists q rest, 0 <= q <= 31 - p /\
              Z.testbit (get_bitmap rq c) q = true /\
              queue (get_queue rq c q) = next :: rest).
  { intros H. destruct (IH (p + 1) ltac:(lia) ltac:(lia) H) as (q & rest & Hq & Hb & Hh).
    exists q, rest. split; [lia|]. auto. }
  destruct (Z.testbit (get_bitmap rq c) (31 - p)) eqn:Hb; [|exact Hrest].
  cbn [negb]. destruct (queue (get_queue rq c (31 - p))) as [|x rest] eqn:Hq; [exact Hrest|].
  intros E. injection E as <-. exists (31 - p), rest. split; [lia|]. auto.
Qed.

Lemma scan_classes_result (rq : run_queue) (n : nat) (next : Z) :
  (n <= 32)%nat ->
  scan_classes rq n = Some next ->
  exists c q rest,
    0 <= c < Z.of_nat n /\ 0 <= q < 32 /\
    Z.testbit (class_bitmap rq) c = true /\
    Z.testbit (get_bitmap rq c) q = true /\
    queue (get_queue rq c q) = next :: rest.
Proof.
  induction n as [|n IH]; intros Hn; [discriminate|].
  assert (Hrest : scan_classes rq n = Some next ->
            exists c q rest,
              0 <= c < Z.of_nat (S n) /\ 0 <= q < 32 /\
              Z.testbit (class_bitmap rq) c = true /\
              Z.testbit (get_bitmap rq c) q = true /\
              queue (get_queue rq c q) = next :: rest).
  { intros H. destruct (IH ltac:(lia) H) as (c & q & rest & Hc & H').
    exists c, q, rest. split; [lia | exact H']. }
  cbn [scan_classes]. rewrite tst_bit32 by lia.
  destruct (Z.testbit (class_bitmap rq) (Z.of_nat n)) eqn:Hb; [|exact Hrest].
  cbn [negb].
  destruct (Z.ltb_spec (find_first_bit (get_bitmap rq (Z.of_nat n))) 0) as [|Hp];
    [exact Hrest|].
  unfold PRIO_LEVELS_PER_CLASS.
  destruct (scan_levels rq (Z.of_nat n) _ _) as [t|] eqn:Hs; [|exact Hrest].
  intros E. injection E as <-.
  destruct (Z.le_gt_cases (find_first_bit (get_bitmap rq (Z.of_nat n))) 32) as [Hle|Hgt].
  - apply scan_levels_result in Hs; [|exact Hp | lia].
    destruct Hs as (q & rest & Hq & Hqb & Hh).
    exists (Z.of_nat n), q, rest. split; [lia|]. split; [lia|]. auto.
  - replace (Z.to_nat (32 - find_first_bit (get_bitmap rq (Z.of_nat n)))) with 0%nat in Hs
      by lia.
    discriminate.
Qed.

(** [pick_next_thread] hands out the idle thread or the head of a queue,
    never anything else. With [nr_running] at 0 it returns the idle
    pointer. If it returns NULL, the idle pointer is NULL. If it returns a
    thread that is not the idle thread, then [nr_running] is not 0 and the
    thread is the first entry of a queue [queues[c][q]] with [c] below
    [NUM_SCHED_CLASSES] and [q] below [PRIO_LEVELS_PER_CLASS], for which
    bit [c] of [class_bitmap] and bit [q] of [active_bitmap[c]] are set. *)
Theorem pick_next_thread_queued_or_idle (rq : run_queue) :
  (nr_running rq = 0 -> pick_next_thread rq = idle rq) /\
  (pick_next_thread rq = None -> idle rq = None) /\
  (forall next, pick_next_thread rq = Some next ->
     idle rq = Some next \/
     exists c q rest,
       nr_running rq <> 0 /\
       0 <= c < NUM_SCHED_CLASSES /\ 0 <= q < PRIO_LEVELS_PER_CLASS /\
       Z.testbit (class_bitmap rq) c = true /\
       Z.testbit (get_bitmap rq c) q = true /\
       queue (get_queue rq c q) = next :: rest).
Proof.
  unfold pick_next_thread.
  destruct (Z.eqb_spec (nr_running rq) 0) as [|Hnr]; [auto|].
  split; [contradiction|].
  destruct (scan_classes rq (Z.to_nat NUM_SCHED_CLASSES)) as [t|] eqn:Hs; [|auto].
  split; [discriminate|].
  intros next E. injection E as <-. right.
  apply scan_classes_result in Hs; [|unfold NUM_SCHED_CLASSES; lia].
  destruct Hs as (c & q & rest & Hc & Hq & H').
  exists c, q, rest. split; [exact Hnr|].
  unfold NUM_SCHED_CLASSES, PRIO_LEVELS_PER_CLASS in *. split; [lia|]. split; [lia|]. exact H'.
Qed.

(** Class Regular with levels 10, 21 and 25 occupied. *)
Definition rq_three_levels : run_queue :=
  default (init_run_queue 0)
    (rq ← rq_add_tail 1 10 100 (set_idle (Some 1) (init_run_queue 0));
     rq ← rq_add_tail 1 21 101 rq;
     rq_add_tail 1 25 102 rq).

Lemma pick_next_thread_queued_or_idle_witness :
  pick_next_thread rq_three_levels = Some 101 /\
  (idle rq_three_levels = Some 101 \/
   exists c q rest,
     nr_running rq_three_levels <> 0 /\
     0 <= c < NUM_SCHED_CLASSES /\ 0 <= q < PRIO_LEVELS_PER_CLASS /\
     Z.testbit (class_bitmap rq_three_levels) c = true /\
     Z.testbit (get_bitmap rq_three_levels c) q = true /\
     queue (get_queue rq_three_levels c q) = 101 :: rest).
Proof.
  assert (E : pick_next_thread rq_three_levels = Some 101) by reflexivity.
  split; [exact E|].
  destruct (pick_next_thread_queued_or_idle rq_three_levels) as (_ & _ & H).
  apply H. exact E.
Defined.

End PickProofs.
